(** * Fleet monitor of aliyun-spot-autoopen: a shallow embedding

    The development follows the Go sources: [internal/aliyun/ecs.go] (the
    compute client) and the [monitor] package (registry, cooldown tracker,
    traffic latches, reclaim-and-restart engine, command surface).

    Conventions.
    - A Go [error] is [option string]: [None] is [nil], [Some msg] carries
      the text of [err.Error()].  [fmt.Errorf("ctx: %w", err)] is string
      concatenation.
    - Go [int] and [time.Duration] are [Z]; the two places where the code
      multiplies durations are written with the 64-bit wrap-around.
    - [float64] is Rocq's primitive binary64 float.
    - Remote calls are answered by an environment that sees the whole
      history of calls made so far (the trace), so every deterministic or
      scheduled behaviour of the collaborators is an instance.
    - The read/write locks are not modelled: each operation runs as a
      whole, and a [go] statement is recorded as an event whose task the
      driver runs later. *)

From Stdlib Require Import ZArith Floats Ascii String.
From stdpp Require Import gmap strings list.

Local Open Scope Z_scope.
Local Open Scope string_scope.

(** ** Go strings *)

Module GoStrings.

(** [strings.HasPrefix]. *)
Fixpoint HasPrefix (s p : string) : bool :=
  match p with
  | EmptyString => true
  | String c p' =>
      match s with
      | EmptyString => false
      | String d s' => Ascii.eqb d c && HasPrefix s' p'
      end
  end.

(** [strings.Contains]. *)
Fixpoint Contains (s sub : string) : bool :=
  HasPrefix s sub ||
  match s with
  | EmptyString => false
  | String _ s' => Contains s' sub
  end.

(** [strings.Split(s, sep)] for a one-byte separator: the pieces between
    consecutive separators, so an input without separator gives one piece
    and the empty input gives one empty piece. *)
Fixpoint Split (s : string) (sep : ascii) : list string :=
  match s with
  | EmptyString => [EmptyString]
  | String c s' =>
      if Ascii.eqb c sep then EmptyString :: Split s' sep
      else match Split s' sep with
           | [] => [String c EmptyString]
           | p :: ps => String c p :: ps
           end
  end.

End GoStrings.

(** ** Errors and 64-bit durations *)

Definition error := option string.

(** [fmt.Errorf(ctx ++ ": %w", err)]. *)
Definition wrapErr (ctx : string) (e : string) : string := ctx +:+ ": " +:+ e.

Definition wrap64 (z : Z) : Z := (z + 2 ^ 63) mod 2 ^ 64 - 2 ^ 63.

Definition maxDuration : Z := 2 ^ 63 - 1.
Definition minDuration : Z := - 2 ^ 63.

(** [time.Second], in nanoseconds. *)
Definition Second : Z := 1000000000.

(** [time.Duration(n) * time.Second] for a Go [int] [n]. *)
Definition seconds (n : Z) : Z := wrap64 (n * Second).

(** [time.Since(t)] at clock reading [now]: [Time.Sub] saturates. *)
Definition Since (now t : Z) : Z :=
  Z.max minDuration (Z.min maxDuration (now - t)).

(** ** The compute client, [internal/aliyun/ecs.go] *)

Record SpotInstance := {
  InstanceID : string;
  InstanceName : string;
  RegionID : string;
  Status : string;
  PublicIPAddress : string;
  PrivateIPAddress : string;
  SpotStrategy : string
}.

Module ECS.

(** [ECSClient.StartInstance].  [client] is the outcome of [getClient]
    ([None] when a regional client is available), [sdk] the outcome of the
    SDK's start request, which is only looked at when a client exists. *)
Definition StartInstance (client sdk : error) (instanceID : string) : error :=
  match client with
  | Some e => Some e
  | None =>
      match sdk with
      | Some e =>
          if GoStrings.Contains e "IncorrectInstanceStatus" then None
          else Some (wrapErr ("failed to start instance " +:+ instanceID) e)
      | None => None
      end
  end.

(** [ECSClient.StopInstance]; the stop mode only travels in the request. *)
Definition StopInstance (client sdk : error) (instanceID stoppedMode : string)
  : error :=
  match client with
  | Some e => Some e
  | None =>
      match sdk with
      | Some e =>
          if GoStrings.Contains e "IncorrectInstanceStatus" then None
          else Some (wrapErr ("failed to stop instance " +:+ instanceID) e)
      | None => None
      end
  end.

End ECS.

(** ** Float comparisons used by the traffic check *)

(** Go's [a >= b] on [float64]. *)
Definition fge (a b : float) : bool := PrimFloat.leb b a.
(** Go's [a < b] on [float64]. *)
Definition flt (a b : float) : bool := PrimFloat.ltb a b.

(** ** The world the monitor talks to *)

(** A Go [(value, error)] result; the callers look at the value only when
    the error is nil. *)
Inductive result (A : Type) :=
| Ok (a : A)
| Err (e : string).
Arguments Ok {A} a.
Arguments Err {A} e.

Inductive LogLevel := LDebug | LInfo | LWarn | LError.

(** An argument of a logrus format string. *)
Inductive Arg :=
| AStr (s : string)
| AInt (n : Z)
| AFloat (f : float)
| AErr (e : error).

(** The messages of [notify.TelegramNotifier] that the monitor sends. *)
Inductive Notification :=
| NotifyInstanceReclaimed (instanceID instanceName regionID : string)
| NotifyInstanceStarted (instanceID instanceName regionID publicIP : string)
    (duration : Z)
| NotifyInstanceStartFailed (instanceID instanceName regionID : string)
    (retryCount : Z) (lastErr : error)
| NotifyTrafficShutdown (region : string) (trafficGB limitGB : float)
    (stoppedInstances : list string)
| NotifyMonitorStarted (count : Z) (instanceList : list string).

(** [aliyun.TrafficSummary], the two buckets the traffic check reads. *)
Record TrafficSummary := {
  ChinaMainlandGB : float;
  NonChinaMainlandGB : float
}.

(** Everything the monitor does that is visible outside it, with the
    answer it got. *)
Inductive Event :=
| ELog (lvl : LogLevel) (format : string) (args : list Arg)
| ENow (t : Z)
| ESleep (d : Z)
| EGetInstanceStatus (regionID instanceID : string) (r : result string)
| EStartInstance (regionID instanceID : string) (r : error)
| EStopInstance (regionID instanceID stoppedMode : string) (r : error)
| EGetInstance (regionID instanceID : string) (r : result SpotInstance)
| EGetAllRegions (r : result (list string))
| EGetSpotInstances (regionID : string) (r : result (list SpotInstance))
| EQueryInternetTraffic (r : result TrafficSummary)
| ENotify (n : Notification) (r : error)
| EGo (region : string) (trafficGB limitGB : float).

Definition Trace := list Event.

(** The collaborators.  Each answer may depend on the whole history.
    - [clock] is the monotonic clock reading in nanoseconds;
    - [timerTicks] is the number of 5-second ticks that the runtime delivers
      to one [waitForRunning] before its 2-minute timer wins the [select];
    - [goPick] chooses which of the pending per-region goroutines of a
      discovery scan runs next. *)
Record Env := {
  clock : Trace → Z;
  timerTicks : Trace → nat;
  goPick : Trace → nat;
  ecsGetInstanceStatus : Trace → string → string → result string;
  ecsStartInstance : Trace → string → string → error;
  ecsStopInstance : Trace → string → string → string → error;
  ecsGetInstance : Trace → string → string → result SpotInstance;
  ecsGetAllRegions : Trace → result (list string);
  ecsGetSpotInstances : Trace → string → result (list SpotInstance);
  trafficQueryInternetTraffic : Trace → result TrafficSummary;
  notifierSend : Trace → Notification → error
}.

(** ** Monitor state *)

Record Config := {
  RetryCount : Z;
  RetryInterval : Z;
  NotifyCooldown : Z;
  TrafficShutdownEnabled : bool;
  TrafficLimitChinaGB : float;
  TrafficLimitNonChinaGB : float
}.

(** [monitor.Monitor]: [hasTrafficClient] and [hasNotifier] say whether the
    pointers [trafficClient] and [notifier] are non-nil. *)
Record Monitor := {
  cfg : Config;
  hasTrafficClient : bool;
  hasNotifier : bool;
  instances : list SpotInstance;
  lastNotify : gmap string Z;
  chinaShutdown : bool;
  nonChinaShutdown : bool
}.

Definition setInstances (l : list SpotInstance) (m : Monitor) : Monitor :=
  {| cfg := cfg m; hasTrafficClient := hasTrafficClient m;
     hasNotifier := hasNotifier m; instances := l;
     lastNotify := lastNotify m; chinaShutdown := chinaShutdown m;
     nonChinaShutdown := nonChinaShutdown m |}.

Definition setLastNotify (k : string) (t : Z) (m : Monitor) : Monitor :=
  {| cfg := cfg m; hasTrafficClient := hasTrafficClient m;
     hasNotifier := hasNotifier m; instances := instances m;
     lastNotify := <[k := t]> (lastNotify m);
     chinaShutdown := chinaShutdown m;
     nonChinaShutdown := nonChinaShutdown m |}.

Definition setChinaShutdown (b : bool) (m : Monitor) : Monitor :=
  {| cfg := cfg m; hasTrafficClient := hasTrafficClient m;
     hasNotifier := hasNotifier m; instances := instances m;
     lastNotify := lastNotify m; chinaShutdown := b;
     nonChinaShutdown := nonChinaShutdown m |}.

Definition setNonChinaShutdown (b : bool) (m : Monitor) : Monitor :=
  {| cfg := cfg m; hasTrafficClient := hasTrafficClient m;
     hasNotifier := hasNotifier m; instances := instances m;
     lastNotify := lastNotify m; chinaShutdown := chinaShutdown m;
     nonChinaShutdown := b |}.

(** The monitor together with the history of its interactions. *)
Record St := { mon : Monitor; trace : Trace }.

(** ** A state monad over [St] *)

Definition M (A : Type) : Type := St → A * St.

Definition ret {A} (a : A) : M A := fun s => (a, s).

Definition bind {A B} (c : M A) (k : A → M B) : M B :=
  fun s => let '(a, s') := c s in k a s'.

Notation "x <- c1 ;; c2" := (bind c1 (fun x => c2))
  (at level 100, c1 at next level, right associativity).
Notation "c1 ;; c2" := (bind c1 (fun _ => c2))
  (at level 100, right associativity).

Definition getMon : M Monitor := fun s => (mon s, s).

Definition modifyMon (f : Monitor → Monitor) : M unit :=
  fun s => (tt, {| mon := f (mon s); trace := trace s |}).

Definition emit (e : Event) : M unit :=
  fun s => (tt, {| mon := mon s; trace := (trace s ++ [e])%list |}).

(** Ask the runtime (timer, scheduler) without leaving an event. *)
Definition ask {A} (q : Trace → A) : M A := fun s => (q (trace s), s).

(** Ask the environment and record question and answer. *)
Definition call {A} (ask : Trace → A) (ev : A → Event) : M A :=
  fun s => let a := ask (trace s) in
           (a, {| mon := mon s; trace := (trace s ++ [ev a])%list |}).

Definition log (lvl : LogLevel) (format : string) (args : list Arg) : M unit :=
  emit (ELog lvl format args).

Definition when (b : bool) (c : M unit) : M unit := if b then c else ret tt.

(** [for _, x := range l { body x }]. *)
Fixpoint forEach {A} (l : list A) (body : A → M unit) : M unit :=
  match l with
  | [] => ret tt
  | x :: l' => body x ;; forEach l' body
  end.

(** ** Counting events *)

Fixpoint countEv (p : Event → bool) (tr : Trace) : nat :=
  match tr with
  | [] => O
  | e :: tr' => (if p e then 1 else 0) + countEv p tr'
  end%nat.

Definition isStart (e : Event) : bool :=
  match e with EStartInstance _ _ _ => true | _ => false end.

Definition isStop (e : Event) : bool :=
  match e with EStopInstance _ _ _ _ => true | _ => false end.

Definition isGetStatus (e : Event) : bool :=
  match e with EGetInstanceStatus _ _ _ => true | _ => false end.

Definition isNotify (e : Event) : bool :=
  match e with ENotify _ _ => true | _ => false end.

Definition isGo (e : Event) : bool :=
  match e with EGo _ _ _ => true | _ => false end.

Definition isReclaimed (e : Event) : bool :=
  match e with ENotify (NotifyInstanceReclaimed _ _ _) _ => true | _ => false end.

Definition isStarted (e : Event) : bool :=
  match e with ENotify (NotifyInstanceStarted _ _ _ _ _) _ => true | _ => false end.

Definition isStartFailed (e : Event) : bool :=
  match e with ENotify (NotifyInstanceStartFailed _ _ _ _ _) _ => true | _ => false end.

Definition isTrafficShutdown (e : Event) : bool :=
  match e with ENotify (NotifyTrafficShutdown _ _ _ _) _ => true | _ => false end.

Definition isMonitorStarted (e : Event) : bool :=
  match e with ENotify (NotifyMonitorStarted _ _) _ => true | _ => false end.

(** A call that reaches a cloud API (compute or traffic). *)
Definition isCloudCall (e : Event) : bool :=
  match e with
  | EGetInstanceStatus _ _ _ | EStartInstance _ _ _ | EStopInstance _ _ _ _
  | EGetInstance _ _ _ | EGetAllRegions _ | EGetSpotInstances _ _
  | EQueryInternetTraffic _ => true
  | _ => false
  end.

(** ** The monitor's operations *)

Section MonitorOps.

(** [aliyun.IsChinaMainlandRegion] and [aliyun.GetRegionDisplayName] are
    defined in a file of the [aliyun] package that is not part of the
    sources at hand; they are pure functions of the region id and are taken
    as parameters. *)
Variable IsChinaMainlandRegion : string → bool.
Variable GetRegionDisplayName : string → string.

Variable env : Env.

Definition now : M Z := call (clock env) ENow.

Definition Sleep (d : Z) : M unit := emit (ESleep d).

Definition GetInstanceStatus (regionID instanceID : string) : M (result string) :=
  call (fun tr => ecsGetInstanceStatus env tr regionID instanceID)
       (EGetInstanceStatus regionID instanceID).

Definition StartInstance (regionID instanceID : string) : M error :=
  call (fun tr => ecsStartInstance env tr regionID instanceID)
       (EStartInstance regionID instanceID).

Definition StopInstance (regionID instanceID stoppedMode : string) : M error :=
  call (fun tr => ecsStopInstance env tr regionID instanceID stoppedMode)
       (EStopInstance regionID instanceID stoppedMode).

Definition GetInstance (regionID instanceID : string) : M (result SpotInstance) :=
  call (fun tr => ecsGetInstance env tr regionID instanceID)
       (EGetInstance regionID instanceID).

Definition notify (n : Notification) : M error :=
  call (fun tr => notifierSend env tr n) (ENotify n).

(** *** Discovery, [ECSClient.DiscoverAllSpotInstances] *)

(** The per-region goroutines: [pending] are the regions whose goroutine
    has not yet reported; the scheduler picks the next one, its result is
    appended under the mutex.  [fuel] is the number of pending regions. *)
Fixpoint scanRegions (fuel : nat) (pending : list string) (total : Z)
    (scannedCount : Z) (allInstances : list SpotInstance)
  : M (list SpotInstance) :=
  match fuel with
  | O => ret allInstances
  | S fuel' =>
      k <- ask (goPick env) ;;
      let i := (k mod length pending)%nat in
      match pending !! i with
      | None => ret allInstances
      | Some regionID =>
          r <- call (fun tr => ecsGetSpotInstances env tr regionID)
                    (EGetSpotInstances regionID) ;;
          let progress := scannedCount + 1 in
          match r with
          | Err e =>
              log LDebug "[%d/%d] Region %s: error - %v"
                [AInt progress; AInt total; AStr regionID; AErr (Some e)] ;;
              scanRegions fuel' (delete i pending) total progress allInstances
          | Ok found =>
              if (0 <? Z.of_nat (length found))%Z then
                log LInfo "[%d/%d] Region %s: found %d spot instance(s)"
                  [AInt progress; AInt total; AStr regionID;
                   AInt (Z.of_nat (length found))] ;;
                scanRegions fuel' (delete i pending) total progress
                  (allInstances ++ found)%list
              else
                log LDebug "[%d/%d] Region %s: no spot instances"
                  [AInt progress; AInt total; AStr regionID] ;;
                scanRegions fuel' (delete i pending) total progress allInstances
          end
      end
  end.

Definition DiscoverAllSpotInstances : M (result (list SpotInstance)) :=
  log LInfo "Fetching all regions..." [] ;;
  r <- call (ecsGetAllRegions env) EGetAllRegions ;;
  match r with
  | Err e => ret (Err e)
  | Ok regions =>
      log LInfo "Found %d regions, scanning for spot instances..."
        [AInt (Z.of_nat (length regions))] ;;
      startTime <- now ;;
      all <- scanRegions (length regions) regions (Z.of_nat (length regions)) 0 [] ;;
      t <- now ;;
      log LInfo "Scan completed in %.1f seconds" [AInt (Since t startTime)] ;;
      ret (Ok all)
  end.

(** *** Registry reconciliation *)

(** [map[string]bool] filled with [true] under every instance id. *)
Definition idMap (l : list SpotInstance) : gmap string bool :=
  foldl (fun mp inst => <[InstanceID inst := true]> mp) ∅ l.

(** Reading a [map[string]bool]: the zero value for a missing key. *)
Definition mapGet (mp : gmap string bool) (k : string) : bool :=
  default false (mp !! k).

Definition refreshInstances : M error :=
  r <- DiscoverAllSpotInstances ;;
  match r with
  | Err e => ret (Some (wrapErr "failed to discover instances" e))
  | Ok discovered =>
      m <- getMon ;;
      let oldMap := idMap (instances m) in
      let newMap := idMap discovered in
      forEach discovered (fun inst =>
        when (negb (mapGet oldMap (InstanceID inst)))
          (log LInfo "New instance discovered: %s (%s) in %s"
             [AStr (InstanceName inst); AStr (InstanceID inst);
              AStr (RegionID inst)])) ;;
      forEach (instances m) (fun inst =>
        when (negb (mapGet newMap (InstanceID inst)))
          (log LInfo "Instance removed: %s (%s) in %s"
             [AStr (InstanceName inst); AStr (InstanceID inst);
              AStr (RegionID inst)])) ;;
      modifyMon (setInstances discovered) ;;
      ret None
  end.

(** [fmt.Sprintf("%s (%s) - %s", a, b, c)]. *)
Definition describe (a b c : string) : string :=
  a +:+ " (" +:+ b +:+ ") - " +:+ c.

Definition DiscoverInstances : M error :=
  r <- DiscoverAllSpotInstances ;;
  match r with
  | Err e => ret (Some (wrapErr "failed to discover instances" e))
  | Ok discovered =>
      modifyMon (setInstances discovered) ;;
      log LInfo "Discovered %d spot instances"
        [AInt (Z.of_nat (length discovered))] ;;
      forEach discovered (fun inst =>
        log LInfo "  - %s (%s) in %s [%s]"
          [AStr (InstanceName inst); AStr (InstanceID inst);
           AStr (RegionID inst); AStr (Status inst)]) ;;
      m <- getMon ;;
      when (hasNotifier m && (0 <? Z.of_nat (length discovered))%Z)
        (e <- notify (NotifyMonitorStarted (Z.of_nat (length discovered))
                        (map (fun inst => describe (InstanceName inst)
                                (InstanceID inst) (RegionID inst)) discovered)) ;;
         match e with
         | Some e => log LWarn "Failed to send monitor started notification: %v"
                       [AErr (Some e)]
         | None => ret tt
         end) ;;
      ret None
  end.

(** *** Cooldown tracker *)

Definition canNotify (instanceID : string) : M bool :=
  m <- getMon ;;
  match lastNotify m !! instanceID with
  | None => ret true
  | Some lastTime =>
      t <- now ;;
      ret (seconds (NotifyCooldown (cfg m)) <? Since t lastTime)%Z
  end.

Definition updateNotifyTime (instanceID : string) : M unit :=
  t <- now ;;
  modifyMon (setLastNotify instanceID t).

(** *** Reclaim-and-restart engine *)

(** The [select] loop of [waitForRunning] with [ticks] ticks left before
    the timeout fires. *)
Fixpoint pollRunning (ticks : nat) (regionID instanceID : string) : M error :=
  match ticks with
  | O => ret (Some "timeout waiting for instance to start")
  | S ticks' =>
      r <- GetInstanceStatus regionID instanceID ;;
      match r with
      | Err e =>
          log LWarn "Failed to get instance status: %v" [AErr (Some e)] ;;
          pollRunning ticks' regionID instanceID
      | Ok status =>
          if String.eqb status "Running" then ret None
          else
            log LDebug "Instance %s status: %s, waiting..."
              [AStr instanceID; AStr status] ;;
            pollRunning ticks' regionID instanceID
      end
  end.

Definition waitForRunning (regionID instanceID : string) : M error :=
  n <- ask (timerTicks env) ;;
  pollRunning n regionID instanceID.

(** One pass through the body of the retry loop up to the point where it
    either continues (a non-nil error) or goes on to report success. *)
Definition attempt (inst : SpotInstance) (i : Z) : M error :=
  m <- getMon ;;
  when (0 <? i)%Z
    (log LInfo "Retry %d/%d for instance %s"
       [AInt (i + 1); AInt (RetryCount (cfg m)); AStr (InstanceID inst)] ;;
     Sleep (seconds (RetryInterval (cfg m)))) ;;
  e <- StartInstance (RegionID inst) (InstanceID inst) ;;
  match e with
  | Some err =>
      log LWarn "Failed to start instance %s (attempt %d): %v"
        [AStr (InstanceID inst); AInt (i + 1); AErr (Some err)] ;;
      ret (Some err)
  | None =>
      log LInfo "Start command sent for instance %s" [AStr (InstanceID inst)] ;;
      w <- waitForRunning (RegionID inst) (InstanceID inst) ;;
      match w with
      | Some err =>
          log LWarn "Instance %s did not reach running state: %v"
            [AStr (InstanceID inst); AErr (Some err)] ;;
          ret (Some err)
      | None => ret None
      end
  end.

(** The tail of the loop body after a successful start and wait. *)
Definition reportStarted (inst : SpotInstance) (startTime : Z) : M error :=
  r <- GetInstance (RegionID inst) (InstanceID inst) ;;
  inst' <- match r with
           | Err e =>
               log LWarn "Failed to get updated instance info: %v"
                 [AErr (Some e)] ;;
               ret inst
           | Ok updatedInst => ret updatedInst
           end ;;
  t <- now ;;
  let duration := Since t startTime in
  log LInfo "Instance %s started successfully in %.0f seconds"
    [AStr (InstanceID inst'); AInt duration] ;;
  m <- getMon ;;
  when (hasNotifier m)
    (e <- notify (NotifyInstanceStarted (InstanceID inst') (InstanceName inst')
                    (RegionID inst') (PublicIPAddress inst') duration) ;;
     match e with
     | Some e => log LWarn "Failed to send started notification: %v"
                   [AErr (Some e)]
     | None => ret tt
     end) ;;
  ret None.

(** The code after the loop: every attempt failed. *)
Definition reportFailed (inst : SpotInstance) (lastErr : error) : M error :=
  m <- getMon ;;
  log LError "Failed to start instance %s after %d retries"
    [AStr (InstanceID inst); AInt (RetryCount (cfg m))] ;;
  when (hasNotifier m)
    (e <- notify (NotifyInstanceStartFailed (InstanceID inst) (InstanceName inst)
                    (RegionID inst) (RetryCount (cfg m)) lastErr) ;;
     match e with
     | Some e => log LWarn "Failed to send failure notification: %v"
                   [AErr (Some e)]
     | None => ret tt
     end) ;;
  ret lastErr.

(** [for i := i0; i < RetryCount; i++], with [fuel] iterations left. *)
Fixpoint retryLoop (fuel : nat) (i : Z) (lastErr : error)
    (inst : SpotInstance) (startTime : Z) : M error :=
  match fuel with
  | O => reportFailed inst lastErr
  | S fuel' =>
      e <- attempt inst i ;;
      match e with
      | Some err => retryLoop fuel' (i + 1) (Some err) inst startTime
      | None => reportStarted inst startTime
      end
  end.

(** The cooldown-gated reclaimed alert. *)
Definition alertReclaimed (inst : SpotInstance) : M unit :=
  ok <- canNotify (InstanceID inst) ;;
  if negb ok then
    log LDebug "Notification cooldown active for instance %s"
      [AStr (InstanceID inst)]
  else
    m <- getMon ;;
    when (hasNotifier m)
      (e <- notify (NotifyInstanceReclaimed (InstanceID inst)
                      (InstanceName inst) (RegionID inst)) ;;
       match e with
       | Some e => log LWarn "Failed to send reclaimed notification: %v"
                     [AErr (Some e)]
       | None => ret tt
       end) ;;
    updateNotifyTime (InstanceID inst).

(** The latch test at the head of [checkInstance]. *)
Definition blocked (m : Monitor) (inst : SpotInstance) : bool :=
  let isChina := IsChinaMainlandRegion (RegionID inst) in
  (isChina && chinaShutdown m) || (negb isChina && nonChinaShutdown m).

(** The retry phase: read the clock, then loop. *)
Definition startWithRetries (inst : SpotInstance) : M error :=
  m <- getMon ;;
  startTime <- now ;;
  retryLoop (Z.to_nat (RetryCount (cfg m))) 0 None inst startTime.

Definition checkInstance (inst : SpotInstance) : M error :=
  m <- getMon ;;
  if blocked m inst then
    log LDebug "Instance %s (%s) skipped: traffic shutdown active for %s region"
      [AStr (InstanceName inst); AStr (InstanceID inst); AStr (RegionID inst)] ;;
    ret None
  else
    r <- GetInstanceStatus (RegionID inst) (InstanceID inst) ;;
    match r with
    | Err e => ret (Some (wrapErr "failed to get status" e))
    | Ok status =>
        log LDebug "Instance %s (%s) status: %s"
          [AStr (InstanceName inst); AStr (InstanceID inst); AStr status] ;;
        if negb (String.eqb status "Stopped") then ret None
        else
          log LWarn "Instance %s (%s) is stopped, attempting to start"
            [AStr (InstanceName inst); AStr (InstanceID inst)] ;;
          alertReclaimed inst ;;
          startWithRetries inst
    end.

(** The body of the loop of [Check]: a failure is logged and the cycle
    goes on. *)
Definition checkAndLog (inst : SpotInstance) : M unit :=
  e <- checkInstance inst ;;
  match e with
  | Some e => log LError "Failed to check instance %s: %v"
                [AStr (InstanceID inst); AErr (Some e)]
  | None => ret tt
  end.

Definition Check : M error :=
  e <- refreshInstances ;;
  match e with
  | Some e => log LWarn "Failed to refresh instances, using cached list: %v"
                [AErr (Some e)]
  | None => ret tt
  end ;;
  m <- getMon ;;
  forEach (instances m) checkAndLog ;;
  ret None.

(** *** Traffic budget enforcer *)

Definition CheckTraffic : M error :=
  m <- getMon ;;
  if negb (hasTrafficClient m) then ret (Some "traffic client not initialized")
  else if negb (TrafficShutdownEnabled (cfg m)) then ret None
  else
    log LDebug "Checking traffic limits..." [] ;;
    r <- call (trafficQueryInternetTraffic env) EQueryInternetTraffic ;;
    match r with
    | Err e => ret (Some (wrapErr "failed to query traffic" e))
    | Ok summary =>
        let chinaTrafficGB := ChinaMainlandGB summary in
        let nonChinaTrafficGB := NonChinaMainlandGB summary in
        let limitChina := TrafficLimitChinaGB (cfg m) in
        let limitNonChina := TrafficLimitNonChinaGB (cfg m) in
        log LDebug "Traffic check: China=%.2f/%.0f GB, Non-China=%.2f/%.0f GB"
          [AFloat chinaTrafficGB; AFloat limitChina;
           AFloat nonChinaTrafficGB; AFloat limitNonChina] ;;
        (m1 <- getMon ;;
         if fge chinaTrafficGB limitChina then
           when (negb (chinaShutdown m1))
             (modifyMon (setChinaShutdown true) ;;
              log LWarn "China mainland traffic %.2f GB exceeded limit %.0f GB, shutting down China instances"
                [AFloat chinaTrafficGB; AFloat limitChina] ;;
              emit (EGo "china" chinaTrafficGB limitChina))
         else
           when (chinaShutdown m1)
             (log LInfo "China mainland traffic %.2f GB is below limit %.0f GB, clearing shutdown flag"
                [AFloat chinaTrafficGB; AFloat limitChina] ;;
              modifyMon (setChinaShutdown false))) ;;
        (m2 <- getMon ;;
         if fge nonChinaTrafficGB limitNonChina then
           when (negb (nonChinaShutdown m2))
             (modifyMon (setNonChinaShutdown true) ;;
              log LWarn "Non-China traffic %.2f GB exceeded limit %.0f GB, shutting down non-China instances"
                [AFloat nonChinaTrafficGB; AFloat limitNonChina] ;;
              emit (EGo "non-china" nonChinaTrafficGB limitNonChina))
         else
           when (nonChinaShutdown m2)
             (log LInfo "Non-China traffic %.2f GB is below limit %.0f GB, clearing shutdown flag"
                [AFloat nonChinaTrafficGB; AFloat limitNonChina] ;;
              modifyMon (setNonChinaShutdown false))) ;;
        ret None
    end.

(** The [continue] test at the head of the shutdown loop. *)
Definition outsideGroup (region : string) (inst : SpotInstance) : bool :=
  let isChina := IsChinaMainlandRegion (RegionID inst) in
  (String.eqb region "china" && negb isChina) ||
  (String.eqb region "non-china" && isChina).

(** The loop of [shutdownRegionInstances] over the registry snapshot. *)
Fixpoint stopLoop (region : string) (l : list SpotInstance)
    (stoppedInstances : list string) : M (list string) :=
  match l with
  | [] => ret stoppedInstances
  | inst :: l' =>
      if outsideGroup region inst then stopLoop region l' stoppedInstances
      else
        r <- GetInstanceStatus (RegionID inst) (InstanceID inst) ;;
        match r with
        | Err e =>
            log LError "Failed to get status for instance %s: %v"
              [AStr (InstanceID inst); AErr (Some e)] ;;
            stopLoop region l' stoppedInstances
        | Ok status =>
            if negb (String.eqb status "Running") then
              stopLoop region l' stoppedInstances
            else
              log LWarn "Stopping instance %s (%s) due to traffic limit exceeded"
                [AStr (InstanceName inst); AStr (InstanceID inst)] ;;
              e <- StopInstance (RegionID inst) (InstanceID inst) "StopCharging" ;;
              match e with
              | Some err =>
                  log LError "Failed to stop instance %s: %v"
                    [AStr (InstanceID inst); AErr (Some err)] ;;
                  stopLoop region l' stoppedInstances
              | None =>
                  stopLoop region l'
                    (stoppedInstances ++
                       [describe (InstanceName inst) (InstanceID inst)
                          (GetRegionDisplayName (RegionID inst))])%list
              end
        end
  end.

Definition shutdownRegionInstances (region : string) (trafficGB limitGB : float)
  : M unit :=
  m <- getMon ;;
  stoppedInstances <- stopLoop region (instances m) [] ;;
  when (hasNotifier m && (0 <? Z.of_nat (length stoppedInstances))%Z)
    (e <- notify (NotifyTrafficShutdown region trafficGB limitGB
                    stoppedInstances) ;;
     match e with
     | Some e => log LError "Failed to send traffic shutdown notification: %v"
                   [AErr (Some e)]
     | None => ret tt
     end).

End MonitorOps.

(** ** Command surface: the callback dispatcher *)

Section Callback.

(** The four bandwidth-package handlers and the bot's callback
    acknowledgement are arbitrary stateful operations here: the dispatcher
    is specified for whatever they do. *)
Variable handleCBWPSelectInstance : string → string → Z → M error.
Variable handleCBWPBind : string → string → string → Z → M error.
Variable handleCBWPUnbind : string → string → string → Z → M error.
Variable handleCBWPBackToList : Z → M error.
Variable AnswerCallbackQuery : string → string → bool → M error.

(** [parts[i]], read only under a length check. *)
Definition part (parts : list string) (i : nat) : string := nth i parts "".

Definition handleCallbackQuery (callbackID data : string) (messageID : Z)
  : M error :=
  let parts := GoStrings.Split data ":" in
  if (length parts <? 2)%nat || negb (String.eqb (part parts 0) "cbwp") then
    ret None
  else
    let action := part parts 1 in
    if String.eqb action "select" then
      if (length parts <? 3)%nat then ret None
      else handleCBWPSelectInstance callbackID (part parts 2) messageID
    else if String.eqb action "bind" then
      if (length parts <? 4)%nat then ret None
      else handleCBWPBind callbackID (part parts 2) (part parts 3) messageID
    else if String.eqb action "unbind" then
      if (length parts <? 4)%nat then ret None
      else handleCBWPUnbind callbackID (part parts 2) (part parts 3) messageID
    else if String.eqb action "back" then
      AnswerCallbackQuery callbackID "" false ;;
      handleCBWPBackToList messageID
    else ret None.

(** A payload the dispatcher does not act on. *)
Definition malformed (data : string) : Prop :=
  let parts := GoStrings.Split data ":" in
  let action := part parts 1 in
  GoStrings.HasPrefix data "cbwp" = false ∨
  (length parts < 2)%nat ∨
  (action ≠ "select" ∧ action ≠ "bind" ∧ action ≠ "unbind" ∧ action ≠ "back") ∨
  (action = "select" ∧ (length parts < 3)%nat) ∨
  ((action = "bind" ∨ action = "unbind") ∧ (length parts < 4)%nat).

End Callback.

(** ** Vocabulary for the traffic latches *)

Inductive Group := China | NonChina.

Definition latch (g : Group) (m : Monitor) : bool :=
  match g with China => chinaShutdown m | NonChina => nonChinaShutdown m end.

Definition budget (g : Group) (c : Config) : float :=
  match g with
  | China => TrafficLimitChinaGB c
  | NonChina => TrafficLimitNonChinaGB c
  end.

Definition observedGB (g : Group) (t : TrafficSummary) : float :=
  match g with China => ChinaMainlandGB t | NonChina => NonChinaMainlandGB t end.

(** The region argument with which the group's bulk shutdown is spawned. *)
Definition groupName (g : Group) : string :=
  match g with China => "china" | NonChina => "non-china" end.

(** A [go m.shutdownRegionInstances(...)] for group [g]. *)
Definition isLaunch (g : Group) (e : Event) : bool :=
  match e with
  | EGo region _ _ => String.eqb region (groupName g)
  | _ => false
  end.

Definition launches (g : Group) (tr : Trace) : nat := countEv (isLaunch g) tr.

(** The traffic check can run: client present, feature switched on. *)
Definition enforcing (s : St) : Prop :=
  hasTrafficClient (mon s) = true ∧ TrafficShutdownEnabled (cfg (mon s)) = true.

(** What the traffic client answers to a [CheckTraffic] started in [s]
    (the query follows one debug line). *)
Definition trafficSeen (env : Env) (s : St) : result TrafficSummary :=
  trafficQueryInternetTraffic env
    (trace s ++ [ELog LDebug "Checking traffic limits..." []])%list.

(** The invocation started in [s] observes group [g] at or above budget. *)
Definition seesAbove (env : Env) (g : Group) (s : St) : Prop :=
  ∃ t, trafficSeen env s = Ok t ∧
       fge (observedGB g t) (budget g (cfg (mon s))) = true.

(** The invocation started in [s] observes group [g] strictly below budget. *)
Definition seesBelow (env : Env) (g : Group) (s : St) : Prop :=
  ∃ t, trafficSeen env s = Ok t ∧
       flt (observedGB g t) (budget g (cfg (mon s))) = true.

(** An invocation that does not observe the group at or above budget
    (below budget, or the query failed). *)
Definition notAbove (env : Env) (g : Group) (s : St) : Prop :=
  seesBelow env g s ∨ ∃ e, trafficSeen env s = Err e.

(** [n] consecutive invocations of [CheckTraffic]. *)
Fixpoint checks (env : Env) (n : nat) (s : St) : St :=
  match n with
  | O => s
  | S n' => checks env n' (snd (CheckTraffic env s))
  end.

(** Each of the next [n] invocations satisfies [P] in the state it starts. *)
Fixpoint throughout (env : Env) (P : St → Prop) (n : nat) (s : St) : Prop :=
  match n with
  | O => True
  | S n' => P s ∧ throughout env P n' (snd (CheckTraffic env s))
  end.

(** ** Vocabulary for reconciliation *)

Definition ids (l : list SpotInstance) : list string := map InstanceID l.

(** The instances of [l] whose id does not occur in [others]. *)
Definition notIn (others l : list SpotInstance) : list SpotInstance :=
  List.filter (fun inst => negb (bool_decide (InstanceID inst ∈ ids others))) l.

Definition addedLog (inst : SpotInstance) : Event :=
  ELog LInfo "New instance discovered: %s (%s) in %s"
    [AStr (InstanceName inst); AStr (InstanceID inst); AStr (RegionID inst)].

Definition removedLog (inst : SpotInstance) : Event :=
  ELog LInfo "Instance removed: %s (%s) in %s"
    [AStr (InstanceName inst); AStr (InstanceID inst); AStr (RegionID inst)].

(** The regions whose instance list was requested, in order. *)
Fixpoint queried (tr : Trace) : list string :=
  match tr with
  | [] => []
  | EGetSpotInstances regionID _ :: tr' => regionID :: queried tr'
  | _ :: tr' => queried tr'
  end.

(** The instances that the successful per-region requests returned, in
    order. *)
Fixpoint found (tr : Trace) : list SpotInstance :=
  match tr with
  | [] => []
  | EGetSpotInstances _ (Ok l) :: tr' => (l ++ found tr')%list
  | _ :: tr' => found tr'
  end.

(** ** Vocabulary for the bulk shutdown *)

(** Membership of an instance in a geographic group. *)
Definition inGroup (isChina : string → bool) (g : Group) (inst : SpotInstance)
  : bool :=
  match g with
  | China => isChina (RegionID inst)
  | NonChina => negb (isChina (RegionID inst))
  end.

(** The line of the shutdown notification for a stopped instance. *)
Definition stoppedLine (GetRegionDisplayName : string → string)
    (inst : SpotInstance) : string :=
  describe (InstanceName inst) (InstanceID inst)
    (GetRegionDisplayName (RegionID inst)).

(** The status queries of a history: whom they asked about and the answer. *)
Fixpoint statusAnswers (tr : Trace) : list ((string * string) * result string) :=
  match tr with
  | [] => []
  | EGetInstanceStatus r i a :: tr' => ((r, i), a) :: statusAnswers tr'
  | _ :: tr' => statusAnswers tr'
  end.

(** The stop commands of a history: target, mode and the answer. *)
Fixpoint stopCalls (tr : Trace) : list ((string * string * string) * error) :=
  match tr with
  | [] => []
  | EStopInstance r i mode a :: tr' => ((r, i, mode), a) :: stopCalls tr'
  | _ :: tr' => stopCalls tr'
  end.

(** The notifications of a history. *)
Fixpoint notifications (tr : Trace) : list Notification :=
  match tr with
  | [] => []
  | ENotify n _ :: tr' => n :: notifications tr'
  | _ :: tr' => notifications tr'
  end.

Definition isErrorLog (e : Event) : bool :=
  match e with ELog LError _ _ => true | _ => false end.

Definition saysRunning (a : result string) : bool :=
  match a with Ok status => String.eqb status "Running" | Err _ => false end.

(** The instances of [l] whose status answer, taken in order, is Running. *)
Fixpoint running (l : list SpotInstance) (answers : list (result string))
  : list SpotInstance :=
  match l, answers with
  | inst :: l', a :: answers' =>
      if saysRunning a then inst :: running l' answers'
      else running l' answers'
  | _, _ => []
  end.

(** The instances of [l] whose stop command, taken in order, returned nil. *)
Fixpoint succeeded (l : list SpotInstance) (answers : list error)
  : list SpotInstance :=
  match l, answers with
  | inst :: l', None :: answers' => inst :: succeeded l' answers'
  | _ :: l', Some _ :: answers' => succeeded l' answers'
  | _, _ => []
  end.

Definition failedQueries (answers : list (result string)) : nat :=
  length (List.filter (fun a => match a with Err _ => true | Ok _ => false end)
            answers).

Definition isFailedSend (e : Event) : bool :=
  match e with ENotify _ (Some _) => true | _ => false end.

Definition failedStops (answers : list error) : nat :=
  length (List.filter (fun a => match a with Some _ => true | None => false end)
            answers).

(** ** Vocabulary for framing *)

(** Predicates on events that ignore logging, sleeping, clock readings and
    status or description queries. *)
Definition quiet (p : Event → bool) : Prop :=
  (∀ l f a, p (ELog l f a) = false) ∧
  (∀ d, p (ESleep d) = false) ∧
  (∀ t, p (ENow t) = false) ∧
  (∀ r i x, p (EGetInstanceStatus r i x) = false) ∧
  (∀ r i x, p (EGetInstance r i x) = false).

(** Predicates that moreover do not see the reclaimed alert. *)
Definition blindToReclaimed (p : Event → bool) : Prop :=
  ∀ a b c r, p (ENotify (NotifyInstanceReclaimed a b c) r) = false.

(** Predicates that do not see what a discovery scan does. *)
Definition scanBlind (p : Event → bool) : Prop :=
  (∀ l f a, p (ELog l f a) = false) ∧
  (∀ t, p (ENow t) = false) ∧
  (∀ r, p (EGetAllRegions r) = false) ∧
  (∀ x r, p (EGetSpotInstances x r) = false).

(** ** Vocabulary for the retry phase *)

(** The state reached from [s] after [j] failed passes through the loop
    body, the first of them with loop index [i]. *)
Fixpoint afterAttempts (env : Env) (inst : SpotInstance) (i : Z) (j : nat)
    (s : St) : St :=
  match j with
  | O => s
  | S j' => afterAttempts env inst (i + 1) j' (snd (attempt env inst i s))
  end.

(** The outcome of attempt number [j] (counted from 0) of a retry phase
    that enters the loop in state [s], provided the earlier ones failed:
    nil when both the start command and the wait for Running succeeded. *)
Definition attemptResult (env : Env) (inst : SpotInstance) (j : nat) (s : St)
  : error :=
  fst (attempt env inst (Z.of_nat j) (afterAttempts env inst 0 j s)).

(** The state in which the retry phase of [checkInstance] begins: status
    queried and logged, reclaimed alert handled. *)
Definition retryEntry (env : Env) (inst : SpotInstance) (s : St) : St :=
  snd ((GetInstanceStatus env (RegionID inst) (InstanceID inst) ;;
        log LDebug "Instance %s (%s) status: %s"
          [AStr (InstanceName inst); AStr (InstanceID inst); AStr "Stopped"] ;;
        log LWarn "Instance %s (%s) is stopped, attempting to start"
          [AStr (InstanceName inst); AStr (InstanceID inst)] ;;
        alertReclaimed env inst) s).

(** Outcome of the [j]-th pass when the loop was entered with index [i]. *)
Definition resultFrom (env : Env) (inst : SpotInstance) (i : Z) (j : nat)
    (s : St) : error :=
  fst (attempt env inst (i + Z.of_nat j) (afterAttempts env inst i j s)).

(** The state in which [checkInstance] has just seen the instance stopped
    and is about to consult the cooldown. *)
Definition stoppedSeen (env : Env) (inst : SpotInstance) (s : St) : St :=
  snd ((GetInstanceStatus env (RegionID inst) (InstanceID inst) ;;
        log LDebug "Instance %s (%s) status: %s"
          [AStr (InstanceName inst); AStr (InstanceID inst); AStr "Stopped"] ;;
        log LWarn "Instance %s (%s) is stopped, attempting to start"
          [AStr (InstanceName inst); AStr (InstanceID inst)]) s).

(** The cooldown window as the code computes it. *)
Definition cooldownWindow (m : Monitor) : Z := seconds (NotifyCooldown (cfg m)).

(** The state in which the first attempt starts: the clock has been read. *)
Definition loopEntry (env : Env) (inst : SpotInstance) (s : St) : St :=
  snd (now env (retryEntry env inst s)).

(** The clock reading taken at the beginning of the retry phase. *)
Definition retryStartTime (env : Env) (inst : SpotInstance) (s : St) : Z :=
  fst (now env (retryEntry env inst s)).

(** ** The process that drives the monitor *)

(** A unit of periodic work. *)
Inductive Task :=
| FleetCheck
| TrafficCheck
| BulkShutdown (region : string) (trafficGB limitGB : float).

Section Driver.

Variable IsChinaMainlandRegion : string → bool.
Variable GetRegionDisplayName : string → string.
Variable env : Env.

Definition runTask (t : Task) : M unit :=
  match t with
  | FleetCheck => Check IsChinaMainlandRegion env ;; ret tt
  | TrafficCheck => CheckTraffic env ;; ret tt
  | BulkShutdown region trafficGB limitGB =>
      shutdownRegionInstances IsChinaMainlandRegion GetRegionDisplayName env
        region trafficGB limitGB
  end.

(** Modelled from the spec: the program entry point that starts the monitor
    and schedules its periodic work is not among the sources.  The spec
    exposes [discover()], [checkOnce()] and [checkTraffic()] to the driving
    process, has discovery feed the registry before the periodic cycle
    reads it, and runs the bulk shutdown as a detached task.  The driver is
    therefore one [DiscoverInstances] at startup followed by any sequence
    of fleet checks, traffic checks and bulk shutdowns, each run as a
    whole. *)
Definition runMonitor (tasks : list Task) : M unit :=
  DiscoverInstances env ;;
  forEach tasks runTask.

End Driver.

(** ** Vocabulary for what an operation adds to the history *)

(** Running [c] only appends to the history, and appends at most [n]
    events that satisfy [p]. *)
Definition emitsAtMost (p : Event → bool) (n : nat) {A} (c : M A) : Prop :=
  ∀ s, ∃ new, trace (snd (c s)) = (trace s ++ new)%list ∧
              (countEv p new ≤ n)%nat.

(** ** Example values *)

Definition defaultConfig : Config :=
  {| RetryCount := 3; RetryInterval := 30; NotifyCooldown := 300;
     TrafficShutdownEnabled := true;
     TrafficLimitChinaGB := 19%float; TrafficLimitNonChinaGB := 195%float |}.

(** The monitor right after [New] with Telegram enabled. *)
Definition newMonitor : Monitor :=
  {| cfg := defaultConfig; hasTrafficClient := true; hasNotifier := true;
     instances := []; lastNotify := ∅;
     chinaShutdown := false; nonChinaShutdown := false |}.

Definition idleState : St := {| mon := newMonitor; trace := [] |}.

(** The monitor right after [New] with Telegram disabled: no notifier. *)
Definition silentMonitor : Monitor :=
  {| cfg := defaultConfig; hasTrafficClient := true; hasNotifier := false;
     instances := []; lastNotify := ∅;
     chinaShutdown := false; nonChinaShutdown := false |}.

Definition silentState : St := {| mon := silentMonitor; trace := [] |}.

(** Region grouping used in the examples: the ids that start with cn-. *)
Definition cnPrefixed (regionID : string) : bool :=
  GoStrings.HasPrefix regionID "cn-".

(** An environment for the scenario of a reclaimed instance: the first
    status query reports Stopped and the later ones Running, the first
    [failures] start commands are rejected, the clock advances by one
    second per recorded event, notifications are accepted. *)
Definition reclaimEnv (failures : nat) : Env :=
  {| clock := fun tr => Z.of_nat (length tr) * Second;
     timerTicks := fun _ => 24%nat;
     goPick := fun _ => 0%nat;
     ecsGetInstanceStatus := fun tr _ _ =>
       if (countEv isGetStatus tr =? 0)%nat then Ok "Stopped" else Ok "Running";
     ecsStartInstance := fun tr _ _ =>
       if (countEv isStart tr <? failures)%nat then Some "SDK.ServerError"
       else None;
     ecsStopInstance := fun _ _ _ _ => None;
     ecsGetInstance := fun _ regionID instanceID =>
       Ok {| InstanceID := instanceID; InstanceName := "web";
             RegionID := regionID; Status := "Running";
             PublicIPAddress := "203.0.113.7"; PrivateIPAddress := "10.0.0.7";
             SpotStrategy := "SpotAsPriceGo" |};
     ecsGetAllRegions := fun _ => Ok ["cn-hangzhou"; "ap-southeast-1"];
     ecsGetSpotInstances := fun _ _ => Ok [];
     trafficQueryInternetTraffic := fun _ =>
       Ok {| ChinaMainlandGB := 20%float; NonChinaMainlandGB := 1%float |};
     notifierSend := fun _ _ => None |}.

(** An environment in which every instance is Running. *)
Definition runningEnv : Env :=
  {| clock := fun tr => Z.of_nat (length tr) * Second;
     timerTicks := fun _ => 24%nat;
     goPick := fun _ => 0%nat;
     ecsGetInstanceStatus := fun _ _ _ => Ok "Running";
     ecsStartInstance := fun _ _ _ => None;
     ecsStopInstance := fun _ _ _ _ => None;
     ecsGetInstance := fun _ _ _ => Err "not found";
     ecsGetAllRegions := fun _ => Ok ["cn-hangzhou"; "ap-southeast-1"];
     ecsGetSpotInstances := fun _ _ => Ok [];
     trafficQueryInternetTraffic := fun _ =>
       Ok {| ChinaMainlandGB := 20%float; NonChinaMainlandGB := 1%float |};
     notifierSend := fun _ _ => None |}.

Definition isTrafficQuery (e : Event) : bool :=
  match e with EQueryInternetTraffic _ => true | _ => false end.

(** China-mainland traffic of 20 GB, then 5 GB at the second query (a new
    month), then 20 GB again; the other bucket stays at 1 GB. *)
Definition monthRolloverEnv : Env :=
  {| clock := fun tr => Z.of_nat (length tr) * Second;
     timerTicks := fun _ => 24%nat;
     goPick := fun _ => 0%nat;
     ecsGetInstanceStatus := fun _ _ _ => Ok "Running";
     ecsStartInstance := fun _ _ _ => None;
     ecsStopInstance := fun _ _ _ _ => None;
     ecsGetInstance := fun _ _ _ => Err "not found";
     ecsGetAllRegions := fun _ => Ok ["cn-hangzhou"; "ap-southeast-1"];
     ecsGetSpotInstances := fun _ _ => Ok [];
     trafficQueryInternetTraffic := fun tr =>
       if (countEv isTrafficQuery tr =? 1)%nat
       then Ok {| ChinaMainlandGB := 5%float; NonChinaMainlandGB := 1%float |}
       else Ok {| ChinaMainlandGB := 20%float; NonChinaMainlandGB := 1%float |};
     notifierSend := fun _ _ => None |}.

(** An instance that is reclaimed again after every restart: the status
    queries alternate between Stopped (seen by [checkInstance]) and Running
    (seen by the wait); the clock advances 1000 seconds per event. *)
Definition flappingEnv : Env :=
  {| clock := fun tr => Z.of_nat (length tr) * (1000 * Second);
     timerTicks := fun _ => 24%nat;
     goPick := fun _ => 0%nat;
     ecsGetInstanceStatus := fun tr _ _ =>
       if Nat.even (countEv isGetStatus tr) then Ok "Stopped" else Ok "Running";
     ecsStartInstance := fun _ _ _ => None;
     ecsStopInstance := fun _ _ _ _ => None;
     ecsGetInstance := fun _ _ _ => Err "not found";
     ecsGetAllRegions := fun _ => Ok ["cn-hangzhou"; "ap-southeast-1"];
     ecsGetSpotInstances := fun _ _ => Ok [];
     trafficQueryInternetTraffic := fun _ =>
       Ok {| ChinaMainlandGB := 1%float; NonChinaMainlandGB := 1%float |};
     notifierSend := fun _ _ => Some "telegram: timeout" |}.

Definition instA : SpotInstance :=
  {| InstanceID := "i-A"; InstanceName := "a"; RegionID := "cn-hangzhou";
     Status := "Running"; PublicIPAddress := ""; PrivateIPAddress := "10.0.0.1";
     SpotStrategy := "SpotAsPriceGo" |}.

Definition instB : SpotInstance :=
  {| InstanceID := "i-B"; InstanceName := "b"; RegionID := "cn-hangzhou";
     Status := "Running"; PublicIPAddress := ""; PrivateIPAddress := "10.0.0.2";
     SpotStrategy := "SpotAsPriceGo" |}.

Definition instC : SpotInstance :=
  {| InstanceID := "i-C"; InstanceName := "c"; RegionID := "ap-southeast-1";
     Status := "Running"; PublicIPAddress := ""; PrivateIPAddress := "10.0.0.3";
     SpotStrategy := "SpotAsPriceGo" |}.

(** Discovery finds A in cn-hangzhou and C in ap-southeast-1; every
    instance is Running. *)
Definition fleetEnv : Env :=
  {| clock := fun tr => Z.of_nat (length tr) * Second;
     timerTicks := fun _ => 24%nat;
     goPick := fun _ => 0%nat;
     ecsGetInstanceStatus := fun _ _ _ => Ok "Running";
     ecsStartInstance := fun _ _ _ => None;
     ecsStopInstance := fun _ _ _ _ => None;
     ecsGetInstance := fun _ _ _ => Err "not found";
     ecsGetAllRegions := fun _ => Ok ["cn-hangzhou"; "ap-southeast-1"];
     ecsGetSpotInstances := fun _ regionID =>
       if String.eqb regionID "cn-hangzhou" then Ok [instA]
       else if String.eqb regionID "ap-southeast-1" then Ok [instC]
       else Ok [];
     trafficQueryInternetTraffic := fun _ =>
       Ok {| ChinaMainlandGB := 20%float; NonChinaMainlandGB := 1%float |};
     notifierSend := fun _ _ => None |}.

(** A page shift during the enumeration of cn-hangzhou makes the same
    instance appear twice in that region's result. *)
Definition pageShiftEnv : Env :=
  {| clock := fun tr => Z.of_nat (length tr) * Second;
     timerTicks := fun _ => 24%nat;
     goPick := fun _ => 0%nat;
     ecsGetInstanceStatus := fun _ _ _ => Ok "Running";
     ecsStartInstance := fun _ _ _ => None;
     ecsStopInstance := fun _ _ _ _ => None;
     ecsGetInstance := fun _ _ _ => Err "not found";
     ecsGetAllRegions := fun _ => Ok ["cn-hangzhou"];
     ecsGetSpotInstances := fun _ _ => Ok [instA; instB; instA];
     trafficQueryInternetTraffic := fun _ =>
       Ok {| ChinaMainlandGB := 1%float; NonChinaMainlandGB := 1%float |};
     notifierSend := fun _ _ => None |}.

(** The region list cannot be fetched. *)
Definition outageEnv : Env :=
  {| clock := fun tr => Z.of_nat (length tr) * Second;
     timerTicks := fun _ => 24%nat;
     goPick := fun _ => 0%nat;
     ecsGetInstanceStatus := fun _ _ _ => Ok "Running";
     ecsStartInstance := fun _ _ _ => None;
     ecsStopInstance := fun _ _ _ _ => None;
     ecsGetInstance := fun _ _ _ => Err "not found";
     ecsGetAllRegions := fun _ => Err "failed to describe regions: timeout";
     ecsGetSpotInstances := fun _ _ => Ok [];
     trafficQueryInternetTraffic := fun _ => Err "timeout";
     notifierSend := fun _ _ => None |}.

(** A monitor tracking the instance i-001 of the scenarios. *)
Definition trackingI001 (m : Monitor) : St :=
  {| mon := setInstances
              [{| InstanceID := "i-001"; InstanceName := "web";
                  RegionID := "cn-hangzhou"; Status := "Running";
                  PublicIPAddress := "203.0.113.7";
                  PrivateIPAddress := "10.0.0.7";
                  SpotStrategy := "SpotAsPriceGo" |}] m;
     trace := [] |}.

(** A monitor tracking A and B. *)
Definition trackingAB : St :=
  {| mon := setInstances [instA; instB] newMonitor; trace := [] |}.

Definition i001 : SpotInstance :=
  {| InstanceID := "i-001"; InstanceName := "web"; RegionID := "cn-hangzhou";
     Status := "Running"; PublicIPAddress := "203.0.113.7";
     PrivateIPAddress := "10.0.0.7"; SpotStrategy := "SpotAsPriceGo" |}.

(** ** Vocabulary for the further properties *)

(** A call to the compute API. *)
Definition isComputeCall (e : Event) : bool :=
  match e with
  | EGetInstanceStatus _ _ _ | EStartInstance _ _ _ | EStopInstance _ _ _ _
  | EGetInstance _ _ _ | EGetAllRegions _ | EGetSpotInstances _ _ => true
  | _ => false
  end.

(** Two monitors that differ at most in their cooldown entries. *)
Definition sameButCooldown (m m' : Monitor) : Prop :=
  cfg m' = cfg m ∧ hasTrafficClient m' = hasTrafficClient m ∧
  hasNotifier m' = hasNotifier m ∧ instances m' = instances m ∧
  chinaShutdown m' = chinaShutdown m ∧
  nonChinaShutdown m' = nonChinaShutdown m.

(** The state in which [Check] starts its loop: reconciliation done and
    its failure, if any, logged. *)
Definition cycleStart (env : Env) (s : St) : St :=
  snd ((e <- refreshInstances env ;;
        match e with
        | Some e => log LWarn "Failed to refresh instances, using cached list: %v"
                      [AErr (Some e)]
        | None => ret tt
        end) s).

(** The status API is down: every query fails. *)
Definition statusOutage (env : Env) : Prop :=
  ∀ tr regionID instanceID,
    ∃ e, ecsGetInstanceStatus env tr regionID instanceID = Err e.

(** An environment in which the status API is down and discovery fails. *)
Definition blackoutEnv : Env :=
  {| clock := fun tr => Z.of_nat (length tr) * Second;
     timerTicks := fun _ => 24%nat;
     goPick := fun _ => 0%nat;
     ecsGetInstanceStatus := fun _ _ _ => Err "failed to get instance status: timeout";
     ecsStartInstance := fun _ _ _ => None;
     ecsStopInstance := fun _ _ _ _ => None;
     ecsGetInstance := fun _ _ _ => Err "not found";
     ecsGetAllRegions := fun _ => Err "failed to describe regions: timeout";
     ecsGetSpotInstances := fun _ _ => Err "timeout";
     trafficQueryInternetTraffic := fun _ => Err "timeout";
     notifierSend := fun _ _ => None |}.

Definition isStartOrStop (e : Event) : bool := isStart e || isStop e.

(** The China latch is set. *)
Definition chinaLatched : St :=
  {| mon := setChinaShutdown true newMonitor; trace := [] |}.

(** What the region list request of a discovery started in [s] answers
    (the request follows one log line). *)
Definition regionsSeen (env : Env) (s : St) : result (list string) :=
  ecsGetAllRegions env (trace s ++ [ELog LInfo "Fetching all regions..." []])%list.

(** Every per-region instance request fails. *)
Definition regionOutage (env : Env) : Prop :=
  ∀ tr regionID, ∃ e, ecsGetSpotInstances env tr regionID = Err e.

(** The line [DiscoverInstances] logs for a discovered instance. *)
Definition discoveredLog (inst : SpotInstance) : Event :=
  ELog LInfo "  - %s (%s) in %s [%s]"
    [AStr (InstanceName inst); AStr (InstanceID inst);
     AStr (RegionID inst); AStr (Status inst)].

(** The monitor-started notification for a discovered fleet. *)
Definition monitorStarted (discovered : list SpotInstance) : Notification :=
  NotifyMonitorStarted (Z.of_nat (length discovered))
    (map (fun inst => describe (InstanceName inst) (InstanceID inst)
                        (RegionID inst)) discovered).

(** The events of the notification step of [DiscoverInstances] started
    with history [tr]. *)
Definition startupAlert (env : Env) (tr : Trace) (m : Monitor)
    (discovered : list SpotInstance) : list Event :=
  if hasNotifier m && negb (Nat.eqb (length discovered) 0) then
    match notifierSend env tr (monitorStarted discovered) with
    | Some e =>
        [ENotify (monitorStarted discovered) (Some e);
         ELog LWarn "Failed to send monitor started notification: %v"
           [AErr (Some e)]]
    | None => [ENotify (monitorStarted discovered) None]
    end
  else [].

(** The regions answer, but every instance request fails. *)
Definition regionsDownEnv : Env :=
  {| clock := fun tr => Z.of_nat (length tr) * Second;
     timerTicks := fun _ => 24%nat;
     goPick := fun tr => length tr;
     ecsGetInstanceStatus := fun _ _ _ => Ok "Running";
     ecsStartInstance := fun _ _ _ => None;
     ecsStopInstance := fun _ _ _ _ => None;
     ecsGetInstance := fun _ _ _ => Err "not found";
     ecsGetAllRegions := fun _ => Ok ["cn-hangzhou"; "ap-southeast-1"; "us-west-1"];
     ecsGetSpotInstances := fun _ _ => Err "throttled";
     trafficQueryInternetTraffic := fun _ => Err "timeout";
     notifierSend := fun _ _ => None |}.

(** B, and A renamed and restarted. *)
Definition renamedFleet : list SpotInstance :=
  [instB;
   {| InstanceID := "i-A"; InstanceName := "a-renamed";
      RegionID := "cn-hangzhou"; Status := "Starting";
      PublicIPAddress := "198.51.100.9"; PrivateIPAddress := "10.0.0.1";
      SpotStrategy := "SpotAsPriceGo" |}].

(** Discovery finds A and B, with A renamed and restarted meanwhile. *)
Definition renamedEnv : Env :=
  {| clock := fun tr => Z.of_nat (length tr) * Second;
     timerTicks := fun _ => 24%nat;
     goPick := fun _ => 0%nat;
     ecsGetInstanceStatus := fun _ _ _ => Ok "Running";
     ecsStartInstance := fun _ _ _ => None;
     ecsStopInstance := fun _ _ _ _ => None;
     ecsGetInstance := fun _ _ _ => Err "not found";
     ecsGetAllRegions := fun _ => Ok ["cn-hangzhou"];
     ecsGetSpotInstances := fun _ _ => Ok renamedFleet;
     trafficQueryInternetTraffic := fun _ => Err "timeout";
     notifierSend := fun _ _ => Some "telegram API returned status 502" |}.

(** ** Callback payloads and command texts *)

(** [s] does not contain the byte [sep]. *)
Fixpoint free (sep : ascii) (s : string) : bool :=
  match s with
  | EmptyString => true
  | String c s' => negb (Ascii.eqb c sep) && free sep s'
  end.

(** [strings.Split(s, sep)[0]]. *)
Definition firstPiece (s : string) (sep : ascii) : string :=
  nth 0 (GoStrings.Split s sep) "".

(** The payloads that the bandwidth-package keyboards carry:
    [fmt.Sprintf("cbwp:select:%s", id)] and its siblings. *)
Definition selectData (instanceID : string) : string :=
  "cbwp:select:" +:+ instanceID.

Definition bindData (instanceID bwpID : string) : string :=
  "cbwp:bind:" +:+ instanceID +:+ ":" +:+ bwpID.

Definition unbindData (instanceID bwpID : string) : string :=
  "cbwp:unbind:" +:+ instanceID +:+ ":" +:+ bwpID.

Definition backData : string := "cbwp:back".

Module Bot.

(** [s] without its first [n] bytes. *)
Fixpoint skip (n : nat) (s : string) : string :=
  match n, s with
  | O, _ => s
  | S n', String _ s' => skip n' s'
  | S _, EmptyString => EmptyString
  end.

(** [strings.TrimPrefix]. *)
Definition TrimPrefix (s p : string) : string :=
  if GoStrings.HasPrefix s p then skip (String.length p) s else s.

(** The command of a message text, as [PollUpdates] extracts it: texts
    that do not start with a slash carry none. *)
Definition parseCommand (text : string) : option string :=
  if GoStrings.HasPrefix text "/" then
    let command := TrimPrefix text "/" in
    let command := firstPiece command " " in
    let command := firstPiece command "@" in
    Some command
  else None.

(** The part of a Telegram update that [PollUpdates] reads.  [Chat] is the
    id of the chat, [None] for a nil [Chat] pointer. *)
Record TelegramMessage := {
  MessageID : Z;
  Chat : option Z;
  Text : string
}.

Record TelegramCallback := {
  ID : string;
  Message : option TelegramMessage;
  Data : string
}.

Record TelegramUpdate := {
  UpdateID : Z;
  UpdateMessage : option TelegramMessage;
  CallbackQuery : option TelegramCallback
}.

(** What the long poll brings back: the request may fail, the body may not
    decode, and a decoded [TelegramUpdatesResponse] has its [OK] flag and
    its [Result]. *)
Inductive Fetched :=
| GetFailed (e : string)
| DecodeFailed (e : string)
| Decoded (OK : bool) (Result : list TelegramUpdate).

(** How a call ends: it returns, or it dereferences a nil pointer. *)
Inductive Outcome (A : Type) :=
| Returned (a : A)
| Panicked.
Arguments Returned {A} a.
Arguments Panicked {A}.

Section Polling.

(** [chatIDInt] is [strconv.ParseInt(b.chatID, 10, 64)] with its error
    dropped; the handlers are nil until they are set; [getUpdates] is the
    long poll at a given offset. *)
Variable chatIDInt : Z.
Variable commandHandler : option (string → M error).
Variable callbackHandler : option (string → string → Z → M error).
Variable getUpdates : Z → Trace → Fetched.

(** The body of the loop of [PollUpdates] after [lastUpdateID] is set. *)
Definition processUpdate (update : TelegramUpdate) : M (Outcome unit) :=
  match CallbackQuery update with
  | Some cb =>
      match Message cb with
      | Some msg =>
          match Chat msg with
          | None => ret Panicked
          | Some chat =>
              if (chat =? chatIDInt)%Z then
                log LInfo "Received callback query: %s (update_id=%d)"
                  [AStr (Data cb); AInt (UpdateID update)] ;;
                match callbackHandler with
                | Some handler =>
                    err <- handler (ID cb) (Data cb) (MessageID msg) ;;
                    match err with
                    | Some _ =>
                        log LError "Failed to handle callback query: %v"
                          [AErr err] ;;
                        ret (Returned tt)
                    | None => ret (Returned tt)
                    end
                | None => ret (Returned tt)
                end
              else ret (Returned tt)
          end
      | None => ret (Returned tt)
      end
  | None =>
      match UpdateMessage update with
      | None => ret (Returned tt)
      | Some msg =>
          match Chat msg with
          | None => ret Panicked
          | Some chat =>
              if negb (chat =? chatIDInt)%Z then
                log LDebug "Ignoring message from unauthorized chat: %d"
                  [AInt chat] ;;
                ret (Returned tt)
              else
                match parseCommand (Text msg) with
                | Some command =>
                    log LInfo
                      "Received command: /%s from chat %d (update_id=%d, msg_id=%d)"
                      [AStr command; AInt chat; AInt (UpdateID update);
                       AInt (MessageID msg)] ;;
                    match commandHandler with
                    | Some handler =>
                        err <- handler command ;;
                        match err with
                        | Some _ =>
                            log LError "Failed to handle command /%s: %v"
                              [AStr command; AErr err] ;;
                            ret (Returned tt)
                        | None => ret (Returned tt)
                        end
                    | None => ret (Returned tt)
                    end
                | None => ret (Returned tt)
                end
          end
      end
  end.

(** [for _, update := range updatesResp.Result], with the value of
    [b.lastUpdateID] passed along. *)
Fixpoint rangeUpdates (lastUpdateID : Z) (updates : list TelegramUpdate)
  : M (Outcome unit * Z) :=
  match updates with
  | [] => ret (Returned tt, lastUpdateID)
  | update :: rest =>
      log LDebug "Processing update_id=%d, lastUpdateID was %d"
        [AInt (UpdateID update); AInt lastUpdateID] ;;
      r <- processUpdate update ;;
      match r with
      | Returned _ => rangeUpdates (UpdateID update) rest
      | Panicked => ret (Panicked, UpdateID update)
      end
  end.

(** [BotHandler.PollUpdates]: the result and the new [b.lastUpdateID]. *)
Definition PollUpdates (lastUpdateID : Z) : M (Outcome error * Z) :=
  let offset := wrap64 (lastUpdateID + 1) in
  log LDebug "Polling updates with offset=%d" [AInt offset] ;;
  resp <- ask (getUpdates offset) ;;
  match resp with
  | GetFailed e =>
      ret (Returned (Some (wrapErr "failed to get updates" e)), lastUpdateID)
  | DecodeFailed e =>
      ret (Returned (Some (wrapErr "failed to decode updates" e)),
           lastUpdateID)
  | Decoded false _ =>
      ret (Returned (Some "telegram API returned not OK"), lastUpdateID)
  | Decoded true updates =>
      log LDebug "Got %d updates from Telegram"
        [AInt (Z.of_nat (length updates))] ;;
      r <- rangeUpdates lastUpdateID updates ;;
      match fst r with
      | Returned _ => ret (Returned None, snd r)
      | Panicked => ret (Panicked, snd r)
      end
  end.

End Polling.

(** The chat an update is checked against: the chat of the callback's
    message for a callback query, the chat of the message otherwise. *)
Definition sender (update : TelegramUpdate) : option Z :=
  match CallbackQuery update with
  | Some cb => msg ← Message cb; Chat msg
  | None => msg ← UpdateMessage update; Chat msg
  end.

(** The update carries a message whose [Chat] pointer is nil where the
    loop reads it. *)
Definition chatless (update : TelegramUpdate) : bool :=
  match CallbackQuery update with
  | Some cb =>
      match Message cb with
      | Some msg => match Chat msg with None => true | Some _ => false end
      | None => false
      end
  | None =>
      match UpdateMessage update with
      | Some msg => match Chat msg with None => true | Some _ => false end
      | None => false
      end
  end.

End Bot.

Definition isLog (e : Event) : bool :=
  match e with ELog _ _ _ => true | _ => false end.

(** [s'] differs from [s] by log lines only. *)
Definition onlyLogged (s s' : St) : Prop :=
  mon s' = mon s ∧
  ∃ new, trace s' = (trace s ++ new)%list ∧ forallb isLog new = true.

(** ** Bot commands, [handleBotCommand] *)

Section Commands.

Variable SendBillingReport : M error.
Variable SendTrafficReport : M error.
Variable sendStatusReport : M error.
Variable sendCBWPInstanceList : M error.
Variable SendGCPCreditsReport : M error.
Variable sendHelpMessage : M error.

Definition handleBotCommand (command : string) : M error :=
  if String.eqb command "billing" || String.eqb command "cost"
     || String.eqb command "fee" then SendBillingReport
  else if String.eqb command "traffic" || String.eqb command "flow"
          || String.eqb command "bandwidth" then SendTrafficReport
  else if String.eqb command "status" then sendStatusReport
  else if String.eqb command "cbwp" then sendCBWPInstanceList
  else if String.eqb command "gcpcredits" || String.eqb command "credits"
          || String.eqb command "gcp" then SendGCPCreditsReport
  else if String.eqb command "help" then sendHelpMessage
  else
    log LDebug "Unknown command: %s" [AStr command] ;;
    ret None.

End Commands.

(** ** Vocabulary for the polling loop *)

(** The state after the line that [PollUpdates] logs before the request,
    and what the long poll answers then. *)
Definition polling (lastUpdateID : Z) (s : St) : St :=
  {| mon := mon s;
     trace := (trace s ++ [ELog LDebug "Polling updates with offset=%d"
                             [AInt (wrap64 (lastUpdateID + 1))]])%list |}.

Definition polled (getUpdates : Z → Trace → Bot.Fetched) (lastUpdateID : Z)
  (s : St) : Bot.Fetched :=
  getUpdates (wrap64 (lastUpdateID + 1)) (trace (polling lastUpdateID s)).

(** The update asks the bot to do something: it comes from the configured
    chat and is a callback query or a message that starts with a slash. *)
Definition actionable (chatIDInt : Z) (update : Bot.TelegramUpdate) : bool :=
  match Bot.sender update with
  | Some chat =>
      (chat =? chatIDInt)%Z &&
      match Bot.CallbackQuery update, Bot.UpdateMessage update with
      | Some _, _ => true
      | None, Some msg => GoStrings.HasPrefix (Bot.Text msg) "/"
      | None, None => false
      end
  | None => false
  end.

(** A callback query from chat [chat] on message [messageID]. *)
Definition callbackUpdate (updateID chat messageID : Z) (callbackID data : string)
  : Bot.TelegramUpdate :=
  {| Bot.UpdateID := updateID; Bot.UpdateMessage := None;
     Bot.CallbackQuery :=
       Some {| Bot.ID := callbackID;
               Bot.Message := Some {| Bot.MessageID := messageID;
                                      Bot.Chat := Some chat;
                                      Bot.Text := "" |};
               Bot.Data := data |} |}.

(** A text message from chat [chat]. *)
Definition textUpdate (updateID chat messageID : Z) (text : string)
  : Bot.TelegramUpdate :=
  {| Bot.UpdateID := updateID;
     Bot.UpdateMessage := Some {| Bot.MessageID := messageID;
                                  Bot.Chat := Some chat; Bot.Text := text |};
     Bot.CallbackQuery := None |}.

(** A long poll that always answers with the same updates. *)
Definition inbox (updates : list Bot.TelegramUpdate) : Z → Trace → Bot.Fetched :=
  fun _ _ => Bot.Decoded true updates.

(** A status command and a bind button from chat 42. *)
Definition twoUpdates : list Bot.TelegramUpdate :=
  [textUpdate 7 42 100 "/status@spot_bot";
   callbackUpdate 8 42 101 "cb-1" (bindData "i-001" "cbwp-7")].

(** A status command from another chat. *)
Definition strangerUpdates : list Bot.TelegramUpdate :=
  [textUpdate 9 666 5 "/status"].

(** Handlers that always fail. *)
Definition failingCommand : option (string → M error) :=
  Some (fun _ => ret (Some "boom")).

Definition failingCallback : option (string → string → Z → M error) :=
  Some (fun _ _ _ => ret (Some "boom")).

(** The case labels of [handleBotCommand]. *)
Definition knownCommands : list string :=
  ["billing"; "cost"; "fee"; "traffic"; "flow"; "bandwidth"; "status";
   "cbwp"; "gcpcredits"; "credits"; "gcp"; "help"].

(** The three ways a command [c] is written in a chat: alone, followed by
    arguments, and addressed to a bot by name. *)
Definition spellings (c rest : string) : list string :=
  ["/" +:+ c; "/" +:+ c +:+ String " " rest; "/" +:+ c +:+ String "@" rest].

(** Reports that leave a mark: each fails with its own name. *)
Definition namedReport (name : string) : M error := ret (Some name).

(** Bandwidth-package handlers that leave a mark: each fails with its name
    and the ids it was given. *)
Definition echoSelect : string → string → Z → M error :=
  fun _ instanceID _ => ret (Some ("select " +:+ instanceID)).

Definition echoBind : string → string → string → Z → M error :=
  fun _ instanceID bwpID _ =>
    ret (Some ("bind " +:+ instanceID +:+ " " +:+ bwpID)).

Definition echoUnbind : string → string → string → Z → M error :=
  fun _ instanceID bwpID _ =>
    ret (Some ("unbind " +:+ instanceID +:+ " " +:+ bwpID)).

Definition echoBack : Z → M error := fun _ => ret (Some "back").

Definition echoAnswer : string → string → bool → M error :=
  fun _ _ _ => ret None.

(** The dispatcher over these handlers. *)
Definition echoDispatch : string → string → Z → M error :=
  handleCallbackQuery echoSelect echoBind echoUnbind echoBack echoAnswer.

(** The command dispatcher over reports that fail with their name. *)
Definition echoCommand : string → M error :=
  handleBotCommand (namedReport "billing") (namedReport "traffic")
    (namedReport "status") (namedReport "cbwp") (namedReport "gcpcredits")
    (namedReport "help").

(** One pressed bind button, and one typed command, from chat 42. *)
Definition bindPressed : list Bot.TelegramUpdate :=
  [callbackUpdate 8 42 101 "cb-1" (bindData "i-001" "cbwp-7")].

Definition feeTyped : list Bot.TelegramUpdate :=
  [textUpdate 7 42 100 "/fee@spot_bot"].

(** ** Listing the spot instances of a region, [GetSpotInstances] *)

Module SDK.

(** The fields of an instance in the answer of [DescribeInstances] that
    the client reads. *)
Record Instance := {
  InstanceId : string;
  InstanceName : string;
  Status : string;
  SpotStrategy : string;
  PublicIpAddress : list string;
  EipAddress : string;
  InnerIpAddress : list string;
  VpcPrivateIpAddress : list string
}.

End SDK.

Module Listing.

Definition pageSize : Z := 100.

(** [inst.SpotStrategy != "NoSpot" && inst.SpotStrategy != ""]. *)
Definition isSpot (inst : SDK.Instance) : bool :=
  negb (String.eqb (SDK.SpotStrategy inst) "NoSpot") &&
  negb (String.eqb (SDK.SpotStrategy inst) "").

Definition publicIP (inst : SDK.Instance) : string :=
  let publicIP :=
    match SDK.PublicIpAddress inst with
    | ip :: _ => ip
    | [] => ""
    end in
  if String.eqb publicIP "" && negb (String.eqb (SDK.EipAddress inst) "")
  then SDK.EipAddress inst
  else publicIP.

Definition privateIP (inst : SDK.Instance) : string :=
  let privateIP :=
    match SDK.InnerIpAddress inst with
    | ip :: _ => ip
    | [] => ""
    end in
  if String.eqb privateIP "" then
    match SDK.VpcPrivateIpAddress inst with
    | ip :: _ => ip
    | [] => privateIP
    end
  else privateIP.

(** The record that the loop appends for one instance of the answer. *)
Definition toSpotInstance (regionID : string) (inst : SDK.Instance)
  : SpotInstance :=
  {| InstanceID := SDK.InstanceId inst;
     InstanceName := SDK.InstanceName inst;
     RegionID := regionID;
     Status := SDK.Status inst;
     PublicIPAddress := publicIP inst;
     PrivateIPAddress := privateIP inst;
     SpotStrategy := SDK.SpotStrategy inst |}.

(** The inner loop over one page. *)
Definition spots (regionID : string) (page : list SDK.Instance)
  : list SpotInstance :=
  map (toSpotInstance regionID) (filter (λ inst, isSpot inst = true) page).

Section Pages.

(** [DescribeInstances] answers a page number with a page or an error.
    Within one listing every page number is asked at most once. *)
Variable DescribeInstances : Z → result (list SDK.Instance).
Variable regionID : string.

(** The [for] loop of [GetSpotInstances] from page [pageNumber] on, with
    [instances] collected so far.  The loop has no bound of its own:
    [fuel] bounds the number of requests, and [None] says that the loop
    is still running when it is used up. *)
Fixpoint describePages (fuel : nat) (pageNumber : Z)
  (instances : list SpotInstance) : option (result (list SpotInstance)) :=
  match fuel with
  | O => None
  | S fuel' =>
      match DescribeInstances pageNumber with
      | Err e =>
          Some (Err (wrapErr ("failed to describe instances in region "
                              +:+ regionID) e))
      | Ok page =>
          let instances := (instances ++ spots regionID page)%list in
          if (Z.of_nat (length page) <? pageSize)%Z then Some (Ok instances)
          else describePages fuel' (wrap64 (pageNumber + 1)) instances
      end
  end.

(** [ECSClient.GetSpotInstances]; [client] is the outcome of
    [getClient]. *)
Definition GetSpotInstances (fuel : nat) (client : error)
  : option (result (list SpotInstance)) :=
  match client with
  | Some e => Some (Err e)
  | None => describePages fuel 1 []
  end.

End Pages.

(** The answers to the page numbers 1, 2, ... are the pages of [pages], in
    order. *)
Definition serves (DescribeInstances : Z → result (list SDK.Instance))
  (pages : list (list SDK.Instance)) : Prop :=
  ∀ (i : nat) page, pages !! i = Some page →
                    DescribeInstances (Z.of_nat (S i)) = Ok page.

(** Every page is a full one: the loop goes on after it. *)
Definition allFull (pages : list (list SDK.Instance)) : Prop :=
  Forall (λ page, (pageSize ≤ Z.of_nat (length page))%Z) pages.

End Listing.

(** A spot instance with an elastic IP only, and a pay-as-you-go instance
    that is not a spot instance, as [DescribeInstances] reports them. *)
Definition spotRaw : SDK.Instance :=
  {| SDK.InstanceId := "i-spot"; SDK.InstanceName := "worker";
     SDK.Status := "Running"; SDK.SpotStrategy := "SpotAsPriceGo";
     SDK.PublicIpAddress := []; SDK.EipAddress := "198.51.100.4";
     SDK.InnerIpAddress := []; SDK.VpcPrivateIpAddress := ["10.0.0.4"] |}.

Definition plainRaw : SDK.Instance :=
  {| SDK.InstanceId := "i-plain"; SDK.InstanceName := "db";
     SDK.Status := "Running"; SDK.SpotStrategy := "NoSpot";
     SDK.PublicIpAddress := ["203.0.113.9"]; SDK.EipAddress := "";
     SDK.InnerIpAddress := []; SDK.VpcPrivateIpAddress := ["10.0.0.9"] |}.

Definition fullPage : list SDK.Instance := repeat spotRaw 100.

Definition shortPage : list SDK.Instance := [plainRaw; spotRaw].

(** A region with 102 pay-as-you-go instances: a full page, then a short
    one. *)
Definition twoPages (pageNumber : Z) : result (list SDK.Instance) :=
  if (pageNumber =? 1)%Z then Ok fullPage
  else if (pageNumber =? 2)%Z then Ok shortPage
  else Err "InvalidParameter".

(** ** The bandwidth-package conversation and the status report *)

Module CBWP.

(** [aliyun.EIPInfo]. *)
Record EIPInfo := {
  AllocationID : string;
  IPAddress : string;
  BandwidthPackageID : string;
  InstanceID : string;
  RegionID : string;
  Status : string
}.

End CBWP.

Module Package.

(** [aliyun.BandwidthPackage]. *)
Record BandwidthPackage := {
  BandwidthPackageID : string;
  Name : string;
  Bandwidth : string;
  RegionID : string;
  Status : string
}.

End Package.

Module Telegram.

(** [notify.InlineKeyboardButton]. *)
Record InlineKeyboardButton := {
  Text : string;
  CallbackData : string
}.

End Telegram.

(** A [[][]InlineKeyboardButton]; [None] is the nil slice. *)
Definition Markup := option (list (list Telegram.InlineKeyboardButton)).

(** The slice that [append] builds from nil: nil when nothing was
    appended. *)
Definition asSlice {A} (l : list A) : option (list A) :=
  match l with [] => None | _ => Some l end.

(** What the handlers of the conversation do outside the monitor, with the
    answer they got. *)
Inductive DeskEvent :=
| DLog (lvl : LogLevel) (format : string) (args : list Arg)
| DNow (formatted : string)
| DAnswerCallbackQuery (callbackID text : string) (showAlert : bool)
    (r : error)
| DEditMessageText (messageID : Z) (text : string) (keyboard : Markup)
    (r : error)
| DSendMessageWithKeyboard (text : string) (keyboard : Markup) (r : error)
| DSend (text : string) (r : error)
| DGetInstanceStatus (regionID instanceID : string) (r : result string)
| DDescribeEipAddresses (regionID instanceID : string)
    (r : result (list CBWP.EIPInfo))
| DDescribeCommonBandwidthPackages (regionID : string)
    (r : result (list Package.BandwidthPackage))
| DAddCommonBandwidthPackageIp (regionID bandwidthPackageID eipID : string)
    (r : error)
| DRemoveCommonBandwidthPackageIp (regionID bandwidthPackageID eipID : string)
    (r : error).

Definition DeskTrace := list DeskEvent.

(** The collaborators of the conversation: the bot handler, the notifier,
    the bandwidth-package client, the compute client and the clock.
    [nowFormatted] is [time.Now().Format("2006-01-02 15:04:05")]. *)
Record DeskEnv := {
  nowFormatted : DeskTrace → string;
  botAnswerCallbackQuery : DeskTrace → string → string → bool → error;
  botEditMessageText : DeskTrace → Z → string → Markup → error;
  botSendMessageWithKeyboard : DeskTrace → string → Markup → error;
  deskSend : DeskTrace → string → error;
  deskGetInstanceStatus : DeskTrace → string → string → result string;
  cbwpDescribeEipAddresses :
    DeskTrace → string → string → result (list CBWP.EIPInfo);
  cbwpDescribeCommonBandwidthPackages :
    DeskTrace → string → result (list Package.BandwidthPackage);
  cbwpAddCommonBandwidthPackageIp :
    DeskTrace → string → string → string → error;
  cbwpRemoveCommonBandwidthPackageIp :
    DeskTrace → string → string → string → error
}.

(** A state monad over the history of the conversation. *)
Definition D (A : Type) : Type := DeskTrace → A * DeskTrace.

Definition dret {A} (a : A) : D A := fun tr => (a, tr).

Definition dbind {A B} (c : D A) (k : A → D B) : D B :=
  fun tr => let '(a, tr') := c tr in k a tr'.

Notation "x <~ c1 ;; c2" := (dbind c1 (fun x => c2))
  (at level 100, c1 at next level, right associativity).
Notation "c1 ;;~ c2" := (dbind c1 (fun _ => c2))
  (at level 100, right associativity).

Definition dcall {A} (ask : DeskTrace → A) (ev : A → DeskEvent) : D A :=
  fun tr => let a := ask tr in (a, (tr ++ [ev a])%list).

Definition dlog (lvl : LogLevel) (format : string) (args : list Arg) : D unit :=
  fun tr => (tt, (tr ++ [DLog lvl format args])%list).

(** The newline of the Go string literals. *)
Definition nl : string := String "010"%char EmptyString.

(** What a [strings.Builder] holds after the pieces were written to it. *)
Definition glue (pieces : list string) : string :=
  fold_right String.append "" pieces.

Definition backButton (text : string) : list Telegram.InlineKeyboardButton :=
  [{| Telegram.Text := text; Telegram.CallbackData := "cbwp:back" |}].

Section Desk.

Variable env : DeskEnv.

(** [m.instances] as the handler finds it when it takes the lock. *)
Variable instances : list SpotInstance.

Definition AnswerCallbackQuery (callbackID text : string) (showAlert : bool)
  : D error :=
  dcall (fun tr => botAnswerCallbackQuery env tr callbackID text showAlert)
        (DAnswerCallbackQuery callbackID text showAlert).

Definition EditMessageText (messageID : Z) (text : string) (keyboard : Markup)
  : D error :=
  dcall (fun tr => botEditMessageText env tr messageID text keyboard)
        (DEditMessageText messageID text keyboard).

Definition SendMessageWithKeyboard (text : string) (keyboard : Markup)
  : D error :=
  dcall (fun tr => botSendMessageWithKeyboard env tr text keyboard)
        (DSendMessageWithKeyboard text keyboard).

Definition Send (text : string) : D error :=
  dcall (fun tr => deskSend env tr text) (DSend text).

Definition DescribeEipAddresses (regionID instanceID : string)
  : D (result (list CBWP.EIPInfo)) :=
  dcall (fun tr => cbwpDescribeEipAddresses env tr regionID instanceID)
        (DDescribeEipAddresses regionID instanceID).

Definition DescribeCommonBandwidthPackages (regionID : string)
  : D (result (list Package.BandwidthPackage)) :=
  dcall (fun tr => cbwpDescribeCommonBandwidthPackages env tr regionID)
        (DDescribeCommonBandwidthPackages regionID).

Definition AddCommonBandwidthPackageIp (regionID bandwidthPackageID eipID : string)
  : D error :=
  dcall (fun tr => cbwpAddCommonBandwidthPackageIp env tr regionID
                     bandwidthPackageID eipID)
        (DAddCommonBandwidthPackageIp regionID bandwidthPackageID eipID).

Definition RemoveCommonBandwidthPackageIp
  (regionID bandwidthPackageID eipID : string) : D error :=
  dcall (fun tr => cbwpRemoveCommonBandwidthPackageIp env tr regionID
                     bandwidthPackageID eipID)
        (DRemoveCommonBandwidthPackageIp regionID bandwidthPackageID eipID).

Definition deskNow : D string := dcall (nowFormatted env) DNow.

(** The loop that looks an instance up by id: the first match. *)
Definition findInstance (instanceID : string) : option SpotInstance :=
  List.find (fun i => String.eqb (InstanceID i) instanceID) instances.

(** One row per instance, each with a select button. *)
Definition instanceRows : list (list Telegram.InlineKeyboardButton) :=
  map (fun inst =>
         [{| Telegram.Text :=
               InstanceName inst +:+ " (" +:+ RegionID inst +:+ ")";
             Telegram.CallbackData := selectData (InstanceID inst) |}])
      instances.

Definition listTitle : string :=
  "🌐 <b>共享带宽管理</b>" +:+ nl +:+ "━━━━━━━━━━━━━━━━" +:+ nl +:+ nl
  +:+ "请选择要操作的实例：".

Definition noInstancesText : string :=
  "🌐 <b>共享带宽管理</b>" +:+ nl +:+ nl +:+ "暂无监控的实例".

(** [sendCBWPInstanceList]; the two flags say whether [m.botHandler] and
    [m.cbwpClient] are set.  [New] sets the notifier together with the bot
    handler, so past the first check the notifier is there. *)
Definition sendCBWPInstanceList (hasBotHandler hasCbwpClient : bool)
  : D error :=
  if negb hasBotHandler then dret (Some "bot handler not initialized")
  else if negb hasCbwpClient then dret (Some "CBWP client not initialized")
  else
    match instances with
    | [] => Send noInstancesText
    | _ => SendMessageWithKeyboard listTitle (asSlice instanceRows)
    end.

(** [handleCBWPBackToList]. *)
Definition handleCBWPBackToList (messageID : Z) : D error :=
  match instances with
  | [] => EditMessageText messageID noInstancesText None
  | _ => EditMessageText messageID listTitle (asSlice instanceRows)
  end.

(** The name shown for the package of a bound address, and the line about
    it: the first package of the region with that id, if there is one. *)
Definition packageLine (bwps : list Package.BandwidthPackage)
  (eip : CBWP.EIPInfo) : string :=
  match List.find (fun bwp => String.eqb (Package.BandwidthPackageID bwp)
                                (CBWP.BandwidthPackageID eip)) bwps with
  | Some bwp =>
      let bwpName :=
        if negb (String.eqb (Package.Name bwp) "") then Package.Name bwp
        else CBWP.BandwidthPackageID eip in
      "   📦 当前带宽包: " +:+ bwpName +:+ " (" +:+ Package.Bandwidth bwp
      +:+ "Mbps)" +:+ nl
  | None => ""
  end.

(** What one address adds to the text of the selection screen. *)
Definition eipText (bwps : list Package.BandwidthPackage) (eip : CBWP.EIPInfo)
  : string :=
  "📍 EIP: <code>" +:+ CBWP.IPAddress eip +:+ "</code>" +:+ nl +:+
  (if negb (String.eqb (CBWP.BandwidthPackageID eip) "") then
     packageLine bwps eip +:+ "   状态: ✅ 已加入共享带宽" +:+ nl +:+ nl
   else "   状态: ⚪ 未加入共享带宽" +:+ nl +:+ nl).

(** ... and to its keyboard: one unbind button for a bound address, one
    bind button per package of the region for a free one. *)
Definition eipRows (instanceID : string)
  (bwps : list Package.BandwidthPackage) (eip : CBWP.EIPInfo)
  : list (list Telegram.InlineKeyboardButton) :=
  if negb (String.eqb (CBWP.BandwidthPackageID eip) "") then
    [[{| Telegram.Text := "🔴 移出 " +:+ CBWP.IPAddress eip;
         Telegram.CallbackData :=
           unbindData instanceID (CBWP.BandwidthPackageID eip) |}]]
  else
    map (fun bwp =>
           let bwpLabel :=
             if negb (String.eqb (Package.Name bwp) "") then Package.Name bwp
             else Package.BandwidthPackageID bwp in
           [{| Telegram.Text := "🟢 加入 " +:+ bwpLabel +:+ " (" +:+
                                Package.Bandwidth bwp +:+ "Mbps)";
               Telegram.CallbackData :=
                 bindData instanceID (Package.BandwidthPackageID bwp) |}])
        bwps.

Definition selectionText (inst : SpotInstance)
  (eips : list CBWP.EIPInfo) (bwps : list Package.BandwidthPackage) : string :=
  "🌐 <b>" +:+ InstanceName inst +:+ "</b>" +:+ nl +:+
  "   区域: " +:+ RegionID inst +:+ nl +:+
  "━━━━━━━━━━━━━━━━" +:+ nl +:+ nl +:+
  glue (map (eipText bwps) eips).

Definition selectionRows (instanceID : string)
  (eips : list CBWP.EIPInfo) (bwps : list Package.BandwidthPackage)
  : list (list Telegram.InlineKeyboardButton) :=
  (concat (map (eipRows instanceID bwps) eips) ++ [backButton "« 返回"])%list.

(** [handleCBWPSelectInstance]. *)
Definition handleCBWPSelectInstance (callbackID instanceID : string)
  (messageID : Z) : D error :=
  AnswerCallbackQuery callbackID "查询中..." false ;;~
  match findInstance instanceID with
  | None => EditMessageText messageID "❌ 未找到该实例" None
  | Some inst =>
      eips <~ DescribeEipAddresses (RegionID inst) instanceID ;;
      match eips with
      | Err err =>
          dlog LError "Failed to query EIPs for instance %s: %v"
            [AStr instanceID; AErr (Some err)] ;;~
          EditMessageText messageID ("❌ 查询 EIP 失败: " +:+ err) None
      | Ok [] =>
          EditMessageText messageID
            ("🌐 <b>" +:+ InstanceName inst +:+ "</b>" +:+ nl +:+ nl +:+
             "该实例没有绑定 EIP，无法操作共享带宽包")
            (Some [backButton "« 返回"])
      | Ok eips =>
          bwps <~ DescribeCommonBandwidthPackages (RegionID inst) ;;
          match bwps with
          | Err err =>
              dlog LError "Failed to query bandwidth packages in region %s: %v"
                [AStr (RegionID inst); AErr (Some err)] ;;~
              EditMessageText messageID ("❌ 查询共享带宽包失败: " +:+ err) None
          | Ok [] =>
              EditMessageText messageID
                ("🌐 <b>" +:+ InstanceName inst +:+ "</b>" +:+ nl +:+ nl +:+
                 "该地域 (" +:+ RegionID inst +:+ ") 没有共享带宽包")
                (Some [backButton "« 返回"])
          | Ok bwps =>
              EditMessageText messageID (selectionText inst eips bwps)
                (asSlice (selectionRows instanceID eips bwps))
          end
      end
  end.

(** The first address that is in no package, and the first one that is in
    package [bwpID]. *)
Definition firstUnbound (eips : list CBWP.EIPInfo) : option CBWP.EIPInfo :=
  List.find (fun eip => String.eqb (CBWP.BandwidthPackageID eip) "") eips.

Definition firstIn (bwpID : string) (eips : list CBWP.EIPInfo)
  : option CBWP.EIPInfo :=
  List.find (fun eip => String.eqb (CBWP.BandwidthPackageID eip) bwpID) eips.

(** [handleCBWPBind]. *)
Definition handleCBWPBind (callbackID instanceID bwpID : string)
  (messageID : Z) : D error :=
  AnswerCallbackQuery callbackID "正在加入共享带宽包..." false ;;~
  match findInstance instanceID with
  | None => EditMessageText messageID "❌ 未找到该实例" None
  | Some inst =>
      eips <~ DescribeEipAddresses (RegionID inst) instanceID ;;
      match eips with
      | Err _ | Ok [] => EditMessageText messageID "❌ 查询 EIP 失败" None
      | Ok eips =>
          match firstUnbound eips with
          | None =>
              EditMessageText messageID
                "❌ 没有可用的 EIP（所有 EIP 已在带宽包中）" None
          | Some targetEIP =>
              err <~ AddCommonBandwidthPackageIp (RegionID inst) bwpID
                       (CBWP.AllocationID targetEIP) ;;
              match err with
              | Some e =>
                  dlog LError "Failed to bind EIP %s to CBWP %s: %v"
                    [AStr (CBWP.AllocationID targetEIP); AStr bwpID;
                     AErr err] ;;~
                  EditMessageText messageID
                    ("❌ <b>加入失败</b>" +:+ nl +:+ nl +:+ "EIP: " +:+
                     CBWP.IPAddress targetEIP +:+ nl +:+ "错误: " +:+ e)
                    (Some [backButton "« 返回"])
              | None =>
                  now <~ deskNow ;;
                  EditMessageText messageID
                    ("✅ <b>已加入共享带宽</b>" +:+ nl +:+ "━━━━━━━━━━━━━━━━"
                     +:+ nl +:+ "实例: " +:+ InstanceName inst +:+ nl +:+
                     "EIP: <code>" +:+ CBWP.IPAddress targetEIP +:+ "</code>"
                     +:+ nl +:+ "带宽包: <code>" +:+ bwpID +:+ "</code>" +:+ nl
                     +:+ "时间: " +:+ now)
                    (Some [backButton "« 返回实例列表"])
              end
          end
      end
  end.

(** [handleCBWPUnbind]. *)
Definition handleCBWPUnbind (callbackID instanceID bwpID : string)
  (messageID : Z) : D error :=
  AnswerCallbackQuery callbackID "正在移出共享带宽包..." false ;;~
  match findInstance instanceID with
  | None => EditMessageText messageID "❌ 未找到该实例" None
  | Some inst =>
      eips <~ DescribeEipAddresses (RegionID inst) instanceID ;;
      match eips with
      | Err _ | Ok [] => EditMessageText messageID "❌ 查询 EIP 失败" None
      | Ok eips =>
          match firstIn bwpID eips with
          | None =>
              EditMessageText messageID "❌ 未找到在该带宽包中的 EIP" None
          | Some targetEIP =>
              err <~ RemoveCommonBandwidthPackageIp (RegionID inst) bwpID
                       (CBWP.AllocationID targetEIP) ;;
              match err with
              | Some e =>
                  dlog LError "Failed to unbind EIP %s from CBWP %s: %v"
                    [AStr (CBWP.AllocationID targetEIP); AStr bwpID;
                     AErr err] ;;~
                  EditMessageText messageID
                    ("❌ <b>移出失败</b>" +:+ nl +:+ nl +:+ "EIP: " +:+
                     CBWP.IPAddress targetEIP +:+ nl +:+ "错误: " +:+ e)
                    (Some [backButton "« 返回"])
              | None =>
                  now <~ deskNow ;;
                  EditMessageText messageID
                    ("✅ <b>已移出共享带宽</b>" +:+ nl +:+ "━━━━━━━━━━━━━━━━"
                     +:+ nl +:+ "实例: " +:+ InstanceName inst +:+ nl +:+
                     "EIP: <code>" +:+ CBWP.IPAddress targetEIP +:+ "</code>"
                     +:+ nl +:+ "带宽包: <code>" +:+ bwpID +:+ "</code>" +:+ nl
                     +:+ "时间: " +:+ now)
                    (Some [backButton "« 返回实例列表"])
              end
          end
      end
  end.

(** [sendStatusReport]; the flag says whether [m.notifier] is set. *)
Definition statusEmoji (status : string) : string :=
  if String.eqb status "Stopped" then "🔴"
  else if String.eqb status "Starting" || String.eqb status "Stopping"
  then "🟡"
  else "🟢".

Definition statusBlock (inst : SpotInstance) (status : string) : string :=
  statusEmoji status +:+ " <b>" +:+ InstanceName inst +:+ "</b>" +:+ nl +:+
  "   ID: <code>" +:+ InstanceID inst +:+ "</code>" +:+ nl +:+
  "   区域: " +:+ RegionID inst +:+ nl +:+
  "   状态: " +:+ status +:+ nl +:+ nl.

Definition shownStatus (r : result string) : string :=
  match r with Ok status => status | Err _ => "Unknown" end.

Fixpoint statusBlocks (l : list SpotInstance) (sb : string) : D string :=
  match l with
  | [] => dret sb
  | inst :: l' =>
      r <~ dcall (fun tr => deskGetInstanceStatus env tr (RegionID inst)
                              (InstanceID inst))
                 (DGetInstanceStatus (RegionID inst) (InstanceID inst)) ;;
      statusBlocks l' (sb +:+ statusBlock inst (shownStatus r))
  end.

Definition statusHeader : string :=
  "📊 <b>实例状态</b>" +:+ nl +:+ "━━━━━━━━━━━━━━━━━━━━━━━━" +:+ nl +:+ nl.

Definition sendStatusReport (hasNotifier : bool) : D error :=
  if negb hasNotifier then dret (Some "telegram notifier not initialized")
  else
    match instances with
    | [] => Send ("📊 <b>实例状态</b>" +:+ nl +:+ nl +:+ "暂无监控的实例")
    | _ =>
        text <~ statusBlocks instances statusHeader ;;
        Send text
    end.

End Desk.

(** ** Vocabulary for the conversation *)

Fixpoint dcount (p : DeskEvent → bool) (tr : DeskTrace) : nat :=
  match tr with
  | [] => O
  | e :: tr' => (if p e then 1 else 0) + dcount p tr'
  end%nat.

(** A message leaves for the chat: an edit, a keyboard or a plain text. *)
Definition isOutgoing (e : DeskEvent) : bool :=
  match e with
  | DEditMessageText _ _ _ _ | DSendMessageWithKeyboard _ _ _ | DSend _ _ =>
      true
  | _ => false
  end.

(** The attach and detach requests of a history, in order, each with its
    region, package and address. *)
Fixpoint adds (tr : DeskTrace) : list (string * string * string) :=
  match tr with
  | [] => []
  | DAddCommonBandwidthPackageIp regionID bwpID eipID _ :: tr' =>
      (regionID, bwpID, eipID) :: adds tr'
  | _ :: tr' => adds tr'
  end.

Fixpoint removes (tr : DeskTrace) : list (string * string * string) :=
  match tr with
  | [] => []
  | DRemoveCommonBandwidthPackageIp regionID bwpID eipID _ :: tr' =>
      (regionID, bwpID, eipID) :: removes tr'
  | _ :: tr' => removes tr'
  end.

(** The address queries of a history, with their answers. *)
Fixpoint eipQueries (tr : DeskTrace)
  : list (string * string * result (list CBWP.EIPInfo)) :=
  match tr with
  | [] => []
  | DDescribeEipAddresses regionID instanceID r :: tr' =>
      (regionID, instanceID, r) :: eipQueries tr'
  | _ :: tr' => eipQueries tr'
  end.

(** The addresses that the one query of a handler brought, when it brought
    some. *)
Definition eipsSeen (tr : DeskTrace) : list CBWP.EIPInfo :=
  match eipQueries tr with
  | (_, _, Ok eips) :: _ => eips
  | _ => []
  end.

(** The status queries of a history. *)
Fixpoint statusQueries (tr : DeskTrace) : list (string * string * result string) :=
  match tr with
  | [] => []
  | DGetInstanceStatus regionID instanceID r :: tr' =>
      (regionID, instanceID, r) :: statusQueries tr'
  | _ :: tr' => statusQueries tr'
  end.

(** The buttons of the keyboards that a history put on the screen. *)
Definition buttonsOf (keyboard : Markup) : list Telegram.InlineKeyboardButton :=
  match keyboard with Some rows => concat rows | None => [] end.

Fixpoint shown (tr : DeskTrace) : list Telegram.InlineKeyboardButton :=
  match tr with
  | [] => []
  | DEditMessageText _ _ keyboard _ :: tr' =>
      (buttonsOf keyboard ++ shown tr')%list
  | DSendMessageWithKeyboard _ keyboard _ :: tr' =>
      (buttonsOf keyboard ++ shown tr')%list
  | _ :: tr' => shown tr'
  end.

(** The attach request that a press of a bind button leads to: for a
    tracked instance with at least one free address, the first free one,
    in the instance's region, to the package of the payload. *)
Definition bindTarget (instances : list SpotInstance)
  (instanceID bwpID : string) (eips : list CBWP.EIPInfo)
  : list (string * string * string) :=
  match findInstance instances instanceID, firstUnbound eips with
  | Some inst, Some targetEIP =>
      [(RegionID inst, bwpID, CBWP.AllocationID targetEIP)]
  | _, _ => []
  end.

Definition unbindTarget (instances : list SpotInstance)
  (instanceID bwpID : string) (eips : list CBWP.EIPInfo)
  : list (string * string * string) :=
  match findInstance instances instanceID, firstIn bwpID eips with
  | Some inst, Some targetEIP =>
      [(RegionID inst, bwpID, CBWP.AllocationID targetEIP)]
  | _, _ => []
  end.

(** The dispatcher acts on the payload of the button. *)
Definition understood (button : Telegram.InlineKeyboardButton) : Prop :=
  ¬ malformed (Telegram.CallbackData button).

(** The instances asked about by a list of status queries, and the
    statuses to show for them. *)
Definition asked (qs : list (string * string * result string))
  : list (string * string) :=
  map (fun q => (fst (fst q), snd (fst q))) qs.

Definition statuses (qs : list (string * string * result string))
  : list string :=
  map (fun q => shownStatus (snd q)) qs.

Definition located (l : list SpotInstance) : list (string * string) :=
  map (fun inst => (RegionID inst, InstanceID inst)) l.

(** The text of the status report for the given statuses. *)
Fixpoint reportBody (l : list SpotInstance) (shown : list string) : string :=
  match l, shown with
  | inst :: l', status :: shown' =>
      statusBlock inst status +:+ reportBody l' shown'
  | _, _ => ""
  end.

(** An instance with three addresses: one in package cbwp-1, two free. *)
Definition boundEip : CBWP.EIPInfo :=
  {| CBWP.AllocationID := "eip-1"; CBWP.IPAddress := "198.51.100.1";
     CBWP.BandwidthPackageID := "cbwp-1"; CBWP.InstanceID := "i-001";
     CBWP.RegionID := "cn-hangzhou"; CBWP.Status := "InUse" |}.

Definition freeEip2 : CBWP.EIPInfo :=
  {| CBWP.AllocationID := "eip-2"; CBWP.IPAddress := "198.51.100.2";
     CBWP.BandwidthPackageID := ""; CBWP.InstanceID := "i-001";
     CBWP.RegionID := "cn-hangzhou"; CBWP.Status := "InUse" |}.

Definition freeEip3 : CBWP.EIPInfo :=
  {| CBWP.AllocationID := "eip-3"; CBWP.IPAddress := "198.51.100.3";
     CBWP.BandwidthPackageID := ""; CBWP.InstanceID := "i-001";
     CBWP.RegionID := "cn-hangzhou"; CBWP.Status := "InUse" |}.

Definition package1 : Package.BandwidthPackage :=
  {| Package.BandwidthPackageID := "cbwp-1"; Package.Name := "shared";
     Package.Bandwidth := "100"; Package.RegionID := "cn-hangzhou";
     Package.Status := "Available" |}.

(** A cloud and a chat where every request succeeds. *)
Definition calmDesk : DeskEnv :=
  {| nowFormatted := fun _ => "2026-01-01 00:00:00";
     botAnswerCallbackQuery := fun _ _ _ _ => None;
     botEditMessageText := fun _ _ _ _ => None;
     botSendMessageWithKeyboard := fun _ _ _ => None;
     deskSend := fun _ _ => None;
     deskGetInstanceStatus := fun _ _ _ => Ok "Running";
     cbwpDescribeEipAddresses := fun _ _ _ => Ok [boundEip; freeEip2; freeEip3];
     cbwpDescribeCommonBandwidthPackages := fun _ _ => Ok [package1];
     cbwpAddCommonBandwidthPackageIp := fun _ _ _ _ => None;
     cbwpRemoveCommonBandwidthPackageIp := fun _ _ _ _ => None |}.

(** ** The GCP billing client and the credits check *)

From Stdlib Require DecimalString DecimalPos.

Module GCP.

(** [%d] of a Go integer. *)
Definition Itoa (z : Z) : string :=
  DecimalString.NilZero.string_of_int (Z.to_int z).

(** [gcp.CreditsSummary]; [QueryTime] is a clock reading. *)
Record CreditsSummary := {
  TotalCredits : float;
  UsedAmount : float;
  RemainingAmount : float;
  RemainingPct : float;
  QueryTime : Z
}.

(** A value that [json.Unmarshal] stores in an [interface{}]. *)
#[warnings="-register-all"]
Inductive JSON :=
| JNull
| JBool (b : bool)
| JNumber (f : float)
| JString (s : string)
| JArray (items : list JSON)
| JObject (fields : list (string * JSON)).

(** [m[key]] on a decoded object, given as its members in document order:
    of members with the same name the decoder keeps the last. *)
Fixpoint field (key : string) (fields : list (string * JSON)) : option JSON :=
  match fields with
  | [] => None
  | (k, v) :: rest =>
      match field key rest with
      | Some v' => Some v'
      | None => if String.eqb k key then Some v else None
      end
  end.

(** A line that the client logs. *)
Definition LogLine : Type := LogLevel * string * list Arg.

Section Client.

(** [Unmarshal] is [json.Unmarshal] into a [map[string]interface{}]: an
    error, or the members of the decoded object (none for a JSON null).
    [token url] is the outcome of [TokenSource.Token()] for the request to
    [url], [newRequest] that of [http.NewRequest], and [do] the status and
    body that the HTTP client brings back.  Within one cost query every
    address is requested at most once. *)
Variable Unmarshal : string → result (list (string * JSON)).
Variable billingAccountID : string.
Variable token : string → result string.
Variable newRequest : string → error.
Variable do : string → string → result (string * Z).

(** [c["amount"].(float64)] after [c.(map[string]interface{})]. *)
Definition amountOf (c : option JSON) : option float :=
  match c with
  | Some (JObject m) =>
      match field "amount" m with
      | Some (JNumber a) => Some a
      | _ => None
      end
  | _ => None
  end.

Definition extractTotalCost (data : string) : float :=
  match Unmarshal data with
  | Err _ => 0%float
  | Ok result =>
      match amountOf (field "cost" result) with
      | Some amount => amount
      | None =>
          match field "costs" result with
          | Some (JArray costs) =>
              fold_left (fun total c =>
                           match amountOf (Some c) with
                           | Some a => (total + a)%float
                           | None => total
                           end) costs 0%float
          | _ => 0%float
          end
      end
  end.

(** [doRequest]: the body and the status code. *)
Definition doRequest (url : string) : result (string * Z) :=
  match token url with
  | Err e => Err (wrapErr "failed to get token" e)
  | Ok accessToken =>
      match newRequest url with
      | Some e => Err e
      | None =>
          match do url ("Bearer " +:+ accessToken) with
          | Err e => Err e
          | Ok (body, status) => Ok (body, status)
          end
      end
  end.

Definition costURL : string :=
  "https://cloudbilling.googleapis.com/v1beta1/billingAccounts/" +:+
  billingAccountID +:+ "/services/-/costs:summarize".

Definition infoURL : string :=
  "https://cloudbilling.googleapis.com/v1/billingAccounts/" +:+
  billingAccountID.

Definition StatusOK : Z := 200.

(** [queryTotalCost], with the lines it logs. *)
Definition queryTotalCost : result float * list LogLine :=
  match doRequest costURL with
  | Err e => (Err (wrapErr "failed to query costs" e), [])
  | Ok (body, status) =>
      let line1 := (LDebug, "GCP cost API response status=%d: %s",
                    [AInt status; AStr body]) in
      if (status =? StatusOK)%Z && flt 0%float (extractTotalCost body) then
        (Ok (extractTotalCost body), [line1])
      else
        match doRequest infoURL with
        | Err e =>
            (Err (wrapErr "failed to query billing account" e), [line1])
        | Ok (infoBody, infoStatus) =>
            if negb (infoStatus =? StatusOK)%Z then
              (Err ("billing API status " +:+ Itoa infoStatus +:+ ": " +:+
                    infoBody), [line1])
            else
              (Err ("cost query API not available (v1beta1 status " +:+
                    Itoa status +:+ "), billing account verified"),
               [line1; (LDebug, "Billing account info: %s", [AStr infoBody])])
        end
  end.

(** [QueryCostSummary]; [now] is what [time.Now()] reads. *)
Definition QueryCostSummary (totalCredits : float) (now : Z)
  : result CreditsSummary * list LogLine :=
  match queryTotalCost with
  | (Err e, lines) => (Err e, lines)
  | (Ok usedAmount, lines) =>
      let remaining := (totalCredits - usedAmount)%float in
      let remaining := if flt remaining 0%float then 0%float else remaining in
      let pct :=
        if flt 0%float totalCredits
        then (remaining / totalCredits * 100)%float
        else 0%float in
      (Ok {| TotalCredits := totalCredits; UsedAmount := usedAmount;
             RemainingAmount := remaining; RemainingPct := pct;
             QueryTime := now |}, lines)
  end.

End Client.

End GCP.

(** Go's [a <= b] on [float64]. *)
Definition fle (a b : float) : bool := PrimFloat.leb a b.

Section Credits.

Variable env : Env.

(** [hasGcpBilling] says whether [m.gcpBilling] is set; the two limits are
    the fields of the configuration; [QueryCostSummary] is the call into the
    billing client and [NotifyGCPCreditsLow] the call into the notifier. *)
Variable hasGcpBilling : bool.
Variable GCPCreditsTotal : float.
Variable GCPCreditsAlertPercent : float.
Variable QueryCostSummary : float → M (result GCP.CreditsSummary).
Variable NotifyGCPCreditsLow : GCP.CreditsSummary → float → M error.

Definition CheckGCPCredits : M error :=
  if negb hasGcpBilling then ret None
  else
    r <- QueryCostSummary GCPCreditsTotal ;;
    match r with
    | Err e => ret (Some (wrapErr "failed to query GCP costs" e))
    | Ok summary =>
        log LDebug "GCP credits: $%.2f remaining (%.1f%%)"
          [AFloat (GCP.RemainingAmount summary);
           AFloat (GCP.RemainingPct summary)] ;;
        m <- getMon ;;
        if fle (GCP.RemainingPct summary) GCPCreditsAlertPercent
           && hasNotifier m then
          ok <- canNotify env "gcp-credits" ;;
          if ok : bool then
            err <- NotifyGCPCreditsLow summary GCPCreditsAlertPercent ;;
            match err with
            | Some e => ret (Some e)
            | None => updateNotifyTime env "gcp-credits" ;; ret None
            end
          else ret None
        else ret None
    end.

End Credits.

(** A collaborator that leaves the monitor alone. *)
Definition keepsMonitor {A} (c : M A) : Prop :=
  ∀ s, mon (snd (c s)) = mon s.

(** Credits that are nearly used up, and collaborators that always
    succeed. *)
Definition lowSummary : GCP.CreditsSummary :=
  {| GCP.TotalCredits := 300%float; GCP.UsedAmount := 294%float;
     GCP.RemainingAmount := 6%float; GCP.RemainingPct := 2%float;
     GCP.QueryTime := 0 |}.

Definition lowCredits : float → M (result GCP.CreditsSummary) :=
  fun _ => ret (Ok lowSummary).

Definition delivering : GCP.CreditsSummary → float → M error :=
  fun _ _ => ret None.

(** A billing account whose cost API reports 12.5 spent. *)
Definition spentBody : string := "{cost}".

Definition spentUnmarshal (data : string) : result (list (string * GCP.JSON)) :=
  if String.eqb data spentBody
  then Ok [("cost", GCP.JObject [("amount", GCP.JNumber 12.5%float)])]
  else Err "unexpected end of JSON input".

Definition spentDo (url bearer : string) : result (string * Z) :=
  Ok (spentBody, 200%Z).

(** ** Configuration from the environment, [config.Load] *)

Module Conf.

(** [config.Config]. *)
Record Config := {
  AliyunAccessKeyID : string;
  AliyunAccessKeySecret : string;
  TelegramEnabled : bool;
  TelegramBotToken : string;
  TelegramChatID : string;
  CheckInterval : Z;
  CronSchedule : string;
  RetryCount : Z;
  RetryInterval : Z;
  NotifyCooldown : Z;
  HealthCheckEnabled : bool;
  HealthCheckTimeout : Z;
  HealthCheckInterval : Z;
  TrafficShutdownEnabled : bool;
  TrafficLimitChinaGB : float;
  TrafficLimitNonChinaGB : float;
  TrafficCheckInterval : Z;
  GCPCreditsEnabled : bool;
  GCPServiceAccountJSON : string;
  GCPBillingAccountID : string;
  GCPCreditsTotal : float;
  GCPCreditsAlertPercent : float;
  GCPCreditsCheckInterval : Z;
  LogLevel : string;
  LogFile : string
}.

(** [strconv.ParseBool]. *)
Definition ParseBool (str : string) : option bool :=
  if String.eqb str "1" || String.eqb str "t" || String.eqb str "T"
     || String.eqb str "TRUE" || String.eqb str "true"
     || String.eqb str "True" then Some true
  else if String.eqb str "0" || String.eqb str "f" || String.eqb str "F"
          || String.eqb str "FALSE" || String.eqb str "false"
          || String.eqb str "False" then Some false
  else None.

Definition maxInt : Z := 2 ^ 63 - 1.
Definition minInt : Z := - 2 ^ 63.

Definition isDigit (c : ascii) : bool :=
  (48 <=? nat_of_ascii c)%nat && (nat_of_ascii c <=? 57)%nat.

(** The value of a string of decimal digits, read after [acc]. *)
Fixpoint digits (s : string) (acc : Z) : option Z :=
  match s with
  | EmptyString => Some acc
  | String c s' =>
      if isDigit c
      then digits s' (acc * 10 + Z.of_nat (nat_of_ascii c - 48))
      else None
  end.

(** [strconv.Atoi] on a 64-bit platform: an optional sign and decimal
    digits, within the range of [int]. *)
Definition Atoi (s : string) : option Z :=
  let '(negative, body) :=
    match s with
    | String "-" rest => (true, rest)
    | String "+" rest => (false, rest)
    | _ => (false, s)
    end in
  match body with
  | EmptyString => None
  | _ =>
      match digits body 0 with
      | Some n =>
          let v := if negative then (- n)%Z else n in
          if (minInt <=? v)%Z && (v <=? maxInt)%Z then Some v
          else None
      | None => None
      end
  end.

Section Load.

(** [os.Getenv], which gives the empty string for a variable that is not
    set, and [strconv.ParseFloat] at 64 bits. *)
Variable Getenv : string → string.
Variable ParseFloat : string → option float.

Definition getEnvString (key defaultValue : string) : string :=
  if negb (String.eqb (Getenv key) "") then Getenv key else defaultValue.

Definition getEnvInt (key : string) (defaultValue : Z) : Z :=
  if negb (String.eqb (Getenv key) "") then
    match Atoi (Getenv key) with
    | Some intValue => intValue
    | None => defaultValue
    end
  else defaultValue.

Definition getEnvBool (key : string) (defaultValue : bool) : bool :=
  if negb (String.eqb (Getenv key) "") then
    match ParseBool (Getenv key) with
    | Some boolValue => boolValue
    | None => defaultValue
    end
  else defaultValue.

Definition getEnvFloat64 (key : string) (defaultValue : float) : float :=
  if negb (String.eqb (Getenv key) "") then
    match ParseFloat (Getenv key) with
    | Some floatValue => floatValue
    | None => defaultValue
    end
  else defaultValue.

(** The configuration that [Load] fills in before it validates it. *)
Definition fromEnv : Config :=
  let checkInterval := getEnvInt "CHECK_INTERVAL" 60 in
  {| AliyunAccessKeyID := Getenv "ALIYUN_ACCESS_KEY_ID";
     AliyunAccessKeySecret := Getenv "ALIYUN_ACCESS_KEY_SECRET";
     TelegramEnabled := getEnvBool "TELEGRAM_ENABLED" true;
     TelegramBotToken := Getenv "TELEGRAM_BOT_TOKEN";
     TelegramChatID := Getenv "TELEGRAM_CHAT_ID";
     CheckInterval := checkInterval;
     CronSchedule := "@every " +:+ GCP.Itoa checkInterval +:+ "s";
     RetryCount := getEnvInt "RETRY_COUNT" 3;
     RetryInterval := getEnvInt "RETRY_INTERVAL" 30;
     NotifyCooldown := getEnvInt "NOTIFY_COOLDOWN" 300;
     HealthCheckEnabled := getEnvBool "HEALTH_CHECK_ENABLED" true;
     HealthCheckTimeout := getEnvInt "HEALTH_CHECK_TIMEOUT" 300;
     HealthCheckInterval := getEnvInt "HEALTH_CHECK_INTERVAL" 10;
     TrafficShutdownEnabled := getEnvBool "TRAFFIC_SHUTDOWN_ENABLED" true;
     TrafficLimitChinaGB := getEnvFloat64 "TRAFFIC_LIMIT_CHINA_GB" 19%float;
     TrafficLimitNonChinaGB :=
       getEnvFloat64 "TRAFFIC_LIMIT_NON_CHINA_GB" 195%float;
     TrafficCheckInterval := getEnvInt "TRAFFIC_CHECK_INTERVAL" 300;
     GCPCreditsEnabled := getEnvBool "GCP_CREDITS_ENABLED" false;
     GCPServiceAccountJSON := Getenv "GCP_SERVICE_ACCOUNT_JSON";
     GCPBillingAccountID := Getenv "GCP_BILLING_ACCOUNT_ID";
     GCPCreditsTotal := getEnvFloat64 "GCP_CREDITS_TOTAL" 300%float;
     GCPCreditsAlertPercent :=
       getEnvFloat64 "GCP_CREDITS_ALERT_PERCENT" 5%float;
     GCPCreditsCheckInterval := getEnvInt "GCP_CREDITS_CHECK_INTERVAL" 3600;
     LogLevel := getEnvString "LOG_LEVEL" "info";
     LogFile := Getenv "LOG_FILE" |}.

Definition Load : result Config :=
  let cfg := fromEnv in
  if String.eqb (AliyunAccessKeyID cfg) "" then
    Err "ALIYUN_ACCESS_KEY_ID is required"
  else if String.eqb (AliyunAccessKeySecret cfg) "" then
    Err "ALIYUN_ACCESS_KEY_SECRET is required"
  else if TelegramEnabled cfg then
    if String.eqb (TelegramBotToken cfg) "" then
      Err "TELEGRAM_BOT_TOKEN is required when Telegram is enabled"
    else if String.eqb (TelegramChatID cfg) "" then
      Err "TELEGRAM_CHAT_ID is required when Telegram is enabled"
    else Ok cfg
  else Ok cfg.

End Load.

(** The spellings that switch a boolean setting off. *)
Definition off (value : string) : bool :=
  String.eqb value "0" || String.eqb value "f" || String.eqb value "F"
  || String.eqb value "FALSE" || String.eqb value "false"
  || String.eqb value "False".

(** The variables that [Load] reads besides the credentials. *)
Definition optional : list string :=
  ["TELEGRAM_ENABLED"; "CHECK_INTERVAL"; "RETRY_COUNT"; "RETRY_INTERVAL";
   "NOTIFY_COOLDOWN"; "HEALTH_CHECK_ENABLED"; "HEALTH_CHECK_TIMEOUT";
   "HEALTH_CHECK_INTERVAL"; "TRAFFIC_SHUTDOWN_ENABLED";
   "TRAFFIC_LIMIT_CHINA_GB"; "TRAFFIC_LIMIT_NON_CHINA_GB";
   "TRAFFIC_CHECK_INTERVAL"; "GCP_CREDITS_ENABLED";
   "GCP_SERVICE_ACCOUNT_JSON"; "GCP_BILLING_ACCOUNT_ID"; "GCP_CREDITS_TOTAL";
   "GCP_CREDITS_ALERT_PERCENT"; "GCP_CREDITS_CHECK_INTERVAL"; "LOG_LEVEL";
   "LOG_FILE"].

End Conf.

(** The part of the loaded configuration that the monitor of this
    development reads. *)
Definition monitorConfig (cfg : Conf.Config) : Config :=
  {| RetryCount := Conf.RetryCount cfg;
     RetryInterval := Conf.RetryInterval cfg;
     NotifyCooldown := Conf.NotifyCooldown cfg;
     TrafficShutdownEnabled := Conf.TrafficShutdownEnabled cfg;
     TrafficLimitChinaGB := Conf.TrafficLimitChinaGB cfg;
     TrafficLimitNonChinaGB := Conf.TrafficLimitNonChinaGB cfg |}.

(** An environment with the credentials and the Telegram settings only. *)
Definition bareEnv (key : string) : string :=
  if String.eqb key "ALIYUN_ACCESS_KEY_ID" then "LTAI-example"
  else if String.eqb key "ALIYUN_ACCESS_KEY_SECRET" then "secret"
  else if String.eqb key "TELEGRAM_BOT_TOKEN" then "123:abc"
  else if String.eqb key "TELEGRAM_CHAT_ID" then "42"
  else "".

(** The same without the Telegram settings, and Telegram switched off. *)
Definition headlessEnv (key : string) : string :=
  if String.eqb key "ALIYUN_ACCESS_KEY_ID" then "LTAI-example"
  else if String.eqb key "ALIYUN_ACCESS_KEY_SECRET" then "secret"
  else if String.eqb key "TELEGRAM_ENABLED" then "false"
  else "".

(** ** Vocabulary for the latches during a fleet check *)

(** The latch of the group of [regionID] is set in [m]: the test that
    [checkInstance] makes for the region of its instance. *)
Definition regionLatched (IsChinaMainlandRegion : string → bool) (m : Monitor)
  (regionID : string) : bool :=
  let isChina := IsChinaMainlandRegion regionID in
  (isChina && chinaShutdown m) || (negb isChina && nonChinaShutdown m).

(** A start command for an instance of a region whose latch is set. *)
Definition startsLatched (IsChinaMainlandRegion : string → bool) (m : Monitor)
  (e : Event) : bool :=
  match e with
  | EStartInstance regionID _ _ => regionLatched IsChinaMainlandRegion m regionID
  | _ => false
  end.

(** A start command for an instance of another region than [regionID]. *)
Definition startsOutside (regionID : string) (e : Event) : bool :=
  match e with
  | EStartInstance r _ _ => negb (String.eqb r regionID)
  | _ => false
  end.

(** ** The regional clients of the compute client, [getClient] *)

Module Clients.

Section Cache.

(** An SDK client, and [ecs.NewClientWithAccessKey] for a region with the
    credentials of the compute client. *)
Variable Client : Type.
Variable NewClientWithAccessKey : string → result Client.

(** [ECSClient.getClient] on the map [c.clients]: the client for the region
    and the map afterwards. *)
Definition getClient (clients : gmap string Client) (regionID : string)
  : result Client * gmap string Client :=
  match clients !! regionID with
  | Some client => (Ok client, clients)
  | None =>
      match NewClientWithAccessKey regionID with
      | Err e =>
          (Err (wrapErr ("failed to create ECS client for region "
                         +:+ regionID) e), clients)
      | Ok client => (Ok client, <[regionID := client]> clients)
      end
  end.

(** The clients after asking for the regions of [regionIDs] in turn. *)
Fixpoint warm (clients : gmap string Client) (regionIDs : list string)
  : gmap string Client :=
  match regionIDs with
  | [] => clients
  | regionID :: rest => warm (snd (getClient clients regionID)) rest
  end.

End Cache.

End Clients.

(** A factory that has clients for the mainland regions only. *)
Definition mainlandOnly (regionID : string) : result string :=
  if cnPrefixed regionID then Ok ("client-" +:+ regionID)
  else Err "unreachable endpoint".

(** ** Vocabulary for what a press on the selection screen does *)

(** The cloud reports package ids without a colon. *)
Definition cleanIds (env : DeskEnv) : Prop :=
  (∀ tr regionID instanceID eips,
     cbwpDescribeEipAddresses env tr regionID instanceID = Ok eips →
     Forall (fun eip => free ":" (CBWP.BandwidthPackageID eip) = true) eips) ∧
  (∀ tr regionID bwps,
     cbwpDescribeCommonBandwidthPackages env tr regionID = Ok bwps →
     Forall (fun bwp => free ":" (Package.BandwidthPackageID bwp) = true) bwps).

(** The payload leads back to the list, or asks to attach an address of
    [instanceID] to a package, or to detach one from a package. *)
Definition actsOn (instanceID data : string) : Prop :=
  data = backData ∨
  (∃ bwpID, free ":" bwpID = true ∧ data = bindData instanceID bwpID) ∨
  (∃ bwpID, free ":" bwpID = true ∧ bwpID ≠ "" ∧
            data = unbindData instanceID bwpID).

(** * Properties *)

(** ** Strings *)

Lemma GoStrings_Split_nonempty s sep : GoStrings.Split s sep ≠ [].
Proof.
  destruct s as [|c s]; simpl; [done|].
  destruct (Ascii.eqb c sep); [done|]. by destruct (GoStrings.Split s sep).
Qed.

Lemma GoStrings_HasPrefix_refl s : GoStrings.HasPrefix s s = true.
Proof.
  induction s as [|c s IH]; simpl; [done|].
  by rewrite Ascii.eqb_refl, IH.
Qed.

(** The first piece of a split is a prefix of the input. *)
Lemma GoStrings_Split_head_prefix s sep p ps q :
  GoStrings.Split s sep = p :: ps →
  GoStrings.HasPrefix p q = true → GoStrings.HasPrefix s q = true.
Proof.
  revert p ps q. induction s as [|c s IH]; intros p ps q; simpl.
  - intros [= <- <-]. done.
  - destruct (Ascii.eqb c sep) eqn:Hc.
    + intros [= <- <-]. destruct q; simpl; [done|discriminate].
    + destruct (GoStrings.Split s sep) as [|p' ps'] eqn:Hs.
      * by destruct (GoStrings_Split_nonempty s sep).
      * intros [= <- <-]. destruct q as [|d q]; simpl; [done|].
        intros [-> Hq]%andb_prop. simpl. eauto.
Qed.

(** ** Float comparison *)

Lemma SFcompare_Lt_flip x y :
  SFcompare x y = Some Lt → SFcompare y x = Some Gt.
Proof.
  destruct x as [sx|sx| |sx mx ex], y as [sy|sy| |sy my ey]; simpl;
    try discriminate; try (destruct sx; simpl; congruence);
    try (destruct sy; simpl; congruence);
    try (destruct sx, sy; simpl; congruence).
  rewrite (Z.compare_antisym ex ey).
  assert (H := Pos.compare_cont_antisym mx my Eq). simpl in H.
  rewrite <- H.
  destruct sx, sy; try congruence;
  destruct (ex ?= ey)%Z; simpl; try congruence;
  destruct (Pos.compare_cont Eq mx my); simpl; congruence.
Qed.

(** A value strictly below the budget is not at or above it. *)
Lemma flt_not_fge a b : flt a b = true → fge a b = false.
Proof.
  unfold flt, fge. rewrite ltb_spec, leb_spec. unfold SFltb, SFleb.
  destruct (SFcompare (Prim2SF a) (Prim2SF b)) as [[]|] eqn:H; try discriminate.
  intros _. by rewrite (SFcompare_Lt_flip _ _ H).
Qed.

(** C8. A start (or stop) request rejected by the SDK with an error whose
    text contains IncorrectInstanceStatus is swallowed: [StartInstance] and
    [StopInstance] return nil.  Every other failure, of the SDK request or
    of obtaining the regional client, comes back as a non-nil error, and a
    successful request returns nil. *)
Theorem C8_state_conflict_swallowed :
  ∀ (instanceID mode e : string),
    (GoStrings.Contains e "IncorrectInstanceStatus" = true →
       ECS.StartInstance None (Some e) instanceID = None ∧
       ECS.StopInstance None (Some e) instanceID mode = None) ∧
    (GoStrings.Contains e "IncorrectInstanceStatus" = false →
       ECS.StartInstance None (Some e) instanceID
         = Some (wrapErr ("failed to start instance " +:+ instanceID) e) ∧
       ECS.StopInstance None (Some e) instanceID mode
         = Some (wrapErr ("failed to stop instance " +:+ instanceID) e)) ∧
    (∀ sdk, ECS.StartInstance (Some e) sdk instanceID = Some e ∧
            ECS.StopInstance (Some e) sdk instanceID mode = Some e) ∧
    ECS.StartInstance None None instanceID = None ∧
    ECS.StopInstance None None instanceID mode = None.
Proof.
  intros instanceID mode e. unfold ECS.StartInstance, ECS.StopInstance.
  split; [by intros ->|]. split; [by intros ->|]. done.
Qed.

Lemma C8_state_conflict_swallowed_witness :
  ECS.StartInstance None
    (Some "SDK.ServerError ErrorCode: IncorrectInstanceStatus") "i-001" = None.
Proof.
  destruct (C8_state_conflict_swallowed "i-001" "StopCharging"
              "SDK.ServerError ErrorCode: IncorrectInstanceStatus")
    as [H _].
  apply H. vm_compute. reflexivity.
Defined.

(** ** Callback dispatcher *)

Section CallbackFacts.

Variable handleCBWPSelectInstance : string → string → Z → M error.
Variable handleCBWPBind : string → string → string → Z → M error.
Variable handleCBWPUnbind : string → string → string → Z → M error.
Variable handleCBWPBackToList : Z → M error.
Variable AnswerCallbackQuery : string → string → bool → M error.

Local Abbreviation handleCallbackQuery :=
  (handleCallbackQuery handleCBWPSelectInstance handleCBWPBind
     handleCBWPUnbind handleCBWPBackToList AnswerCallbackQuery).

Lemma first_part_prefix data :
  part (GoStrings.Split data ":") 0 = "cbwp" →
  GoStrings.HasPrefix data "cbwp" = true.
Proof.
  unfold part. destruct (GoStrings.Split data ":") as [|p ps] eqn:Hs.
  - by destruct (GoStrings_Split_nonempty data ":").
  - simpl. intros ->. eapply GoStrings_Split_head_prefix; [exact Hs|].
    apply GoStrings_HasPrefix_refl.
Qed.

(** C10. On a malformed callback payload (data not beginning with cbwp,
    fewer than two colon-separated parts, an unknown action, or too few
    arguments for select, bind or unbind) [handleCallbackQuery] returns nil
    and leaves the monitor and the interaction history exactly as they
    were: no handler runs, no cloud API is called, nothing is mutated. *)
Theorem C10_malformed_callback_noop :
  ∀ (callbackID data : string) (messageID : Z) (s : St),
    malformed data →
    handleCallbackQuery callbackID data messageID s = (None, s).
Proof.
  intros callbackID data messageID s Hbad.
  unfold handleCallbackQuery, malformed in *.
  set (parts := GoStrings.Split data ":") in *.
  destruct (length parts <? 2)%nat eqn:Hlen; [done|].
  apply Nat.ltb_ge in Hlen. simpl.
  destruct (String.eqb (part parts 0) "cbwp") eqn:Hhead; [|done].
  apply String.eqb_eq in Hhead. apply first_part_prefix in Hhead. simpl.
  destruct (String.eqb (part parts 1) "select") eqn:Hsel.
  { apply String.eqb_eq in Hsel.
    destruct (length parts <? 3)%nat eqn:H3; [done|].
    apply Nat.ltb_ge in H3. rewrite Hsel in Hbad.
    destruct Hbad as [?|[?|[(?&_)|[(_&?)|([?|?]&_)]]]];
      try congruence; try lia; done. }
  destruct (String.eqb (part parts 1) "bind") eqn:Hbind.
  { apply String.eqb_eq in Hbind.
    destruct (length parts <? 4)%nat eqn:H4; [done|].
    apply Nat.ltb_ge in H4. rewrite Hbind in Hbad.
    destruct Hbad as [?|[?|[(_&?&_)|[(?&_)|(_&?)]]]];
      try congruence; try lia; done. }
  destruct (String.eqb (part parts 1) "unbind") eqn:Hunbind.
  { apply String.eqb_eq in Hunbind.
    destruct (length parts <? 4)%nat eqn:H4; [done|].
    apply Nat.ltb_ge in H4. rewrite Hunbind in Hbad.
    destruct Hbad as [?|[?|[(_&_&?&_)|[(?&_)|(_&?)]]]];
      try congruence; try lia; done. }
  destruct (String.eqb (part parts 1) "back") eqn:Hback; [|done].
  apply String.eqb_eq in Hback. rewrite Hback in Hbad.
  destruct Hbad as [?|[?|[(_&_&_&?)|[(?&_)|([?|?]&_)]]]];
    try congruence; try lia; done.
Qed.

End CallbackFacts.

Lemma C10_malformed_callback_noop_witness :
  handleCallbackQuery (fun _ _ _ => ret None) (fun _ _ _ _ => ret None)
    (fun _ _ _ _ => ret None) (fun _ => ret None) (fun _ _ _ => ret None)
    "cb-1" "cbwp:bind:i-001" 42 idleState = (None, idleState).
Proof.
  apply C10_malformed_callback_noop. unfold malformed.
  right; right; right; right. split; [left; reflexivity | simpl; lia].
Defined.

(** ** Reclaim-and-restart engine *)

(** Expose the state passing of a monadic term. *)
Ltac run_monad :=
  cbv beta iota zeta delta
    [bind ret getMon modifyMon when call ask log emit]; simpl.

Lemma countEv_app p (a b : Trace) :
  countEv p (a ++ b)%list = (countEv p a + countEv p b)%nat.
Proof. induction a as [|e a IH]; simpl; [done|]. rewrite IH. lia. Qed.

Section EngineFacts.

Variable IsChinaMainlandRegion : string → bool.
Variable env : Env.

Local Abbreviation blocked := (blocked IsChinaMainlandRegion).
Local Abbreviation checkInstance := (checkInstance IsChinaMainlandRegion env).

(** C3. An instance whose queried status is not Stopped is left alone:
    [checkInstance] returns nil, the monitor is unchanged and no start
    command is added to the history.  When the latch of the instance's
    group is set, it returns nil without any cloud call at all, so the
    status is not even queried. *)
Theorem C3_not_stopped_is_noop :
  ∀ (inst : SpotInstance) (s : St),
    (blocked (mon s) inst = true →
       fst (checkInstance inst s) = None ∧
       mon (snd (checkInstance inst s)) = mon s ∧
       countEv isCloudCall (trace (snd (checkInstance inst s)))
         = countEv isCloudCall (trace s)) ∧
    (blocked (mon s) inst = false →
       ∀ status,
         ecsGetInstanceStatus env (trace s) (RegionID inst) (InstanceID inst)
           = Ok status →
         status ≠ "Stopped" →
         fst (checkInstance inst s) = None ∧
         mon (snd (checkInstance inst s)) = mon s ∧
         countEv isStart (trace (snd (checkInstance inst s)))
           = countEv isStart (trace s)).
Proof.
  intros inst s. split.
  - intros Hb. unfold checkInstance, bind, getMon. simpl.
    rewrite Hb. simpl. rewrite countEv_app. simpl. split_and!; [done|done|lia].
  - intros Hb status Hq Hne.
    unfold checkInstance, bind, getMon, GetInstanceStatus, call.
    simpl. rewrite Hb, Hq. simpl.
    destruct (String.eqb status "Stopped") eqn:He.
    { apply String.eqb_eq in He. contradiction. }
    simpl. rewrite !countEv_app. simpl. split_and!; [done|done|lia].
Qed.

Lemma quiet_isStart : quiet isStart.
Proof. by repeat split. Qed.
Lemma quiet_isStarted : quiet isStarted.
Proof. by repeat split. Qed.
Lemma quiet_isStartFailed : quiet isStartFailed.
Proof. by repeat split. Qed.
Lemma quiet_isReclaimed : quiet isReclaimed.
Proof. by repeat split. Qed.
Lemma quiet_isNotify : quiet isNotify.
Proof. by repeat split. Qed.

Lemma pollRunning_frame p n r i s :
  quiet p →
  mon (snd (pollRunning env n r i s)) = mon s ∧
  countEv p (trace (snd (pollRunning env n r i s))) = countEv p (trace s).
Proof.
  intros (HL & _ & _ & HG & _). revert s.
  induction n as [|n IH]; intros s; simpl; [done|].
  unfold bind, GetInstanceStatus, call, log, emit. simpl.
  destruct (ecsGetInstanceStatus env (trace s) r i) as [status|e].
  - destruct (String.eqb status "Running"); simpl.
    + rewrite countEv_app. simpl. rewrite HG. split; [done|lia].
    + destruct (IH {| mon := mon s;
                      trace := ((trace s ++ [EGetInstanceStatus r i (Ok status)])
                        ++ [ELog LDebug "Instance %s status: %s, waiting..."
                              [AStr i; AStr status]])%list |}) as [IH1 IH2].
      rewrite IH1, IH2. simpl. rewrite !countEv_app. simpl.
      rewrite HG, HL. split; [done|lia].
  - simpl.
    destruct (IH {| mon := mon s;
                    trace := ((trace s ++ [EGetInstanceStatus r i (Err e)])
                      ++ [ELog LWarn "Failed to get instance status: %v"
                            [AErr (Some e)]])%list |}) as [IH1 IH2].
    rewrite IH1, IH2. simpl. rewrite !countEv_app. simpl.
    rewrite HG, HL. split; [done|lia].
Qed.

(** One attempt leaves the monitor alone and adds exactly one start
    command to the history, and nothing else that a quiet predicate sees. *)
Lemma attempt_frame p b inst i s :
  quiet p → (∀ r x e, p (EStartInstance r x e) = b) →
  mon (snd (attempt env inst i s)) = mon s ∧
  countEv p (trace (snd (attempt env inst i s)))
    = (countEv p (trace s) + if b then 1 else 0)%nat.
Proof.
  intros Hq Hb. pose proof Hq as (HL & HS & _ & _ & _).
  unfold attempt, waitForRunning, StartInstance, Sleep. run_monad.
  destruct (0 <? i)%Z; simpl;
    (destruct (ecsStartInstance env _ _ _) as [err|]; simpl;
     [ rewrite !countEv_app; simpl; rewrite ?Hb, ?HL, ?HS;
       split; [done | destruct b; lia]
     | match goal with
       | |- context [pollRunning env ?n ?r ?x ?s0] =>
           destruct (pollRunning_frame p n r x s0 Hq) as [P1 P2];
           destruct (pollRunning env n r x s0) as [[w|] s2]
       end; simpl in *; rewrite ?countEv_app; simpl;
       rewrite ?HL, ?P1, ?P2, ?countEv_app; simpl; rewrite ?Hb, ?HL, ?HS;
       (split; [done | destruct b; lia]) ]).
Qed.

Lemma afterAttempts_frame p b inst j : ∀ i s,
  quiet p → (∀ r x e, p (EStartInstance r x e) = b) →
  mon (afterAttempts env inst i j s) = mon s ∧
  countEv p (trace (afterAttempts env inst i j s))
    = (countEv p (trace s) + if b then j else 0)%nat.
Proof.
  induction j as [|j IH]; intros i s Hq Hb; simpl.
  - split; [done|]. destruct b; lia.
  - destruct (attempt_frame p b inst i s Hq Hb) as [A1 A2].
    destruct (IH (i + 1) (snd (attempt env inst i s)) Hq Hb) as [I1 I2].
    rewrite I1, I2, A1, A2. split; [done|]. destruct b; lia.
Qed.

Lemma resultFrom_0 inst i s : resultFrom env inst i 0 s = fst (attempt env inst i s).
Proof. unfold resultFrom. simpl. by rewrite Z.add_0_r. Qed.

Lemma resultFrom_S inst i j s :
  resultFrom env inst i (S j) s
  = resultFrom env inst (i + 1) j (snd (attempt env inst i s)).
Proof.
  unfold resultFrom. simpl afterAttempts.
  by replace (i + Z.of_nat (S j)) with (i + 1 + Z.of_nat j) by lia.
Qed.

Lemma attemptResult_from inst j s :
  attemptResult env inst j s = resultFrom env inst 0 j s.
Proof. reflexivity. Qed.

Lemma retryLoop_S inst t0 n i lastErr s :
  retryLoop env (S n) i lastErr inst t0 s
  = match attempt env inst i s with
    | (Some err, s1) => retryLoop env n (i + 1) (Some err) inst t0 s1
    | (None, s1) => reportStarted env inst t0 s1
    end.
Proof.
  simpl. unfold bind. by destruct (attempt env inst i s) as [[err|] s1].
Qed.

(** The loop stops at the first successful pass and otherwise runs all of
    them, remembering the last error. *)
Lemma retryLoop_spec inst t0 n : ∀ i lastErr s,
  (∀ k, (k < n)%nat →
        (∀ j, (j < k)%nat → resultFrom env inst i j s ≠ None) →
        resultFrom env inst i k s = None →
        retryLoop env n i lastErr inst t0 s
        = reportStarted env inst t0 (afterAttempts env inst i (S k) s)) ∧
  ((∀ j, (j < n)%nat → resultFrom env inst i j s ≠ None) →
   retryLoop env n i lastErr inst t0 s
   = reportFailed env inst
       (match n with O => lastErr | S n' => resultFrom env inst i n' s end)
       (afterAttempts env inst i n s)).
Proof.
  induction n as [|n IH]; intros i lastErr s.
  - split; [intros k Hk; lia | done].
  - rewrite !retryLoop_S.
    destruct (attempt env inst i s) as [e s1] eqn:Ha.
    assert (H0 : resultFrom env inst i 0 s = e) by (by rewrite resultFrom_0, Ha).
    assert (Hs1 : snd (attempt env inst i s) = s1) by (by rewrite Ha).
    split.
    + intros [|k] Hk Hfail Hok.
      * rewrite H0 in Hok. rewrite Hok. simpl afterAttempts. by rewrite Hs1.
      * destruct e as [err|].
        2:{ exfalso. apply (Hfail 0%nat); [lia|done]. }
        destruct (IH (i + 1) (Some err) s1) as [IH1 _].
        rewrite (IH1 k); [ | lia | | ].
        -- simpl afterAttempts. by rewrite Hs1.
        -- intros j Hj. rewrite <- Hs1, <- resultFrom_S. apply Hfail. lia.
        -- by rewrite <- Hs1, <- resultFrom_S.
    + intros Hfail. destruct e as [err|].
      2:{ exfalso. apply (Hfail 0%nat); [lia|done]. }
      destruct (IH (i + 1) (Some err) s1) as [_ IH2].
      rewrite IH2.
      * simpl afterAttempts. rewrite Hs1. f_equal.
        destruct n as [|n']; [by rewrite H0|].
        by rewrite resultFrom_S, Hs1.
      * intros j Hj. rewrite <- Hs1, <- resultFrom_S. apply Hfail. lia.
Qed.

Lemma reportStarted_spec inst t0 s :
  let s' := snd (reportStarted env inst t0 s) in
  fst (reportStarted env inst t0 s) = None ∧
  mon s' = mon s ∧
  countEv isStart (trace s') = countEv isStart (trace s) ∧
  countEv isStartFailed (trace s') = countEv isStartFailed (trace s) ∧
  countEv isStarted (trace s')
    = (countEv isStarted (trace s) + if hasNotifier (mon s) then 1 else 0)%nat ∧
  (hasNotifier (mon s) = true →
   ∃ inst' pre post res,
     trace s' = (pre ++ ENow (clock env pre) :: post)%list ∧
     countEv isStart pre = countEv isStart (trace s) ∧
     ENotify (NotifyInstanceStarted (InstanceID inst') (InstanceName inst')
                (RegionID inst') (PublicIPAddress inst')
                (Since (clock env pre) t0)) res ∈ post).
Proof.
  unfold reportStarted, GetInstance, now, notify. run_monad.
  destruct (ecsGetInstance env (trace s) (RegionID inst) (InstanceID inst))
    as [upd|e] eqn:Hg; simpl;
    destruct (hasNotifier (mon s)); simpl;
    match goal with
    | |- context [notifierSend env ?tr ?n] => destruct (notifierSend env tr n)
    | _ => idtac
    end; simpl; rewrite ?countEv_app; simpl;
    (split_and!; [done|done|lia|lia|lia|]); try done; intros _;
    match goal with
    | |- ∃ _ _ _ _, ((((?pre ++ [ENow _]) ++ ?l1) ++ ?l2) ++ ?l3)%list = _ ∧ _ =>
        match l2 with
        | [ENotify (NotifyInstanceStarted (InstanceID ?i) _ _ _ _) ?r] =>
            exists i, pre, (l1 ++ l2 ++ l3)%list, r
        end
    | |- ∃ _ _ _ _, (((?pre ++ [ENow _]) ++ ?l1) ++ ?l2)%list = _ ∧ _ =>
        match l2 with
        | [ENotify (NotifyInstanceStarted (InstanceID ?i) _ _ _ _) ?r] =>
            exists i, pre, (l1 ++ l2)%list, r
        end
    end;
    (split; [by rewrite <- !app_assoc|]);
    (split; [rewrite ?countEv_app; simpl; lia|]);
    simpl; repeat first [apply list_elem_of_here | apply list_elem_of_further].
Qed.

Lemma reportFailed_spec inst lastErr s :
  let s' := snd (reportFailed env inst lastErr s) in
  fst (reportFailed env inst lastErr s) = lastErr ∧
  mon s' = mon s ∧
  countEv isStart (trace s') = countEv isStart (trace s) ∧
  countEv isStarted (trace s') = countEv isStarted (trace s) ∧
  countEv isStartFailed (trace s')
    = (countEv isStartFailed (trace s)
       + if hasNotifier (mon s) then 1 else 0)%nat ∧
  (hasNotifier (mon s) = true →
   ∃ res,
     ENotify (NotifyInstanceStartFailed (InstanceID inst) (InstanceName inst)
                (RegionID inst) (RetryCount (cfg (mon s))) lastErr) res
       ∈ trace s').
Proof.
  unfold reportFailed, notify. run_monad.
  destruct (hasNotifier (mon s)); simpl;
    match goal with
    | |- context [notifierSend env ?tr ?n] => destruct (notifierSend env tr n)
    | _ => idtac
    end; simpl; rewrite ?countEv_app; simpl;
    (split_and!; [done|done|lia|lia|lia|]); try done; intros _;
    eexists; rewrite ?elem_of_app, ?elem_of_cons; eauto 10.
Qed.

Lemma alertReclaimed_frame inst s :
  let s' := snd (alertReclaimed env inst s) in
  cfg (mon s') = cfg (mon s) ∧
  hasNotifier (mon s') = hasNotifier (mon s) ∧
  ∀ p, quiet p → blindToReclaimed p →
       countEv p (trace s') = countEv p (trace s).
Proof.
  unfold alertReclaimed, canNotify, updateNotifyTime, now, notify. run_monad.
  destruct (lastNotify (mon s) !! InstanceID inst) as [lastTime|]; simpl;
    try destruct (_ <? _)%Z; simpl;
    destruct (hasNotifier (mon s)) eqn:Hn; simpl;
    try match goal with
    | |- context [notifierSend env ?tr ?n] => destruct (notifierSend env tr n)
    end; simpl; rewrite ?Hn;
    (split_and!; [done|done|]);
    intros p (HL & _ & HN & _ & _) HR; rewrite ?countEv_app; simpl;
    rewrite ?HL, ?HN, ?HR; lia.
Qed.

Lemma loopEntry_frame inst s :
  cfg (mon (loopEntry env inst s)) = cfg (mon s) ∧
  hasNotifier (mon (loopEntry env inst s)) = hasNotifier (mon s) ∧
  ∀ p, quiet p → blindToReclaimed p →
       countEv p (trace (loopEntry env inst s)) = countEv p (trace s).
Proof.
  unfold loopEntry, retryEntry, GetInstanceStatus, now. run_monad.
  match goal with
  | |- context [alertReclaimed env inst ?s1] =>
      destruct (alertReclaimed_frame inst s1) as (H1 & H2 & H3);
      destruct (alertReclaimed env inst s1) as [[] s2]
  end. simpl in *. split_and!; [done|done|].
  intros p Hq HR. pose proof Hq as (HL & _ & HN & HG & _).
  rewrite countEv_app, (H3 p Hq HR), !countEv_app. simpl.
  rewrite HN, HG, !HL. lia.
Qed.

(** A stopped, unblocked instance takes [checkInstance] into the retry
    loop. *)
Lemma checkInstance_stopped inst s :
  blocked (mon s) inst = false →
  ecsGetInstanceStatus env (trace s) (RegionID inst) (InstanceID inst)
    = Ok "Stopped" →
  checkInstance inst s
  = retryLoop env (Z.to_nat (RetryCount (cfg (mon s)))) 0 None inst
      (retryStartTime env inst s) (loopEntry env inst s).
Proof.
  intros Hb Hq. destruct (loopEntry_frame inst s) as (Hc & _ & _).
  revert Hc.
  unfold checkInstance, startWithRetries, loopEntry, retryStartTime,
    retryEntry, GetInstanceStatus, now.
  run_monad. rewrite Hb, Hq. simpl.
  destruct (alertReclaimed env inst _) as [[] s2]. simpl.
  by intros ->.
Qed.

(** Either some attempt is the first to succeed or all [n] fail. *)
Lemma first_success_or_none inst s n :
  (∃ k, (k < n)%nat ∧
        (∀ j, (j < k)%nat → attemptResult env inst j s ≠ None) ∧
        attemptResult env inst k s = None) ∨
  (∀ j, (j < n)%nat → attemptResult env inst j s ≠ None).
Proof.
  induction n as [|n [(k & Hk & Hf & Hs)|Hall]].
  - right. intros j Hj. lia.
  - left. exists k. split_and!; [lia|done|done].
  - destruct (attemptResult env inst n s) as [err|] eqn:Hn.
    + right. intros j Hj. destruct (decide (j = n)) as [->|Hne].
      * by rewrite Hn.
      * apply Hall. lia.
    + left. exists n. split_and!; [lia|done|done].
Qed.

(** What the retry phase does when attempt [k] is the first to succeed. *)
Lemma retry_succeeds inst s k :
  blocked (mon s) inst = false →
  ecsGetInstanceStatus env (trace s) (RegionID inst) (InstanceID inst)
    = Ok "Stopped" →
  (k < Z.to_nat (RetryCount (cfg (mon s))))%nat →
  (∀ j, (j < k)%nat → attemptResult env inst j (loopEntry env inst s) ≠ None) →
  attemptResult env inst k (loopEntry env inst s) = None →
  let s' := snd (checkInstance inst s) in
  fst (checkInstance inst s) = None ∧
  countEv isStart (trace s') = (countEv isStart (trace s) + S k)%nat ∧
  countEv isStartFailed (trace s') = countEv isStartFailed (trace s) ∧
  countEv isStarted (trace s')
    = (countEv isStarted (trace s) + if hasNotifier (mon s) then 1 else 0)%nat ∧
  (hasNotifier (mon s) = true →
   ∃ inst' pre post res,
     trace s' = (pre ++ ENow (clock env pre) :: post)%list ∧
     countEv isStart pre = countEv isStart (trace s') ∧
     ENotify (NotifyInstanceStarted (InstanceID inst') (InstanceName inst')
                (RegionID inst') (PublicIPAddress inst')
                (Since (clock env pre) (retryStartTime env inst s))) res
       ∈ post).
Proof.
  intros Hb Hq Hk Hfail Hok. simpl.
  rewrite (checkInstance_stopped inst s Hb Hq).
  destruct (retryLoop_spec inst (retryStartTime env inst s)
              (Z.to_nat (RetryCount (cfg (mon s)))) 0 None
              (loopEntry env inst s)) as [Hloop _].
  rewrite (Hloop k Hk Hfail Hok).
  destruct (loopEntry_frame inst s) as (_ & Hn & Hcnt).
  set (sk := afterAttempts env inst 0 (S k) (loopEntry env inst s)).
  destruct (afterAttempts_frame isStart true inst (S k) 0
              (loopEntry env inst s) quiet_isStart) as [Hm A1]; [done|].
  destruct (afterAttempts_frame isStarted false inst (S k) 0
              (loopEntry env inst s) quiet_isStarted) as [_ A2]; [done|].
  destruct (afterAttempts_frame isStartFailed false inst (S k) 0
              (loopEntry env inst s) quiet_isStartFailed) as [_ A3]; [done|].
  fold sk in Hm, A1, A2, A3.
  rewrite (Hcnt isStart quiet_isStart) in A1 by done.
  rewrite (Hcnt isStarted quiet_isStarted) in A2 by done.
  rewrite (Hcnt isStartFailed quiet_isStartFailed) in A3 by done.
  destruct (reportStarted_spec inst (retryStartTime env inst s) sk)
    as (R0 & _ & R1 & R2 & R3 & R4).
  rewrite Hm, Hn in R3, R4.
  split_and!; [done|lia|lia|lia|].
  intros Hnot. destruct (R4 Hnot) as (inst' & pre & post & res & E1 & E2 & E3).
  exists inst', pre, post, res. split_and!; [done|lia|done].
Qed.

(** What the retry phase does when every attempt fails. *)
Lemma retry_exhausted inst s :
  blocked (mon s) inst = false →
  ecsGetInstanceStatus env (trace s) (RegionID inst) (InstanceID inst)
    = Ok "Stopped" →
  let n := Z.to_nat (RetryCount (cfg (mon s))) in
  (∀ j, (j < n)%nat → attemptResult env inst j (loopEntry env inst s) ≠ None) →
  let lastErr := match n with
                 | O => None
                 | S n' => attemptResult env inst n' (loopEntry env inst s)
                 end in
  let s' := snd (checkInstance inst s) in
  fst (checkInstance inst s) = lastErr ∧
  countEv isStart (trace s') = (countEv isStart (trace s) + n)%nat ∧
  countEv isStarted (trace s') = countEv isStarted (trace s) ∧
  countEv isStartFailed (trace s')
    = (countEv isStartFailed (trace s)
       + if hasNotifier (mon s) then 1 else 0)%nat ∧
  (hasNotifier (mon s) = true →
   ∃ res,
     ENotify (NotifyInstanceStartFailed (InstanceID inst) (InstanceName inst)
                (RegionID inst) (RetryCount (cfg (mon s))) lastErr) res
       ∈ trace s').
Proof.
  intros Hb Hq n Hfail. simpl.
  rewrite (checkInstance_stopped inst s Hb Hq).
  destruct (retryLoop_spec inst (retryStartTime env inst s) n 0 None
              (loopEntry env inst s)) as [_ Hloop].
  fold n. rewrite (Hloop Hfail).
  destruct (loopEntry_frame inst s) as (Hc & Hn & Hcnt).
  set (sn := afterAttempts env inst 0 n (loopEntry env inst s)).
  destruct (afterAttempts_frame isStart true inst n 0
              (loopEntry env inst s) quiet_isStart) as [Hm A1]; [done|].
  destruct (afterAttempts_frame isStarted false inst n 0
              (loopEntry env inst s) quiet_isStarted) as [_ A2]; [done|].
  destruct (afterAttempts_frame isStartFailed false inst n 0
              (loopEntry env inst s) quiet_isStartFailed) as [_ A3]; [done|].
  fold sn in Hm, A1, A2, A3.
  rewrite (Hcnt isStart quiet_isStart) in A1 by done.
  rewrite (Hcnt isStarted quiet_isStarted) in A2 by done.
  rewrite (Hcnt isStartFailed quiet_isStartFailed) in A3 by done.
  match goal with
  | |- context [reportFailed env inst ?e sn] =>
      destruct (reportFailed_spec inst e sn) as (R0 & _ & R1 & R2 & R3 & R4)
  end.
  rewrite Hm, Hn in R3. rewrite Hm, Hn, Hc in R4.
  split_and!; [ | lia | lia | lia | ].
  - rewrite R0. by destruct n.
  - intros Hnot. destruct (R4 Hnot) as [res Hres]. exists res.
    by destruct n.
Qed.


(** *** Cooldown *)

Lemma retryEntry_alert inst s :
  retryEntry env inst s = snd (alertReclaimed env inst (stoppedSeen env inst s)).
Proof.
  unfold retryEntry, stoppedSeen, GetInstanceStatus. run_monad.
  by destruct (alertReclaimed env inst _).
Qed.

Lemma canNotify_spec k s :
  fst (canNotify env k s)
  = match lastNotify (mon s) !! k with
    | None => true
    | Some t => (cooldownWindow (mon s) <? Since (clock env (trace s)) t)%Z
    end.
Proof.
  unfold canNotify, now, cooldownWindow. run_monad.
  by destruct (lastNotify (mon s) !! k).
Qed.

(** A trigger that the cooldown allows: the alert is sent if there is a
    notifier, and the timestamp is recorded whatever the notifier says. *)
Lemma alertReclaimed_allowed inst s :
  fst (canNotify env (InstanceID inst) s) = true →
  let s1 := snd (alertReclaimed env inst s) in
  (∃ pre post, trace s1 = (pre ++ ENow (clock env pre) :: post)%list ∧
               lastNotify (mon s1) !! InstanceID inst = Some (clock env pre)) ∧
  cfg (mon s1) = cfg (mon s) ∧
  hasNotifier (mon s1) = hasNotifier (mon s) ∧
  countEv isStart (trace s1) = countEv isStart (trace s) ∧
  countEv isReclaimed (trace s1)
    = (countEv isReclaimed (trace s) + if hasNotifier (mon s) then 1 else 0)%nat.
Proof.
  unfold alertReclaimed, canNotify, updateNotifyTime, now, notify. run_monad.
  destruct (lastNotify (mon s) !! InstanceID inst) as [lastTime|]; simpl;
    [intros ->; simpl | intros _];
    destruct (hasNotifier (mon s)) eqn:Hn; simpl;
    try match goal with
    | |- context [notifierSend env ?tr ?n] => destruct (notifierSend env tr n)
    end; simpl; rewrite ?Hn, ?countEv_app; simpl;
    (split_and!; [ | done | done | lia | lia]);
    match goal with
    | |- ∃ _ _, (?pre ++ [ENow _])%list = _ ∧ _ => exists pre, []
    end; (split; [done|]); apply lookup_insert_eq.
Qed.

(** A trigger inside the cooldown: nothing is sent, nothing is recorded. *)
Lemma alertReclaimed_suppressed inst s :
  fst (canNotify env (InstanceID inst) s) = false →
  let s1 := snd (alertReclaimed env inst s) in
  mon s1 = mon s ∧
  countEv isReclaimed (trace s1) = countEv isReclaimed (trace s).
Proof.
  unfold alertReclaimed, canNotify, updateNotifyTime, now, notify. run_monad.
  destruct (lastNotify (mon s) !! InstanceID inst) as [lastTime|]; simpl;
    [intros ->; simpl | discriminate].
  rewrite !countEv_app. simpl. split; [done|lia].
Qed.


End EngineFacts.

(** ** Discovery and reconciliation *)

Section DiscoveryFacts.

Variable env : Env.

Lemma scanRegions_frame p fuel : ∀ pending total scanned acc s,
  scanBlind p →
  mon (snd (scanRegions env fuel pending total scanned acc s)) = mon s ∧
  countEv p (trace (snd (scanRegions env fuel pending total scanned acc s)))
    = countEv p (trace s).
Proof.
  induction fuel as [|fuel IH]; intros pending total scanned acc s Hp;
    simpl; [done|].
  pose proof Hp as (HL & _ & _ & HG). run_monad.
  destruct (pending !! _) as [regionID|]; simpl; [|done].
  destruct (ecsGetSpotInstances env (trace s) regionID) as [found|e]; simpl.
  - destruct (0 <? Z.of_nat (length found))%Z; simpl;
      match goal with
      | |- context [scanRegions env fuel ?a ?b ?c ?d ?s0] =>
          destruct (IH a b c d s0 Hp) as [I1 I2]; rewrite I1, I2
      end; simpl; rewrite !countEv_app; simpl; rewrite HL, HG;
      (split; [done|lia]).
  - match goal with
    | |- context [scanRegions env fuel ?a ?b ?c ?d ?s0] =>
        destruct (IH a b c d s0 Hp) as [I1 I2]; rewrite I1, I2
    end; simpl; rewrite !countEv_app; simpl; rewrite HL, HG;
    (split; [done|lia]).
Qed.

(** Discovery never touches the monitor and sends nothing. *)
Lemma DiscoverAllSpotInstances_frame p s :
  scanBlind p →
  mon (snd (DiscoverAllSpotInstances env s)) = mon s ∧
  countEv p (trace (snd (DiscoverAllSpotInstances env s)))
    = countEv p (trace s).
Proof.
  intros Hp. pose proof Hp as (HL & HN & HR & _).
  unfold DiscoverAllSpotInstances, now. run_monad.
  destruct (ecsGetAllRegions env _) as [regions|e]; simpl.
  - match goal with
    | |- context [scanRegions env ?f ?a ?b ?c ?d ?s0] =>
        destruct (scanRegions_frame p f a b c d s0 Hp) as [I1 I2];
        destruct (scanRegions env f a b c d s0) as [all s1]
    end. simpl in *. rewrite I1, !countEv_app, I2, !countEv_app. simpl.
    rewrite !HL, !HN, HR. split; [done|lia].
  - rewrite !countEv_app. simpl. rewrite HL, HR. split; [done|lia].
Qed.

Lemma idMap_lookup l k :
  mapGet (idMap l) k = bool_decide (k ∈ ids l).
Proof.
  unfold mapGet, idMap, ids.
  assert (H : ∀ (acc : gmap string bool),
            default false (foldl (λ mp inst, <[InstanceID inst:=true]> mp) acc l !! k)
            = bool_decide (k ∈ map InstanceID l) || default false (acc !! k)).
  { induction l as [|x l IH]; intros acc.
    - simpl foldl. case_bool_decide as Hin; [|done].
      by apply elem_of_nil in Hin.
    - simpl foldl. rewrite IH. rewrite fmap_cons.
      destruct (decide (k = InstanceID x)) as [->|Hne].
      + rewrite lookup_insert_eq. simpl.
        rewrite (bool_decide_eq_true_2 (_ ∈ _ :: _)); [|apply list_elem_of_here].
        by rewrite orb_true_r.
      + rewrite lookup_insert_ne by done.
        f_equal. apply bool_decide_ext. rewrite elem_of_cons.
        split; [by right | intros [?|?]; done]. }
  rewrite H, lookup_empty. simpl. by rewrite orb_false_r.
Qed.

(** A loop that only logs, under a test, appends the lines of the elements
    that pass the test. *)
Lemma forEach_log {A} (test : A → bool) (line : A → Event) l
    (body : A → M unit) s :
  (∀ x s0, body x s0
           = (tt, {| mon := mon s0;
                     trace := (trace s0 ++ if test x then [line x] else [])%list |})) →
  forEach l body s
  = (tt, {| mon := mon s;
            trace := (trace s ++ map line (List.filter test l))%list |}).
Proof.
  intros Hbody. revert s. induction l as [|x l IH]; intros s; simpl.
  - unfold ret. destruct s. simpl. by rewrite app_nil_r.
  - unfold bind. rewrite Hbody, IH. simpl.
    destruct (test x); simpl; by rewrite <- ?app_assoc, ?app_nil_r.
Qed.

Lemma refreshInstances_ok s discovered s1 :
  DiscoverAllSpotInstances env s = (Ok discovered, s1) →
  refreshInstances env s
  = (None,
     {| mon := setInstances discovered (mon s);
        trace := (trace s1
                    ++ map addedLog (notIn (instances (mon s)) discovered)
                    ++ map removedLog (notIn discovered (instances (mon s))))%list |}).
Proof.
  intros Hd. destruct (DiscoverAllSpotInstances_frame (λ _, false) s) as [Hm _];
    [done|]. rewrite Hd in Hm. simpl in Hm.
  unfold refreshInstances. unfold bind at 1. rewrite Hd.
  unfold bind at 1. unfold getMon at 1.
  unfold bind at 1.
  rewrite (forEach_log
             (λ inst, negb (mapGet (idMap (instances (mon s1))) (InstanceID inst)))
             addedLog).
  2:{ intros x s0. unfold when, log, emit, ret, addedLog.
      destruct (negb _); simpl; [done|]. destruct s0. simpl. by rewrite app_nil_r. }
  unfold bind at 1.
  rewrite (forEach_log
             (λ inst, negb (mapGet (idMap discovered) (InstanceID inst)))
             removedLog).
  2:{ intros x s0. unfold when, log, emit, ret, removedLog.
      destruct (negb _); simpl; [done|]. destruct s0. simpl. by rewrite app_nil_r. }
  run_monad. rewrite Hm. unfold notIn. rewrite <- app_assoc.
  do 4 f_equal; f_equal; apply filter_ext; intros x; by rewrite idMap_lookup.
Qed.

Lemma refreshInstances_err s e s1 :
  DiscoverAllSpotInstances env s = (Err e, s1) →
  refreshInstances env s
  = (Some (wrapErr "failed to discover instances" e), s1) ∧ mon s1 = mon s.
Proof.
  intros Hd. destruct (DiscoverAllSpotInstances_frame (λ _, false) s) as [Hm _];
    [done|]. rewrite Hd in Hm. simpl in Hm.
  unfold refreshInstances, bind. by rewrite Hd.
Qed.

Lemma queried_app (a b : Trace) :
  queried (a ++ b)%list = (queried a ++ queried b)%list.
Proof.
  induction a as [|e a IH]; simpl; [done|]. destruct e; simpl; by rewrite ?IH.
Qed.

Lemma found_app (a b : Trace) :
  found (a ++ b)%list = (found a ++ found b)%list.
Proof.
  induction a as [|e a IH]; simpl; [done|].
  destruct e; simpl; rewrite ?IH; try done.
  match goal with r : result (list SpotInstance) |- _ => destruct r end;
    by rewrite <- ?app_assoc.
Qed.

(** The scan asks every pending region exactly once, in the order the
    scheduler picks, and returns what it was given followed by the
    successful answers in that order. *)
Lemma scanRegions_spec fuel : ∀ pending total scanned acc s,
  length pending = fuel →
  ∃ new,
    trace (snd (scanRegions env fuel pending total scanned acc s))
      = (trace s ++ new)%list ∧
    queried new ≡ₚ pending ∧
    fst (scanRegions env fuel pending total scanned acc s)
      = (acc ++ found new)%list.
Proof.
  induction fuel as [|fuel IH]; intros pending total scanned acc s Hlen.
  - destruct pending; [|done]. exists []. simpl.
    by rewrite !app_nil_r.
  - simpl. run_monad.
    set (i := (goPick env (trace s) `mod` length pending)%nat).
    assert (Hi : (i < length pending)%nat).
    { subst i. apply Nat.mod_upper_bound. lia. }
    destruct (lookup_lt_is_Some_2 pending i Hi) as [regionID Hr].
    rewrite Hr. simpl.
    assert (Hperm : regionID :: delete i pending ≡ₚ pending)
      by (symmetry; by apply delete_Permutation).
    assert (Hlen' : length (delete i pending) = fuel).
    { apply Permutation_length in Hperm. simpl in Hperm. lia. }
    destruct (ecsGetSpotInstances env (trace s) regionID) as [l|e] eqn:Hq; simpl.
    + destruct (0 <? Z.of_nat (length l))%Z eqn:Hpos; simpl;
        match goal with
        | |- context [scanRegions env fuel ?a ?b ?c ?d ?s0] =>
            destruct (IH a b c d s0 Hlen') as (new & T & Q & F);
            rewrite T, F
        end; simpl.
      * exists (EGetSpotInstances regionID (Ok l)
                  :: ELog LInfo "[%d/%d] Region %s: found %d spot instance(s)"
                       [AInt (scanned + 1); AInt total; AStr regionID;
                        AInt (Z.of_nat (length l))]
                  :: new).
        simpl. rewrite <- !app_assoc. simpl.
        split_and!; [done | by rewrite Q | done].
      * exists (EGetSpotInstances regionID (Ok l)
                  :: ELog LDebug "[%d/%d] Region %s: no spot instances"
                       [AInt (scanned + 1); AInt total; AStr regionID]
                  :: new).
        simpl. rewrite <- !app_assoc. simpl.
        split_and!; [done | by rewrite Q | ].
        apply Z.ltb_ge in Hpos. destruct l; [done|]. simpl length in Hpos. lia.
    + match goal with
      | |- context [scanRegions env fuel ?a ?b ?c ?d ?s0] =>
          destruct (IH a b c d s0 Hlen') as (new & T & Q & F);
          rewrite T, F
      end; simpl.
      exists (EGetSpotInstances regionID (Err e)
                :: ELog LDebug "[%d/%d] Region %s: error - %v"
                     [AInt (scanned + 1); AInt total; AStr regionID;
                      AErr (Some e)]
                :: new).
      simpl. rewrite <- !app_assoc. simpl.
      split_and!; [done | by rewrite Q | done].
Qed.

(** A successful discovery returns the concatenation of the per-region
    answers; each region of the list is asked once. *)
Lemma DiscoverAllSpotInstances_spec s all s1 :
  DiscoverAllSpotInstances env s = (Ok all, s1) →
  ∃ regions new,
    trace s1 = (trace s ++ new)%list ∧
    EGetAllRegions (Ok regions) ∈ new ∧
    queried new ≡ₚ regions ∧
    all = found new.
Proof.
  unfold DiscoverAllSpotInstances, now. run_monad.
  destruct (ecsGetAllRegions env _) as [regions|e] eqn:Hr; simpl; [|done].
  match goal with
  | |- context [scanRegions env ?f ?a ?b ?c ?d ?s0] =>
      destruct (scanRegions_spec f a b c d s0 eq_refl) as (new & T & Q & F);
      destruct (scanRegions env f a b c d s0) as [res s2]
  end. simpl in *. intros [= <- <-]. simpl. subst res.
  exists regions. eexists. rewrite T. rewrite <- !app_assoc. simpl.
  split; [reflexivity|]. split_and!.
  - do 1 apply list_elem_of_further. apply list_elem_of_here.
  - simpl. rewrite queried_app. simpl. by rewrite app_nil_r.
  - simpl. rewrite found_app. simpl. by rewrite app_nil_r.
Qed.

Lemma DiscoverInstances_ok s discovered s1 :
  DiscoverAllSpotInstances env s = (Ok discovered, s1) →
  ∃ tr, DiscoverInstances env s
        = (None, {| mon := setInstances discovered (mon s); trace := tr |}).
Proof.
  intros Hd. destruct (DiscoverAllSpotInstances_frame (λ _, false) s) as [Hm _];
    [done|]. rewrite Hd in Hm. simpl in Hm.
  unfold DiscoverInstances. unfold bind at 1. rewrite Hd.
  unfold bind at 1. unfold modifyMon at 1. unfold bind at 1. unfold log at 1.
  unfold emit at 1. unfold bind at 1.
  rewrite (forEach_log (λ _, true)
             (λ inst, ELog LInfo "  - %s (%s) in %s [%s]"
                        [AStr (InstanceName inst); AStr (InstanceID inst);
                         AStr (RegionID inst); AStr (Status inst)])).
  2:{ intros x s0. done. }
  unfold notify. run_monad. rewrite Hm.
  destruct (hasNotifier (mon s)); simpl; [|by eexists].
  destruct (0 <? Z.of_nat (length discovered))%Z; simpl; [|by eexists].
  destruct (notifierSend env _ _); by eexists.
Qed.

(** C9. A successful [DiscoverAllSpotInstances] asks every
    region of the region list once, in the order the scheduler runs the
    goroutines, and returns the concatenation of the successful answers
    with nothing removed; [refreshInstances] and [DiscoverInstances]
    install that list as the registry.  So the ids of the snapshot are
    pairwise distinct whenever the ids in the per-region answers are. *)
Theorem C9_snapshot_concatenates_region_results :
  ∀ (s : St) (all : list SpotInstance) (s1 : St),
    DiscoverAllSpotInstances env s = (Ok all, s1) →
    ∃ regions new,
      trace s1 = (trace s ++ new)%list ∧
      EGetAllRegions (Ok regions) ∈ new ∧
      queried new ≡ₚ regions ∧
      all = found new ∧
      instances (mon (snd (refreshInstances env s))) = all ∧
      instances (mon (snd (DiscoverInstances env s))) = all ∧
      (NoDup (ids (found new)) →
       NoDup (ids all) ∧
       NoDup (ids (instances (mon (snd (refreshInstances env s))))) ∧
       NoDup (ids (instances (mon (snd (DiscoverInstances env s)))))).
Proof.
  intros s all s1 Hd.
  destruct (DiscoverAllSpotInstances_spec s all s1 Hd)
    as (regions & new & T & R & Q & F).
  assert (H1 : instances (mon (snd (refreshInstances env s))) = all)
    by (by rewrite (refreshInstances_ok s all s1 Hd)).
  assert (H2 : instances (mon (snd (DiscoverInstances env s))) = all).
  { destruct (DiscoverInstances_ok s all s1 Hd) as [tr ->]. done. }
  exists regions, new. split_and!; try done.
  intros Hnd. rewrite H1, H2, F. done.
Qed.

End DiscoveryFacts.

Section ReconcileFacts.

Variable IsChinaMainlandRegion : string → bool.
Variable env : Env.

(** C5. [refreshInstances] replaces the registry in one step or not at all.
    When discovery succeeds it returns nil, the registry is exactly the
    discovered list (the rest of the monitor is untouched), and after the
    discovery the history gains one added line per discovered instance whose
    id was not tracked, then one removed line per tracked instance whose id
    was not discovered.  When discovery fails it returns the wrapped error
    and leaves the monitor as it was, and [Check] then runs its cycle over
    the previous registry. *)
Theorem C5_refresh_replaces_or_keeps_registry :
  ∀ (s : St),
    (∀ discovered s1,
       DiscoverAllSpotInstances env s = (Ok discovered, s1) →
       let s' := snd (refreshInstances env s) in
       fst (refreshInstances env s) = None ∧
       instances (mon s') = discovered ∧
       mon s' = setInstances discovered (mon s) ∧
       trace s'
       = (trace s1
            ++ map addedLog (notIn (instances (mon s)) discovered)
            ++ map removedLog (notIn discovered (instances (mon s))))%list) ∧
    (∀ e s1,
       DiscoverAllSpotInstances env s = (Err e, s1) →
       let err := wrapErr "failed to discover instances" e in
       fst (refreshInstances env s) = Some err ∧
       mon (snd (refreshInstances env s)) = mon s ∧
       Check IsChinaMainlandRegion env s
       = (forEach (instances (mon s)) (checkAndLog IsChinaMainlandRegion env) ;;
          ret None)
           {| mon := mon s;
              trace := (trace s1
                          ++ [ELog LWarn
                                "Failed to refresh instances, using cached list: %v"
                                [AErr (Some err)]])%list |}).
Proof.
  intros s. split.
  - intros discovered s1 Hd. rewrite (refreshInstances_ok env s discovered s1 Hd).
    simpl. done.
  - intros e s1 Hd. destruct (refreshInstances_err env s e s1 Hd) as [Hr Hm].
    rewrite Hr. simpl. split_and!; [done|done|].
    unfold Check. unfold bind at 1. rewrite Hr.
    unfold bind at 1. unfold log, emit. unfold bind at 1. unfold getMon.
    simpl. by rewrite Hm.
Qed.

End ReconcileFacts.

(** Tracking {A, B} and discovering {A, C}: the registry becomes [A; C],
    C is logged as added and B as removed.  When the region list cannot be
    fetched, the registry stays {A, B}. *)
Lemma C5_refresh_replaces_or_keeps_registry_witness :
  (instances (mon (snd (refreshInstances fleetEnv trackingAB))) = [instA; instC] ∧
   trace (snd (refreshInstances fleetEnv trackingAB))
   = (trace (snd (DiscoverAllSpotInstances fleetEnv trackingAB))
        ++ [addedLog instC; removedLog instB])%list) ∧
  (fst (refreshInstances outageEnv trackingAB)
   = Some "failed to discover instances: failed to describe regions: timeout" ∧
   mon (snd (refreshInstances outageEnv trackingAB)) = mon trackingAB).
Proof.
  assert (Hd : DiscoverAllSpotInstances fleetEnv trackingAB
               = (Ok [instA; instC],
                  snd (DiscoverAllSpotInstances fleetEnv trackingAB)))
    by (vm_compute; reflexivity).
  assert (He : DiscoverAllSpotInstances outageEnv trackingAB
               = (Err "failed to describe regions: timeout",
                  snd (DiscoverAllSpotInstances outageEnv trackingAB)))
    by (vm_compute; reflexivity).
  split.
  - destruct (C5_refresh_replaces_or_keeps_registry cnPrefixed fleetEnv
                trackingAB) as [H _].
    destruct (H _ _ Hd) as (_ & H1 & _ & H2).
    split; [exact H1|]. rewrite H2. f_equal.
  - destruct (C5_refresh_replaces_or_keeps_registry cnPrefixed outageEnv
                trackingAB) as [_ H].
    destruct (H _ _ He) as (H1 & H2 & _).
    split; [exact H1 | exact H2].
Defined.

(** ** Bulk shutdown *)

Section ShutdownFacts.

Variable IsChinaMainlandRegion : string → bool.
Variable GetRegionDisplayName : string → string.
Variable env : Env.

Lemma outsideGroup_inGroup g inst :
  outsideGroup IsChinaMainlandRegion (groupName g) inst
  = negb (inGroup IsChinaMainlandRegion g inst).
Proof.
  unfold outsideGroup. destruct g; simpl;
    by destruct (IsChinaMainlandRegion (RegionID inst)).
Qed.

Lemma statusAnswers_app (a b : Trace) :
  statusAnswers (a ++ b)%list = (statusAnswers a ++ statusAnswers b)%list.
Proof.
  induction a as [|e a IH]; simpl; [done|]. destruct e; simpl; by rewrite ?IH.
Qed.

Lemma stopCalls_app (a b : Trace) :
  stopCalls (a ++ b)%list = (stopCalls a ++ stopCalls b)%list.
Proof.
  induction a as [|e a IH]; simpl; [done|]. destruct e; simpl; by rewrite ?IH.
Qed.

Lemma notifications_app (a b : Trace) :
  notifications (a ++ b)%list = (notifications a ++ notifications b)%list.
Proof.
  induction a as [|e a IH]; simpl; [done|]. destruct e; simpl; by rewrite ?IH.
Qed.

Lemma quiet_notifications (tr : Trace) :
  notifications tr = [] → countEv isFailedSend tr = 0%nat.
Proof.
  induction tr as [|e tr IH]; [done|]. destruct e; simpl; try done.
Qed.

Lemma stopLoop_spec g l : ∀ acc s,
  let run := stopLoop IsChinaMainlandRegion GetRegionDisplayName env
               (groupName g) l acc s in
  ∃ new,
    trace (snd run) = (trace s ++ new)%list ∧
    mon (snd run) = mon s ∧
    notifications new = [] ∧
    let G := List.filter (inGroup IsChinaMainlandRegion g) l in
    let Q := statusAnswers new in
    let C := stopCalls new in
    let R := running G (map snd Q) in
    map fst Q = map (λ i, (RegionID i, InstanceID i)) G ∧
    map fst C = map (λ i, (RegionID i, InstanceID i, "StopCharging")) R ∧
    fst run = (acc ++ map (stoppedLine GetRegionDisplayName) (succeeded R (map snd C)))%list ∧
    countEv isErrorLog new
      = (failedQueries (map snd Q) + failedStops (map snd C))%nat.
Proof.
  induction l as [|inst l IH]; intros acc s.
  - exists []. simpl. by rewrite !app_nil_r.
  - simpl stopLoop. rewrite outsideGroup_inGroup. simpl List.filter.
    destruct (inGroup IsChinaMainlandRegion g inst) eqn:Hin; simpl negb.
    { unfold GetInstanceStatus, StopInstance. run_monad.
      destruct (ecsGetInstanceStatus env (trace s) (RegionID inst)
                  (InstanceID inst)) as [status|e] eqn:Hq; simpl.
      - destruct (String.eqb status "Running") eqn:Hrun; simpl.
        + destruct (ecsStopInstance env _ (RegionID inst) (InstanceID inst)
                      "StopCharging") as [err|] eqn:Hstop; simpl;
            match goal with
            | |- context [stopLoop _ _ env _ l ?a ?s0] =>
                destruct (IH a s0) as (new & T & Hm & N & Q & C & F & E);
                rewrite T, Hm, F
            end; simpl;
            (eexists (EGetInstanceStatus _ _ _ :: ELog _ _ _
                        :: EStopInstance _ _ _ _ :: _));
            (split; [rewrite <- !app_assoc; simpl; reflexivity|]);
            simpl; rewrite ?Hrun; simpl;
            unfold failedQueries, failedStops in *; simpl;
            rewrite ?N, ?Q, ?C, ?E, <- ?app_assoc; simpl;
            split_and!; try done; lia.
        + match goal with
          | |- context [stopLoop _ _ env _ l ?a ?s0] =>
              destruct (IH a s0) as (new & T & Hm & N & Q & C & F & E);
              rewrite T, Hm, F
          end; simpl.
          exists (EGetInstanceStatus (RegionID inst) (InstanceID inst)
                    (Ok status) :: new).
          split; [by rewrite <- !app_assoc|].
          simpl. rewrite Hrun. simpl.
          unfold failedQueries, failedStops in *. simpl.
          rewrite N, Q. split_and!; done.
      - match goal with
        | |- context [stopLoop _ _ env _ l ?a ?s0] =>
            destruct (IH a s0) as (new & T & Hm & N & Q & C & F & E);
            rewrite T, Hm, F
        end; simpl.
        eexists (EGetInstanceStatus _ _ _ :: ELog _ _ _ :: new).
        split; [rewrite <- !app_assoc; simpl; reflexivity|].
        simpl. unfold failedQueries, failedStops in *. simpl.
        rewrite N, Q, E. split_and!; done. }
    destruct (IH acc s) as (new & T & Hm & N & Q & C & F & E).
    exists new. split_and!; done.
Qed.

(** C6. A bulk shutdown of group [g] leaves the monitor
    unchanged and, over the registry snapshot taken at its start:
    - queries the status of exactly the instances of the group, once each,
      in registry order;
    - issues a stop command, with mode StopCharging, to exactly those of
      them whose status answer is Running;
    - writes one error-level log line per failed status query, per failed
      stop command and per failed notification, and no other;
    - sends one shutdown notification, listing the instances whose stop
      command returned nil, when a notifier is configured and that list is
      not empty, and sends nothing otherwise. *)
Theorem C6_bulk_shutdown_stops_running_group_members :
  ∀ (g : Group) (trafficGB limitGB : float) (s : St),
    let s' := snd (shutdownRegionInstances IsChinaMainlandRegion
                     GetRegionDisplayName env (groupName g) trafficGB limitGB s) in
    ∃ new,
      trace s' = (trace s ++ new)%list ∧
      mon s' = mon s ∧
      let G := List.filter (inGroup IsChinaMainlandRegion g) (instances (mon s)) in
      let Q := statusAnswers new in
      let C := stopCalls new in
      let R := running G (map snd Q) in
      let S := succeeded R (map snd C) in
      map fst Q = map (λ i, (RegionID i, InstanceID i)) G ∧
      map fst C = map (λ i, (RegionID i, InstanceID i, "StopCharging")) R ∧
      countEv isErrorLog new
        = (failedQueries (map snd Q) + failedStops (map snd C)
           + countEv isFailedSend new)%nat ∧
      notifications new
        = match S with
          | [] => []
          | _ :: _ =>
              if hasNotifier (mon s)
              then [NotifyTrafficShutdown (groupName g) trafficGB limitGB
                      (map (stoppedLine GetRegionDisplayName) S)]
              else []
          end.
Proof.
  intros g trafficGB limitGB s. unfold shutdownRegionInstances, notify.
  run_monad.
  destruct (stopLoop_spec g (instances (mon s)) [] s)
    as (new & T & Hm & N & Q & C & F & E).
  pose proof (quiet_notifications new N) as Hfs.
  destruct (stopLoop _ _ env (groupName g) (instances (mon s)) [] s)
    as [stopped s1]. simpl in *. subst stopped.
  destruct (succeeded _ _) as [|x S'] eqn:HS; simpl.
  - rewrite andb_false_r. simpl. exists new.
    rewrite HS, Hfs. split_and!; try done. lia.
  - rewrite andb_true_r. destruct (hasNotifier (mon s)) eqn:Hn; simpl.
    + destruct (notifierSend env (trace s1) _) as [err|] eqn:Hsend; simpl;
        eexists (new ++ ENotify _ _ :: _)%list;
        (split; [rewrite T, <- ?app_assoc; simpl; reflexivity|]);
        rewrite ?countEv_app, statusAnswers_app, stopCalls_app,
          notifications_app; simpl;
        rewrite !app_nil_r, HS, Hfs, E, N; simpl;
        (split_and!; try done; lia).
    + exists new. rewrite HS, Hfs. split_and!; try done. lia.
Qed.

End ShutdownFacts.

(** ** What the operations add to the history *)

Section Emission.

Variable p : Event → bool.

Lemma eam_ret {A} (a : A) : emitsAtMost p 0 (ret a).
Proof. intros s. exists []. simpl. by rewrite app_nil_r. Qed.

Lemma eam_bind {A B} n m (c : M A) (k : A → M B) :
  emitsAtMost p n c → (∀ a, emitsAtMost p m (k a)) →
  emitsAtMost p (n + m) (bind c k).
Proof.
  intros Hc Hk s. unfold bind. destruct (Hc s) as (new1 & T1 & C1).
  destruct (c s) as [a s1]. simpl in T1.
  destruct (Hk a s1) as (new2 & T2 & C2).
  exists (new1 ++ new2)%list. rewrite T2, T1, countEv_app, app_assoc.
  split; [done|lia].
Qed.

Lemma eam_bind0 {A B} (c : M A) (k : A → M B) :
  emitsAtMost p 0 c → (∀ a, emitsAtMost p 0 (k a)) →
  emitsAtMost p 0 (bind c k).
Proof. apply (eam_bind 0 0). Qed.

Lemma eam_weaken {A} n m (c : M A) :
  (n ≤ m)%nat → emitsAtMost p n c → emitsAtMost p m c.
Proof.
  intros Hnm Hc s. destruct (Hc s) as (new & T & C). exists new.
  split; [done|lia].
Qed.

Lemma eam_emit e : p e = false → emitsAtMost p 0 (emit e).
Proof. intros He s. exists [e]. simpl. rewrite He. split; [done|lia]. Qed.

Lemma eam_emit1 e : emitsAtMost p 1 (emit e).
Proof. intros s. exists [e]. simpl. split; [done|]. destruct (p e); lia. Qed.

Lemma eam_call {A} (q : Trace → A) (ev : A → Event) :
  (∀ a, p (ev a) = false) → emitsAtMost p 0 (call q ev).
Proof.
  intros He s. exists [ev (q (trace s))]. simpl. rewrite He. split; [done|lia].
Qed.

Lemma eam_call1 {A} (q : Trace → A) (ev : A → Event) :
  emitsAtMost p 1 (call q ev).
Proof.
  intros s. exists [ev (q (trace s))]. simpl. split; [done|].
  destruct (p _); lia.
Qed.

Lemma eam_ask {A} (q : Trace → A) : emitsAtMost p 0 (ask q).
Proof. intros s. exists []. simpl. by rewrite app_nil_r. Qed.

Lemma eam_getMon : emitsAtMost p 0 getMon.
Proof. intros s. exists []. simpl. by rewrite app_nil_r. Qed.

Lemma eam_modifyMon f : emitsAtMost p 0 (modifyMon f).
Proof. intros s. exists []. simpl. by rewrite app_nil_r. Qed.

Lemma eam_forEach {A} (l : list A) (body : A → M unit) :
  (∀ x, emitsAtMost p 0 (body x)) → emitsAtMost p 0 (forEach l body).
Proof.
  intros Hb. induction l as [|x l IH]; simpl.
  - apply eam_ret.
  - apply eam_bind0; [apply Hb | intros _; apply IH].
Qed.

End Emission.

(** One step of a proof that an operation appends nothing that [p] sees:
    follow the structure of the monadic term. *)
Ltac silent_step :=
  lazymatch goal with
  | |- emitsAtMost _ 0 (ret _) => apply eam_ret
  | |- emitsAtMost _ 0 (bind _ _) => apply eam_bind0; [|intros ?]
  | |- emitsAtMost _ 0 (emit _) => apply eam_emit; reflexivity
  | |- emitsAtMost _ 0 (log _ _ _) => apply eam_emit; reflexivity
  | |- emitsAtMost _ 0 (call _ _) => apply eam_call; intros; reflexivity
  | |- emitsAtMost _ 0 (ask _) => apply eam_ask
  | |- emitsAtMost _ 0 getMon => apply eam_getMon
  | |- emitsAtMost _ 0 (modifyMon _) => apply eam_modifyMon
  | |- emitsAtMost _ 0 (forEach _ _) => apply eam_forEach; intros ?
  | |- emitsAtMost _ 0 (when ?b _) => unfold when; destruct b
  | |- emitsAtMost _ 0 (if ?b then _ else _) => destruct b
  | |- emitsAtMost _ 0 (match ?x with _ => _ end) => destruct x
  | |- emitsAtMost _ 0 (let _ := _ in _) => cbv zeta
  end.

Ltac silent := repeat first [silent_step | solve [auto]].

Section MonitorStarted.

Variable IsChinaMainlandRegion : string → bool.
Variable GetRegionDisplayName : string → string.
Variable env : Env.

Local Abbreviation silently c := (emitsAtMost isMonitorStarted 0 c).

Lemma pollRunning_silent n r i : silently (pollRunning env n r i).
Proof.
  induction n as [|n IH]; simpl; unfold GetInstanceStatus; silent.
Qed.

Lemma attempt_silent inst i : silently (attempt env inst i).
Proof.
  unfold attempt, StartInstance, Sleep, waitForRunning.
  pose proof pollRunning_silent. silent.
Qed.

Lemma reportStarted_silent inst t0 : silently (reportStarted env inst t0).
Proof. unfold reportStarted, GetInstance, now, notify. silent. Qed.

Lemma reportFailed_silent inst e : silently (reportFailed env inst e).
Proof. unfold reportFailed, notify. silent. Qed.

Lemma retryLoop_silent n : ∀ i e inst t0, silently (retryLoop env n i e inst t0).
Proof.
  pose proof attempt_silent. pose proof reportStarted_silent.
  pose proof reportFailed_silent.
  induction n as [|n IH]; intros i e inst t0; simpl; silent.
Qed.

Lemma alertReclaimed_silent inst : silently (alertReclaimed env inst).
Proof.
  unfold alertReclaimed, canNotify, updateNotifyTime, now, notify. silent.
Qed.

Lemma checkInstance_silent inst :
  silently (checkInstance IsChinaMainlandRegion env inst).
Proof.
  pose proof alertReclaimed_silent. pose proof retryLoop_silent.
  unfold checkInstance, startWithRetries, GetInstanceStatus, now. silent.
Qed.

Lemma scanRegions_silent fuel : ∀ pending total scanned acc,
  silently (scanRegions env fuel pending total scanned acc).
Proof.
  induction fuel as [|fuel IH]; intros pending total scanned acc; simpl; silent.
Qed.

Lemma DiscoverAllSpotInstances_silent : silently (DiscoverAllSpotInstances env).
Proof.
  pose proof scanRegions_silent. unfold DiscoverAllSpotInstances, now. silent.
Qed.

Lemma refreshInstances_silent : silently (refreshInstances env).
Proof.
  pose proof DiscoverAllSpotInstances_silent. unfold refreshInstances. silent.
Qed.

Lemma Check_silent : silently (Check IsChinaMainlandRegion env).
Proof.
  pose proof refreshInstances_silent. pose proof checkInstance_silent.
  unfold Check, checkAndLog. silent.
Qed.

Lemma CheckTraffic_silent : silently (CheckTraffic env).
Proof. unfold CheckTraffic. silent. Qed.

Lemma stopLoop_silent region l : ∀ acc,
  silently (stopLoop IsChinaMainlandRegion GetRegionDisplayName env region l acc).
Proof.
  induction l as [|inst l IH]; intros acc; simpl;
    unfold GetInstanceStatus, StopInstance; silent.
Qed.

Lemma shutdownRegionInstances_silent region t l :
  silently (shutdownRegionInstances IsChinaMainlandRegion GetRegionDisplayName
              env region t l).
Proof.
  pose proof stopLoop_silent. unfold shutdownRegionInstances, notify. silent.
Qed.

Lemma runTask_silent t :
  silently (runTask IsChinaMainlandRegion GetRegionDisplayName env t).
Proof.
  pose proof Check_silent. pose proof CheckTraffic_silent.
  pose proof shutdownRegionInstances_silent.
  destruct t; simpl; silent.
Qed.

Lemma DiscoverInstances_at_most_once :
  emitsAtMost isMonitorStarted 1 (DiscoverInstances env).
Proof.
  unfold DiscoverInstances.
  apply (eam_bind _ 0 1); [apply DiscoverAllSpotInstances_silent|].
  intros [discovered|e]; [|apply (eam_weaken _ 0 1); [lia|apply eam_ret]].
  do 3 (apply (eam_bind _ 0 1); [silent|intros _]).
  apply (eam_bind _ 0 1); [silent|intros m].
  apply (eam_bind _ 1 0); [|intros _; silent].
  unfold when. destruct (_ && _); [|apply (eam_weaken _ 0 1); [lia|apply eam_ret]].
  unfold notify. apply (eam_bind _ 1 0); [apply eam_call1|].
  intros [e|]; silent.
Qed.

(** C7.  [refreshInstances], and with it every periodic [Check], appends no
    monitor-started notification to the history, whatever the difference
    between the old and the new registry; [DiscoverInstances] appends at
    most one; and in a run of the monitor (one [DiscoverInstances] at
    startup, then periodic tasks) everything after the startup discovery
    appends none. *)
Theorem C7_monitor_started_only_at_startup :
  (∀ s, ∃ new,
     trace (snd (refreshInstances env s)) = (trace s ++ new)%list ∧
     countEv isMonitorStarted new = 0%nat) ∧
  (∀ s, ∃ new,
     trace (snd (Check IsChinaMainlandRegion env s)) = (trace s ++ new)%list ∧
     countEv isMonitorStarted new = 0%nat) ∧
  (∀ s, ∃ new,
     trace (snd (DiscoverInstances env s)) = (trace s ++ new)%list ∧
     (countEv isMonitorStarted new ≤ 1)%nat) ∧
  (∀ tasks s, ∃ new,
     trace (snd (runMonitor IsChinaMainlandRegion GetRegionDisplayName env
                   tasks s))
       = (trace (snd (DiscoverInstances env s)) ++ new)%list ∧
     countEv isMonitorStarted new = 0%nat).
Proof.
  split_and!.
  - intros s. destruct (refreshInstances_silent s) as (new & T & C).
    exists new. split; [done|lia].
  - intros s. destruct (Check_silent s) as (new & T & C).
    exists new. split; [done|lia].
  - apply DiscoverInstances_at_most_once.
  - intros tasks s. unfold runMonitor, bind.
    destruct (DiscoverInstances env s) as [r s0]. simpl.
    destruct (eam_forEach isMonitorStarted tasks
                (runTask IsChinaMainlandRegion GetRegionDisplayName env)
                runTask_silent s0) as (new & T & C).
    exists new. split; [done|lia].
Qed.

End MonitorStarted.

Lemma C3_not_stopped_is_noop_witness :
  fst (checkInstance cnPrefixed runningEnv i001 idleState) = None ∧
  mon (snd (checkInstance cnPrefixed runningEnv i001 idleState)) = mon idleState ∧
  countEv isStart (trace (snd (checkInstance cnPrefixed runningEnv i001 idleState)))
    = countEv isStart (trace idleState).
Proof.
  destruct (C3_not_stopped_is_noop cnPrefixed runningEnv i001 idleState)
    as [_ H].
  apply (H eq_refl "Running"); [reflexivity | discriminate].
Defined.

(** ** Traffic budget enforcer *)

Section LatchFacts.

Variable env : Env.

Lemma CheckTraffic_observed g s t :
  enforcing s → trafficSeen env s = Ok t →
  let above := fge (observedGB g t) (budget g (cfg (mon s))) in
  let s' := snd (CheckTraffic env s) in
  cfg (mon s') = cfg (mon s) ∧
  hasTrafficClient (mon s') = hasTrafficClient (mon s) ∧
  latch g (mon s') = above ∧
  launches g (trace s')
    = (launches g (trace s)
       + if above && negb (latch g (mon s)) then 1 else 0)%nat.
Proof.
  intros [Hc He] Hq. unfold trafficSeen in Hq.
  unfold CheckTraffic, bind, getMon, call, log, emit, launches. simpl.
  rewrite Hc, He. simpl. rewrite Hq. simpl.
  destruct (fge (ChinaMainlandGB t) (TrafficLimitChinaGB (cfg (mon s)))) eqn:H1;
    destruct (chinaShutdown (mon s)) eqn:L1; simpl;
    destruct (fge (NonChinaMainlandGB t) (TrafficLimitNonChinaGB (cfg (mon s))))
      eqn:H2;
    destruct (nonChinaShutdown (mon s)) eqn:L2; simpl;
    destruct g; simpl; rewrite ?H1, ?H2, ?L1, ?L2; simpl;
    rewrite ?countEv_app; simpl; split_and!; try done; lia.
Qed.

Lemma CheckTraffic_unobserved g s e :
  trafficSeen env s = Err e →
  let s' := snd (CheckTraffic env s) in
  mon s' = mon s ∧ launches g (trace s') = launches g (trace s).
Proof.
  intros Hq. unfold trafficSeen in Hq.
  unfold CheckTraffic, bind, getMon, call, log, emit, launches. simpl.
  destruct (hasTrafficClient (mon s)); simpl; [|done].
  destruct (TrafficShutdownEnabled (cfg (mon s))); simpl; [|done].
  rewrite Hq. simpl. rewrite !countEv_app. simpl. split; [done|lia].
Qed.

Lemma enforcing_step s t :
  enforcing s → trafficSeen env s = Ok t → enforcing (snd (CheckTraffic env s)).
Proof.
  intros H Hq. destruct (CheckTraffic_observed China s t H Hq) as (Hc & Ht & _).
  destruct H as [H1 H2]. unfold enforcing. by rewrite Hc, Ht.
Qed.

(** While every invocation observes the group at or above budget, a set
    latch stays set and nothing is launched. *)
Lemma latched_stays g n s :
  enforcing s → throughout env (seesAbove env g) n s →
  latch g (mon s) = true →
  latch g (mon (checks env n s)) = true ∧
  launches g (trace (checks env n s)) = launches g (trace s).
Proof.
  revert s. induction n as [|n IH]; intros s Hen Hall Hl; simpl; [done|].
  destruct Hall as [(t & Hq & Hab) Hall].
  destruct (CheckTraffic_observed g s t Hen Hq) as (_ & _ & Hl' & Hn).
  rewrite Hab in Hl', Hn. rewrite Hl in Hn. simpl in Hn.
  destruct (IH _ (enforcing_step s t Hen Hq) Hall Hl') as [IH1 IH2].
  split; [done|]. rewrite IH2, Hn. lia.
Qed.

(** A clear latch stays clear, with nothing launched, through invocations
    that do not observe the group at or above budget. *)
Lemma clear_stays g n s :
  enforcing s → throughout env (notAbove env g) n s →
  latch g (mon s) = false →
  enforcing (checks env n s) ∧
  latch g (mon (checks env n s)) = false ∧
  launches g (trace (checks env n s)) = launches g (trace s).
Proof.
  revert s. induction n as [|n IH]; intros s Hen Hall Hl; simpl; [done|].
  destruct Hall as [[(t & Hq & Hlt)|(e & Hq)] Hall].
  - destruct (CheckTraffic_observed g s t Hen Hq) as (_ & _ & Hl' & Hn).
    rewrite (flt_not_fge _ _ Hlt) in Hl', Hn. simpl in Hn.
    destruct (IH _ (enforcing_step s t Hen Hq) Hall Hl') as (? & ? & IH2).
    split_and!; [done|done|]. rewrite IH2, Hn. lia.
  - destruct (CheckTraffic_unobserved g s e Hq) as [Hm Hn].
    assert (Hen' : enforcing (snd (CheckTraffic env s))).
    { unfold enforcing. by rewrite Hm. }
    assert (Hl' : latch g (mon (snd (CheckTraffic env s))) = false).
    { by rewrite Hm. }
    destruct (IH _ Hen' Hall Hl') as (? & ? & IH2).
    split_and!; [done|done|]. by rewrite IH2.
Qed.

(** C1. Edge-triggered shutdown, for either group [g].
    (1) From a clear latch, any non-empty run of invocations that all
        observe the group at or above budget launches the bulk shutdown
        exactly once and ends with the latch set.
    (2) From a set latch such a run launches nothing and keeps the latch.
    (3) An invocation that observes the group strictly below budget leaves
        the latch clear and launches nothing; after it, through any number
        of invocations that do not observe the group at or above budget,
        the first invocation that does launches the shutdown again and
        sets the latch. *)
Theorem C1_shutdown_on_rising_edge_only :
  ∀ (g : Group) (s : St),
    enforcing s →
    (∀ n, throughout env (seesAbove env g) (S n) s →
          latch g (mon s) = false →
          latch g (mon (checks env (S n) s)) = true ∧
          launches g (trace (checks env (S n) s))
            = S (launches g (trace s))) ∧
    (∀ n, throughout env (seesAbove env g) n s →
          latch g (mon s) = true →
          latch g (mon (checks env n s)) = true ∧
          launches g (trace (checks env n s)) = launches g (trace s)) ∧
    (seesBelow env g s →
       let s1 := snd (CheckTraffic env s) in
       latch g (mon s1) = false ∧
       launches g (trace s1) = launches g (trace s) ∧
       ∀ k, throughout env (notAbove env g) k s1 →
            let s2 := checks env k s1 in
            seesAbove env g s2 →
            launches g (trace s2) = launches g (trace s) ∧
            latch g (mon (snd (CheckTraffic env s2))) = true ∧
            launches g (trace (snd (CheckTraffic env s2)))
              = S (launches g (trace s))).
Proof.
  intros g s Hen. split_and!.
  - intros n [(t & Hq & Hab) Hall] Hl. simpl.
    destruct (CheckTraffic_observed g s t Hen Hq) as (_ & _ & Hl' & Hn).
    rewrite Hab in Hl', Hn. rewrite Hl in Hn. simpl in Hn.
    destruct (latched_stays g n _ (enforcing_step s t Hen Hq) Hall Hl')
      as [H1 H2].
    split; [done|]. rewrite H2, Hn. lia.
  - intros n Hall Hl. by apply latched_stays.
  - intros (t & Hq & Hlt). simpl.
    destruct (CheckTraffic_observed g s t Hen Hq) as (_ & _ & Hl' & Hn).
    rewrite (flt_not_fge _ _ Hlt) in Hl', Hn. simpl in Hn.
    split_and!; [done|lia|].
    intros k Hall (t2 & Hq2 & Hab2).
    destruct (clear_stays g k _ (enforcing_step s t Hen Hq) Hall Hl')
      as (Hen2 & Hl2 & Hn2).
    destruct (CheckTraffic_observed g _ t2 Hen2 Hq2) as (_ & _ & Hl3 & Hn3).
    rewrite Hab2 in Hl3, Hn3. rewrite Hl2 in Hn3. simpl in Hn3.
    split_and!; [lia|done|lia].
Qed.

End LatchFacts.

Lemma C1_shutdown_on_rising_edge_only_witness :
  (latch China (mon (checks monthRolloverEnv 1 idleState)) = true ∧
   launches China (trace (checks monthRolloverEnv 1 idleState)) = 1%nat) ∧
  (let s := checks monthRolloverEnv 1 idleState in
   let s1 := snd (CheckTraffic monthRolloverEnv s) in
   latch China (mon s1) = false ∧
   launches China (trace s1) = 1%nat ∧
   launches China (trace (snd (CheckTraffic monthRolloverEnv s1))) = 2%nat).
Proof.
  assert (Hen0 : enforcing idleState) by (split; reflexivity).
  assert (Hen1 : enforcing (checks monthRolloverEnv 1 idleState))
    by (split; reflexivity).
  split.
  - destruct (C1_shutdown_on_rising_edge_only monthRolloverEnv China
                idleState Hen0) as (H & _ & _).
    apply (H 0%nat); [|reflexivity].
    split; [|exact I].
    exists {| ChinaMainlandGB := 20%float; NonChinaMainlandGB := 1%float |}.
    split; vm_compute; reflexivity.
  - destruct (C1_shutdown_on_rising_edge_only monthRolloverEnv China
                (checks monthRolloverEnv 1 idleState) Hen1) as (_ & _ & H).
    destruct H as (H1 & H2 & H3).
    { exists {| ChinaMainlandGB := 5%float; NonChinaMainlandGB := 1%float |}.
      split; vm_compute; reflexivity. }
    split_and!; [exact H1 | exact H2 |].
    destruct (H3 0%nat I) as (_ & _ & H4); [|exact H4].
    exists {| ChinaMainlandGB := 20%float; NonChinaMainlandGB := 1%float |}.
    split; vm_compute; reflexivity.
Defined.





(** Discovering A in one region and C in another gives a registry without
    repeated ids. *)
Lemma C9_snapshot_concatenates_region_results_witness :
  instances (mon (snd (refreshInstances fleetEnv idleState))) = [instA; instC] ∧
  NoDup (ids (instances (mon (snd (refreshInstances fleetEnv idleState))))).
Proof.
  assert (Hd : DiscoverAllSpotInstances fleetEnv idleState
               = (Ok [instA; instC],
                  snd (DiscoverAllSpotInstances fleetEnv idleState)))
    by (vm_compute; reflexivity).
  destruct (C9_snapshot_concatenates_region_results fleetEnv idleState _ _ Hd)
    as (regions & new & _ & _ & _ & F & H1 & _ & Hnd).
  split; [exact H1|].
  apply Hnd. rewrite <- F. vm_compute.
  apply NoDup_cons. split; [|apply NoDup_singleton].
  intros Hin. apply list_elem_of_singleton in Hin. discriminate.
Defined.

(** When a region's answer repeats an instance, the discovery result and
    the registry installed from it repeat the id. *)
Lemma C9_counterexample_repeated_id :
  fst (DiscoverAllSpotInstances pageShiftEnv idleState)
    = Ok [instA; instB; instA] ∧
  instances (mon (snd (refreshInstances pageShiftEnv idleState)))
    = [instA; instB; instA] ∧
  ¬ NoDup (ids (instances (mon (snd (refreshInstances pageShiftEnv idleState))))).
Proof.
  split_and!.
  - vm_compute. reflexivity.
  - vm_compute. reflexivity.
  - assert (E : ids (instances (mon (snd (refreshInstances pageShiftEnv idleState))))
                = ["i-A"; "i-B"; "i-A"]) by (vm_compute; reflexivity).
    rewrite E. intros Hnd. apply NoDup_cons in Hnd as [Hnin _].
    apply Hnin. apply list_elem_of_further, list_elem_of_here.
Qed.

(** The scenario of the China group over budget with i-001 Running: one
    stop, one notification listing i-001. *)
Lemma C6_bulk_shutdown_stops_running_group_members_witness :
  let s' := snd (shutdownRegionInstances cnPrefixed (λ r, r) runningEnv
                   "china" 20%float 19%float (trackingI001 newMonitor)) in
  stopCalls (trace s') = [(("cn-hangzhou", "i-001", "StopCharging"), None)] ∧
  notifications (trace s')
  = [NotifyTrafficShutdown "china" 20%float 19%float
       ["web (i-001) - cn-hangzhou"]].
Proof.
  cbv zeta.
  destruct (C6_bulk_shutdown_stops_running_group_members cnPrefixed (λ r, r)
              runningEnv China 20%float 19%float (trackingI001 newMonitor))
    as (new & T & _ & _ & _ & _ & Hn).
  change (trace (trackingI001 newMonitor) ++ new)%list with new in T.
  change (groupName China) with "china" in *.
  cbv zeta in Hn. rewrite <- T in Hn. split.
  - vm_compute. reflexivity.
  - rewrite Hn. vm_compute. reflexivity.
Defined.

(** The China group over budget while its only instance is already
    stopped: nothing is stopped and no notification is sent. *)
Lemma C6_counterexample_nothing_to_stop :
  let s' := snd (shutdownRegionInstances cnPrefixed (λ r, r) (reclaimEnv 0)
                   "china" 20%float 19%float (trackingI001 newMonitor)) in
  inGroup cnPrefixed China i001 = true ∧
  map snd (statusAnswers (trace s')) = [Ok "Stopped"] ∧
  stopCalls (trace s') = [] ∧
  notifications (trace s') = [].
Proof. cbv zeta. split_and!; vm_compute; reflexivity. Qed.

(** A run that discovers two instances and then checks the fleet, checks
    the traffic and checks the fleet again sends one monitor-started
    notification, the one of the startup discovery. *)
Lemma C7_monitor_started_only_at_startup_witness :
  countEv isMonitorStarted
    (trace (snd (runMonitor cnPrefixed (λ r, r) fleetEnv
                   [FleetCheck; TrafficCheck; FleetCheck] idleState)))
  = 1%nat.
Proof.
  destruct (C7_monitor_started_only_at_startup cnPrefixed (λ r, r) fleetEnv)
    as (_ & _ & _ & H).
  destruct (H [FleetCheck; TrafficCheck; FleetCheck] idleState)
    as (new & T & C).
  rewrite T, countEv_app, C.
  assert (E : countEv isMonitorStarted
                (trace (snd (DiscoverInstances fleetEnv idleState))) = 1%nat)
    by (vm_compute; reflexivity).
  rewrite E. reflexivity.
Defined.

(** * Further properties of the monitor *)

(** ** Waiting for Running *)

Section WaitFacts.

Variable env : Env.

Lemma pollRunning_outcome n regionID instanceID : ∀ s,
  let r := fst (pollRunning env n regionID instanceID s) in
  let s' := snd (pollRunning env n regionID instanceID s) in
  ∃ new,
    trace s' = (trace s ++ new)%list ∧
    Forall (λ q, fst q = (regionID, instanceID)) (statusAnswers new) ∧
    countEv isCloudCall new = length (statusAnswers new) ∧
    ((r = None ∧
      ∃ before, map snd (statusAnswers new) = (before ++ [Ok "Running"])%list ∧
                Forall (λ a, saysRunning a = false) before ∧
                (length before < n)%nat) ∨
     (r = Some "timeout waiting for instance to start" ∧
      length (statusAnswers new) = n ∧
      Forall (λ a, saysRunning a = false) (map snd (statusAnswers new)))).
Proof.
  induction n as [|n IH]; intros s.
  - exists []. simpl. rewrite app_nil_r. split_and!; try done.
    right. split_and!; done.
  - simpl pollRunning. unfold GetInstanceStatus. run_monad.
    destruct (ecsGetInstanceStatus env (trace s) regionID instanceID)
      as [status|e] eqn:Hq; simpl.
    + destruct (String.eqb status "Running") eqn:Hrun; simpl.
      * apply String.eqb_eq in Hrun. subst status.
        exists [EGetInstanceStatus regionID instanceID (Ok "Running")].
        simpl. split_and!; try done.
        { by repeat constructor. }
        left. split; [done|]. exists []. split_and!; [done|done|simpl; lia].
      * match goal with
        | |- context [pollRunning env n _ _ ?s0] =>
            destruct (IH s0) as (new & T & K & CC & O)
        end.
        exists (EGetInstanceStatus regionID instanceID (Ok status)
                  :: ELog LDebug "Instance %s status: %s, waiting..."
                       [AStr instanceID; AStr status] :: new).
        split_and!;
          [rewrite T; simpl; by rewrite <- !app_assoc
          | by constructor | by simpl; rewrite CC |].
        destruct O as [(R & before & B & F & L)|(R & L & F)].
        -- left. split; [done|]. exists (Ok status :: before).
           simpl. rewrite B. split_and!; [done| |simpl; lia].
           constructor; [by simpl; rewrite Hrun|done].
        -- right. split_and!; [done|simpl; lia|].
           constructor; [by simpl; rewrite Hrun|done].
    + match goal with
      | |- context [pollRunning env n _ _ ?s0] =>
          destruct (IH s0) as (new & T & K & CC & O)
      end.
      exists (EGetInstanceStatus regionID instanceID (Err e)
                :: ELog LWarn "Failed to get instance status: %v"
                     [AErr (Some e)] :: new).
      split_and!;
        [rewrite T; simpl; by rewrite <- !app_assoc
        | by constructor | by simpl; rewrite CC |].
      destruct O as [(R & before & B & F & L)|(R & L & F)].
      * left. split; [done|]. exists (Err e :: before).
        simpl. rewrite B. split_and!; [done| |simpl; lia].
        by constructor.
      * right. split_and!; [done|simpl; lia|]. by constructor.
Qed.

(** X1. [waitForRunning] only polls the status of the instance it was
    given, at most as many times as the timer lets it, and calls no other
    cloud API.  It returns nil exactly when a poll answers Running, at the
    first such answer; polls that fail or report another status are
    tolerated; when the ticks run out it returns the timeout error. *)
Theorem X1_waitForRunning_outcome :
  ∀ (regionID instanceID : string) (s : St),
    let n := timerTicks env (trace s) in
    let r := fst (waitForRunning env regionID instanceID s) in
    let s' := snd (waitForRunning env regionID instanceID s) in
    mon s' = mon s ∧
    ∃ new,
      trace s' = (trace s ++ new)%list ∧
      Forall (λ q, fst q = (regionID, instanceID)) (statusAnswers new) ∧
      countEv isCloudCall new = length (statusAnswers new) ∧
      ((r = None ∧
        ∃ before, map snd (statusAnswers new) = (before ++ [Ok "Running"])%list ∧
                  Forall (λ a, saysRunning a = false) before ∧
                  (length before < n)%nat) ∨
       (r = Some "timeout waiting for instance to start" ∧
        length (statusAnswers new) = n ∧
        Forall (λ a, saysRunning a = false) (map snd (statusAnswers new)))).
Proof.
  intros regionID instanceID s. unfold waitForRunning. run_monad.
  split.
  - by destruct (pollRunning_frame env (λ _, false)
                   (timerTicks env (trace s)) regionID instanceID s).
  - apply pollRunning_outcome.
Qed.

End WaitFacts.

(** ** What the engine leaves alone *)

Section EngineFrame.

Variable IsChinaMainlandRegion : string → bool.
Variable env : Env.

Lemma retryLoop_mon inst t0 n : ∀ i lastErr s,
  mon (snd (retryLoop env n i lastErr inst t0 s)) = mon s.
Proof.
  induction n as [|n IH]; intros i lastErr s.
  - simpl. by destruct (reportFailed_spec env inst lastErr s) as (_ & H & _).
  - rewrite retryLoop_S.
    destruct (attempt_frame env (λ _, false) false inst i s) as [Hm _];
      [done|done|].
    destruct (attempt env inst i s) as [[err|] s1]; simpl in Hm.
    + by rewrite IH.
    + by destruct (reportStarted_spec env inst t0 s1) as (_ & -> & _).
Qed.

Lemma alertReclaimed_mon inst s :
  mon (snd (alertReclaimed env inst s)) = mon s ∨
  ∃ t, mon (snd (alertReclaimed env inst s))
       = setLastNotify (InstanceID inst) t (mon s).
Proof.
  unfold alertReclaimed, canNotify, updateNotifyTime, now, notify. run_monad.
  destruct (lastNotify (mon s) !! InstanceID inst) as [lastTime|]; simpl;
    try destruct (_ <? _)%Z; simpl; try (by left);
    destruct (hasNotifier (mon s)); simpl;
    try match goal with
    | |- context [notifierSend env ?tr ?n] => destruct (notifierSend env tr n)
    end; simpl; right; by eexists.
Qed.

Lemma checkInstance_mon inst s :
  mon (snd (checkInstance IsChinaMainlandRegion env inst s)) = mon s ∨
  ∃ t, mon (snd (checkInstance IsChinaMainlandRegion env inst s))
       = setLastNotify (InstanceID inst) t (mon s).
Proof.
  unfold checkInstance, startWithRetries, GetInstanceStatus, now. run_monad.
  destruct (blocked IsChinaMainlandRegion (mon s) inst); simpl; [by left|].
  destruct (ecsGetInstanceStatus env (trace s) (RegionID inst) (InstanceID inst))
    as [status|e]; simpl; [|by left].
  destruct (String.eqb status "Stopped"); simpl; [|by left].
  match goal with
  | |- context [alertReclaimed env inst ?s0] =>
      pose proof (alertReclaimed_mon inst s0) as Ha;
      destruct (alertReclaimed env inst s0) as [[] s1]
  end. simpl in *. rewrite retryLoop_mon. simpl. exact Ha.
Qed.

(** X2. The only thing [checkInstance] ever changes in the monitor is the
    cooldown timestamp of the instance it checks: the registry, both
    traffic latches, the configuration and the cooldown entries of other
    keys are as before. *)
Theorem X2_checkInstance_touches_only_own_cooldown :
  ∀ (inst : SpotInstance) (s : St),
    let m' := mon (snd (checkInstance IsChinaMainlandRegion env inst s)) in
    (m' = mon s ∨ ∃ t, m' = setLastNotify (InstanceID inst) t (mon s)) ∧
    sameButCooldown (mon s) m' ∧
    ∀ key, key ≠ InstanceID inst →
           lastNotify m' !! key = lastNotify (mon s) !! key.
Proof.
  intros inst s. cbv zeta.
  pose proof (checkInstance_mon inst s) as H. split; [exact H|].
  destruct H as [->|[t ->]].
  - split; [by repeat split|done].
  - split; [by repeat split|]. intros key Hk. simpl.
    by rewrite lookup_insert_ne.
Qed.

Lemma sameButCooldown_refl m : sameButCooldown m m.
Proof. by repeat split. Qed.

Lemma sameButCooldown_trans m1 m2 m3 :
  sameButCooldown m1 m2 → sameButCooldown m2 m3 → sameButCooldown m1 m3.
Proof.
  intros (A1 & A2 & A3 & A4 & A5 & A6) (B1 & B2 & B3 & B4 & B5 & B6).
  repeat split; congruence.
Qed.

Lemma checkAndLog_same inst s :
  sameButCooldown (mon s)
    (mon (snd (checkAndLog IsChinaMainlandRegion env inst s))).
Proof.
  unfold checkAndLog, bind.
  pose proof (checkInstance_mon inst s) as H.
  destruct (checkInstance IsChinaMainlandRegion env inst s) as [[e|] s1];
    simpl in *; destruct H as [->|[t ->]]; by repeat split.
Qed.

Lemma forEach_checkAndLog_same l : ∀ s,
  sameButCooldown (mon s)
    (mon (snd (forEach l (checkAndLog IsChinaMainlandRegion env) s))).
Proof.
  induction l as [|inst l IH]; intros s; simpl.
  - apply sameButCooldown_refl.
  - unfold bind. pose proof (checkAndLog_same inst s) as H.
    destruct (checkAndLog IsChinaMainlandRegion env inst s) as [[] s1].
    simpl in H. eapply sameButCooldown_trans; [exact H|apply IH].
Qed.

Lemma Check_unfold s :
  Check IsChinaMainlandRegion env s
  = (None,
     snd (forEach (instances (mon (cycleStart env s)))
            (checkAndLog IsChinaMainlandRegion env) (cycleStart env s))).
Proof.
  unfold Check, cycleStart, bind.
  destruct (refreshInstances env s) as [[e|] s1]; simpl;
    unfold getMon, ret; simpl;
    match goal with
    | |- context [forEach ?l ?f ?s0] => by destruct (forEach l f s0)
    end.
Qed.

(** X3. [Check] always returns nil, whatever fails inside the cycle, and
    after the reconciliation at its start it changes nothing in the monitor
    but cooldown timestamps: the registry is the one the reconciliation
    left and the traffic latches are untouched. *)
Theorem X3_Check_returns_nil_and_keeps_registry :
  ∀ (s : St),
    fst (Check IsChinaMainlandRegion env s) = None ∧
    sameButCooldown (mon (snd (refreshInstances env s)))
      (mon (snd (Check IsChinaMainlandRegion env s))).
Proof.
  intros s. rewrite Check_unfold. simpl. split; [done|].
  assert (Hc : mon (cycleStart env s) = mon (snd (refreshInstances env s))).
  { unfold cycleStart, bind. destruct (refreshInstances env s) as [[e|] s1];
      done. }
  rewrite <- Hc. apply forEach_checkAndLog_same.
Qed.

(** While the status API is down, a check of an unblocked instance is one
    failed status query. *)
Lemma checkAndLog_outage inst s :
  statusOutage env →
  blocked IsChinaMainlandRegion (mon s) inst = false →
  ∃ e,
    checkAndLog IsChinaMainlandRegion env inst s
    = (tt, {| mon := mon s;
              trace := (trace s
                          ++ [EGetInstanceStatus (RegionID inst) (InstanceID inst)
                                (Err e);
                              ELog LError "Failed to check instance %s: %v"
                                [AStr (InstanceID inst);
                                 AErr (Some (wrapErr "failed to get status" e))]])%list |}).
Proof.
  intros Hout Hb.
  destruct (Hout (trace s) (RegionID inst) (InstanceID inst)) as [e He].
  exists e. unfold checkAndLog, checkInstance, GetInstanceStatus. run_monad.
  rewrite Hb, He. simpl. by rewrite <- app_assoc.
Qed.

(** X4. A failure on one instance never ends the cycle: with both latches
    clear and the status API down, [Check] still queries every instance of
    the registry once, in registry order, logs one error line per instance,
    issues no start or stop command, and returns nil. *)
Theorem X4_Check_goes_on_after_failures :
  ∀ (s : St),
    statusOutage env →
    chinaShutdown (mon (cycleStart env s)) = false →
    nonChinaShutdown (mon (cycleStart env s)) = false →
    let s0 := cycleStart env s in
    let s' := snd (Check IsChinaMainlandRegion env s) in
    fst (Check IsChinaMainlandRegion env s) = None ∧
    mon s' = mon s0 ∧
    ∃ new,
      trace s' = (trace s0 ++ new)%list ∧
      map fst (statusAnswers new)
        = map (λ i, (RegionID i, InstanceID i)) (instances (mon s0)) ∧
      countEv isErrorLog new = length (instances (mon s0)) ∧
      countEv isStart new = 0%nat ∧ countEv isStop new = 0%nat.
Proof.
  intros s Hout Hc Hn. cbv zeta. rewrite Check_unfold. simpl.
  split; [done|].
  assert (Hloop : ∀ l s0,
            chinaShutdown (mon s0) = false → nonChinaShutdown (mon s0) = false →
            let s' := snd (forEach l (checkAndLog IsChinaMainlandRegion env) s0) in
            mon s' = mon s0 ∧
            ∃ new, trace s' = (trace s0 ++ new)%list ∧
                   map fst (statusAnswers new)
                     = map (λ i, (RegionID i, InstanceID i)) l ∧
                   countEv isErrorLog new = length l ∧
                   countEv isStart new = 0%nat ∧ countEv isStop new = 0%nat).
  { induction l as [|inst l IH]; intros s0 H1 H2; simpl.
    - split; [done|]. exists []. by rewrite app_nil_r.
    - assert (Hb : blocked IsChinaMainlandRegion (mon s0) inst = false).
      { unfold blocked. rewrite H1, H2.
        by destruct (IsChinaMainlandRegion (RegionID inst)). }
      destruct (checkAndLog_outage inst s0 Hout Hb) as [e He].
      unfold bind. rewrite He.
      match goal with
      | |- context [forEach l _ ?s1] =>
          destruct (IH s1 H1 H2) as (Hm & new & T & Q & E & S1 & S2)
      end.
      simpl in *. split; [done|].
      exists (EGetInstanceStatus (RegionID inst) (InstanceID inst) (Err e)
                :: ELog LError "Failed to check instance %s: %v"
                     [AStr (InstanceID inst);
                      AErr (Some (wrapErr "failed to get status" e))]
                :: new).
      rewrite T, <- app_assoc. simpl.
      split_and!; [reflexivity| by rewrite Q | by rewrite E | done | done]. }
  apply Hloop; assumption.
Qed.

End EngineFrame.

Lemma X4_Check_goes_on_after_failures_witness :
  let s0 := cycleStart blackoutEnv trackingAB in
  let s' := snd (Check cnPrefixed blackoutEnv trackingAB) in
  fst (Check cnPrefixed blackoutEnv trackingAB) = None ∧
  mon s' = mon s0 ∧
  ∃ new,
    trace s' = (trace s0 ++ new)%list ∧
    map fst (statusAnswers new)
      = map (λ i, (RegionID i, InstanceID i)) (instances (mon s0)) ∧
    countEv isErrorLog new = length (instances (mon s0)) ∧
    countEv isStart new = 0%nat ∧ countEv isStop new = 0%nat.
Proof.
  apply X4_Check_goes_on_after_failures.
  - intros tr r i. by eexists.
  - vm_compute. reflexivity.
  - vm_compute. reflexivity.
Defined.

(** ** Who may start and who may stop *)

Lemma eam_mono (p q : Event → bool) n {A} (c : M A) :
  (∀ e, p e = true → q e = true) →
  emitsAtMost q n c → emitsAtMost p n c.
Proof.
  intros Hpq Hc s.
  assert (H : ∀ tr, (countEv p tr ≤ countEv q tr)%nat).
  { induction tr as [|e tr IH]; simpl; [lia|].
    destruct (p e) eqn:Hp; [rewrite (Hpq e Hp)|destruct (q e)]; lia. }
  destruct (Hc s) as (new & T & C). exists new.
  split; [done|]. specialize (H new). lia.
Qed.

Section Duties.

Variable IsChinaMainlandRegion : string → bool.
Variable GetRegionDisplayName : string → string.
Variable env : Env.

Lemma pollRunning_no_stop n r i : emitsAtMost isStop 0 (pollRunning env n r i).
Proof.
  induction n as [|n IH]; simpl; unfold GetInstanceStatus; silent.
Qed.

Lemma attempt_no_stop inst i : emitsAtMost isStop 0 (attempt env inst i).
Proof.
  unfold attempt, StartInstance, Sleep, waitForRunning.
  pose proof pollRunning_no_stop. silent.
Qed.

Lemma reportStarted_no_stop inst t0 :
  emitsAtMost isStop 0 (reportStarted env inst t0).
Proof. unfold reportStarted, GetInstance, now, notify. silent. Qed.

Lemma reportFailed_no_stop inst e :
  emitsAtMost isStop 0 (reportFailed env inst e).
Proof. unfold reportFailed, notify. silent. Qed.

Lemma retryLoop_no_stop n : ∀ i e inst t0,
  emitsAtMost isStop 0 (retryLoop env n i e inst t0).
Proof.
  pose proof attempt_no_stop. pose proof reportStarted_no_stop.
  pose proof reportFailed_no_stop.
  induction n as [|n IH]; intros i e inst t0; simpl; silent.
Qed.

Lemma alertReclaimed_no_stop inst :
  emitsAtMost isStop 0 (alertReclaimed env inst).
Proof.
  unfold alertReclaimed, canNotify, updateNotifyTime, now, notify. silent.
Qed.

Lemma checkInstance_no_stop inst :
  emitsAtMost isStop 0 (checkInstance IsChinaMainlandRegion env inst).
Proof.
  pose proof alertReclaimed_no_stop. pose proof retryLoop_no_stop.
  unfold checkInstance, startWithRetries, GetInstanceStatus, now. silent.
Qed.

Lemma scanRegions_no_start_stop fuel : ∀ pending total scanned acc,
  emitsAtMost isStartOrStop 0 (scanRegions env fuel pending total scanned acc).
Proof.
  induction fuel as [|fuel IH]; intros pending total scanned acc; simpl; silent.
Qed.

Lemma DiscoverAllSpotInstances_no_start_stop :
  emitsAtMost isStartOrStop 0 (DiscoverAllSpotInstances env).
Proof.
  pose proof scanRegions_no_start_stop.
  unfold DiscoverAllSpotInstances, now. silent.
Qed.

Lemma refreshInstances_no_start_stop :
  emitsAtMost isStartOrStop 0 (refreshInstances env).
Proof.
  pose proof DiscoverAllSpotInstances_no_start_stop.
  unfold refreshInstances. silent.
Qed.

Lemma DiscoverInstances_no_start_stop :
  emitsAtMost isStartOrStop 0 (DiscoverInstances env).
Proof.
  pose proof DiscoverAllSpotInstances_no_start_stop.
  unfold DiscoverInstances, notify. silent.
Qed.

Lemma Check_no_stop : emitsAtMost isStop 0 (Check IsChinaMainlandRegion env).
Proof.
  assert (emitsAtMost isStop 0 (refreshInstances env)).
  { eapply eam_mono; [|apply refreshInstances_no_start_stop].
    intros e He. unfold isStartOrStop. rewrite He. apply orb_true_r. }
  pose proof checkInstance_no_stop.
  unfold Check, checkAndLog. silent.
Qed.

Lemma stopLoop_no_start region l : ∀ acc,
  emitsAtMost isStart 0
    (stopLoop IsChinaMainlandRegion GetRegionDisplayName env region l acc).
Proof.
  induction l as [|inst l IH]; intros acc; simpl;
    unfold GetInstanceStatus, StopInstance; silent.
Qed.

Lemma shutdownRegionInstances_no_start region t l :
  emitsAtMost isStart 0
    (shutdownRegionInstances IsChinaMainlandRegion GetRegionDisplayName env
       region t l).
Proof.
  pose proof stopLoop_no_start. unfold shutdownRegionInstances, notify. silent.
Qed.

Lemma CheckTraffic_no_compute : emitsAtMost isComputeCall 0 (CheckTraffic env).
Proof. unfold CheckTraffic. silent. Qed.

Lemma CheckTraffic_no_notify : emitsAtMost isNotify 0 (CheckTraffic env).
Proof. unfold CheckTraffic. silent. Qed.

(** X5. Who may start and who may stop.  Every operation only appends to
    the history, and:
    - the fleet check, with the reconciliation at its start and the whole
      reclaim-and-restart engine, never issues a stop command;
    - the bulk shutdown never issues a start command;
    - discovery and reconciliation issue neither;
    - the traffic check itself calls no compute API and sends no
      notification: it only sets the latches and spawns the shutdown. *)
Theorem X5_separation_of_start_and_stop :
  (∀ inst, emitsAtMost isStop 0 (checkInstance IsChinaMainlandRegion env inst)) ∧
  emitsAtMost isStop 0 (Check IsChinaMainlandRegion env) ∧
  (∀ region trafficGB limitGB,
     emitsAtMost isStart 0
       (shutdownRegionInstances IsChinaMainlandRegion GetRegionDisplayName env
          region trafficGB limitGB)) ∧
  emitsAtMost isStartOrStop 0 (refreshInstances env) ∧
  emitsAtMost isStartOrStop 0 (DiscoverInstances env) ∧
  emitsAtMost isComputeCall 0 (CheckTraffic env) ∧
  emitsAtMost isNotify 0 (CheckTraffic env).
Proof.
  split_and!.
  - apply checkInstance_no_stop.
  - apply Check_no_stop.
  - apply shutdownRegionInstances_no_start.
  - apply refreshInstances_no_start_stop.
  - apply DiscoverInstances_no_start_stop.
  - apply CheckTraffic_no_compute.
  - apply CheckTraffic_no_notify.
Qed.

End Duties.

(** ** The guards of the traffic check *)

Section TrafficGuards.

Variable env : Env.

(** X6. The guards of [CheckTraffic].  Without a traffic client it returns
    the not-initialised error, and with the feature switched off it returns
    nil, in both cases without querying anything or touching the state.
    When the traffic query fails it returns the wrapped error, both latches
    keep their value and nothing is launched. *)
Theorem X6_CheckTraffic_guards :
  ∀ (s : St),
    (hasTrafficClient (mon s) = false →
     CheckTraffic env s = (Some "traffic client not initialized", s)) ∧
    (hasTrafficClient (mon s) = true →
     TrafficShutdownEnabled (cfg (mon s)) = false →
     CheckTraffic env s = (None, s)) ∧
    (enforcing s → ∀ e, trafficSeen env s = Err e →
     fst (CheckTraffic env s) = Some (wrapErr "failed to query traffic" e) ∧
     mon (snd (CheckTraffic env s)) = mon s ∧
     ∀ g, launches g (trace (snd (CheckTraffic env s))) = launches g (trace s)).
Proof.
  intros s. split_and!.
  - intros H. unfold CheckTraffic. run_monad. by rewrite H.
  - intros H1 H2. unfold CheckTraffic. run_monad. by rewrite H1, H2.
  - intros [H1 H2] e Hq. split_and!.
    + unfold trafficSeen in Hq. unfold CheckTraffic. run_monad.
      rewrite H1, H2. simpl. by rewrite Hq.
    + by destruct (CheckTraffic_unobserved env China s e Hq).
    + intros g. by destruct (CheckTraffic_unobserved env g s e Hq).
Qed.

End TrafficGuards.

Lemma X6_CheckTraffic_guards_witness :
  fst (CheckTraffic outageEnv chinaLatched)
  = Some (wrapErr "failed to query traffic" "timeout") ∧
  chinaShutdown (mon (snd (CheckTraffic outageEnv chinaLatched))) = true.
Proof.
  destruct (X6_CheckTraffic_guards outageEnv chinaLatched) as (_ & _ & H).
  destruct (H (conj eq_refl eq_refl) "timeout") as (H1 & H2 & _).
  { vm_compute. reflexivity. }
  split; [exact H1|]. rewrite H2. reflexivity.
Defined.

(** ** Failures during discovery *)

Section DiscoveryFailures.

Variable env : Env.

Lemma scanRegions_outage fuel : ∀ pending total scanned acc s,
  regionOutage env →
  fst (scanRegions env fuel pending total scanned acc s) = acc.
Proof.
  induction fuel as [|fuel IH]; intros pending total scanned acc s Hout;
    simpl; [done|].
  run_monad. destruct (pending !! _) as [regionID|]; simpl; [|done].
  destruct (Hout (trace s) regionID) as [e ->]. simpl. by apply IH.
Qed.

(** X7. [DiscoverAllSpotInstances] fails only when the region list cannot
    be fetched: it then returns that error unchanged without asking any
    region.  Once the region list is there it always succeeds: every region
    is asked exactly once, the answers that failed count as no instances,
    and if all of them fail the result is the empty list. *)
Theorem X7_discovery_fails_only_without_region_list :
  ∀ (s : St),
    (∀ e, regionsSeen env s = Err e →
          fst (DiscoverAllSpotInstances env s) = Err e ∧
          trace (snd (DiscoverAllSpotInstances env s))
          = (trace s ++ [ELog LInfo "Fetching all regions..." [];
                         EGetAllRegions (Err e)])%list) ∧
    (∀ regions, regionsSeen env s = Ok regions →
       ∃ new,
         trace (snd (DiscoverAllSpotInstances env s)) = (trace s ++ new)%list ∧
         queried new ≡ₚ regions ∧
         fst (DiscoverAllSpotInstances env s) = Ok (found new) ∧
         (regionOutage env → fst (DiscoverAllSpotInstances env s) = Ok [])).
Proof.
  intros s. unfold regionsSeen. split.
  - intros e He. unfold DiscoverAllSpotInstances. run_monad. rewrite He.
    simpl. by rewrite <- app_assoc.
  - intros regions Hr. unfold DiscoverAllSpotInstances, now. run_monad.
    rewrite Hr. simpl.
    match goal with
    | |- context [scanRegions env ?f ?a ?b ?c ?d ?s0] =>
        destruct (scanRegions_spec env f a b c d s0 eq_refl) as (new & T & Q & F);
        pose proof (scanRegions_outage f a b c d s0) as Hout;
        destruct (scanRegions env f a b c d s0) as [res s2]
    end. simpl in *. subst res.
    eexists. rewrite T, <- !app_assoc. simpl.
    split; [reflexivity|]. simpl. rewrite queried_app, found_app. simpl.
    rewrite !app_nil_r. split_and!; [done|done|].
    intros Ho. by rewrite <- (Hout Ho).
Qed.

Lemma notifications_logs {A} (line : A → Event) (l : list A) :
  (∀ x, ∃ lvl f a, line x = ELog lvl f a) → notifications (map line l) = [].
Proof.
  intros Hl. induction l as [|x l IH]; [done|].
  simpl. by destruct (Hl x) as (lvl & f & a & ->).
Qed.

Lemma DiscoverInstances_run s discovered s1 :
  DiscoverAllSpotInstances env s = (Ok discovered, s1) →
  let logs := (ELog LInfo "Discovered %d spot instances"
                 [AInt (Z.of_nat (length discovered))]
               :: map discoveredLog discovered)%list in
  DiscoverInstances env s
  = (None,
     {| mon := setInstances discovered (mon s);
        trace := (trace s1 ++ logs
                    ++ startupAlert env (trace s1 ++ logs) (mon s) discovered)%list |}).
Proof.
  intros Hd. destruct (DiscoverAllSpotInstances_frame env (λ _, false) s)
    as [Hm _]; [done|]. rewrite Hd in Hm. simpl in Hm. cbv zeta.
  unfold DiscoverInstances. unfold bind at 1. rewrite Hd.
  unfold bind at 1. unfold modifyMon at 1. unfold bind at 1. unfold log at 1.
  unfold emit at 1. unfold bind at 1.
  rewrite (forEach_log (λ _, true) discoveredLog).
  2:{ intros x s0. done. }
  assert (Hf : List.filter (λ _ : SpotInstance, true) discovered = discovered).
  { clear. induction discovered as [|x l IH]; simpl; by rewrite ?IH. }
  rewrite Hf.
  assert (Hlen : (0 <? Z.of_nat (length discovered))%Z
                 = negb (Nat.eqb (length discovered) 0)).
  { destruct discovered; [done|]. simpl length.
    rewrite (proj2 (Z.ltb_lt _ _)) by lia. done. }
  unfold notify, startupAlert, monitorStarted. run_monad. rewrite Hm, Hlen.
  rewrite <- !app_assoc. simpl.
  destruct (hasNotifier (mon s) && negb (length discovered =? 0)%nat); simpl.
  - destruct (notifierSend env _ _) as [err|]; simpl;
      by rewrite <- ?app_assoc.
  - by rewrite app_nil_r.
Qed.

(** X8. [DiscoverInstances].  When discovery fails it returns the wrapped
    error, the registry is untouched and nothing is sent.  When discovery
    succeeds it returns nil even if the notification cannot be delivered,
    the registry is the discovered list, and it sends one monitor-started
    notification, with the count and one line per instance, exactly when a
    notifier is configured and at least one instance was found. *)
Theorem X8_DiscoverInstances_outcome :
  ∀ (s : St),
    (∀ e s1, DiscoverAllSpotInstances env s = (Err e, s1) →
       DiscoverInstances env s
       = (Some (wrapErr "failed to discover instances" e), s1) ∧
       mon s1 = mon s) ∧
    (∀ discovered s1, DiscoverAllSpotInstances env s = (Ok discovered, s1) →
       let s' := snd (DiscoverInstances env s) in
       fst (DiscoverInstances env s) = None ∧
       mon s' = setInstances discovered (mon s) ∧
       ∃ tail,
         trace s' = (trace s1 ++ tail)%list ∧
         notifications tail
         = if hasNotifier (mon s) && negb (Nat.eqb (length discovered) 0)
           then [monitorStarted discovered] else []).
Proof.
  intros s.
  destruct (DiscoverAllSpotInstances_frame env (λ _, false) s) as [Hm _];
    [done|].
  split.
  - intros e s1 Hd. rewrite Hd in Hm. simpl in Hm.
    unfold DiscoverInstances, bind. by rewrite Hd.
  - intros discovered s1 Hd. cbv zeta.
    rewrite (DiscoverInstances_run s discovered s1 Hd). simpl.
    split_and!; [done|done|]. eexists. split; [reflexivity|].
    assert (Hlogs : notifications (map discoveredLog discovered) = []).
    { apply notifications_logs. intros x. by eexists _, _, _. }
    simpl. rewrite notifications_app, Hlogs. simpl.
    unfold startupAlert.
    destruct (hasNotifier (mon s) && negb (length discovered =? 0)%nat);
      [|done].
    by destruct (notifierSend env _ _).
Qed.

Lemma notIn_nil others l :
  (∀ inst, inst ∈ l → InstanceID inst ∈ ids others) → notIn others l = [].
Proof.
  intros H. unfold notIn. induction l as [|x l IH]; [done|]. simpl.
  rewrite bool_decide_eq_true_2 by (apply H; apply list_elem_of_here).
  simpl. apply IH. intros inst Hin. apply H. by apply list_elem_of_further.
Qed.

(** X9. Reconciliation compares ids only.  When the discovered list has
    the same ids as the registry, whatever the order and whatever else
    changed in the records, [refreshInstances] logs no addition and no
    removal, and still installs the discovered records. *)
Theorem X9_refresh_same_ids_logs_nothing :
  ∀ (s : St) (discovered : list SpotInstance) (s1 : St),
    DiscoverAllSpotInstances env s = (Ok discovered, s1) →
    (∀ id, id ∈ ids discovered ↔ id ∈ ids (instances (mon s))) →
    refreshInstances env s
    = (None, {| mon := setInstances discovered (mon s); trace := trace s1 |}).
Proof.
  intros s discovered s1 Hd Hsame.
  rewrite (refreshInstances_ok env s discovered s1 Hd).
  rewrite !notIn_nil; [by rewrite !app_nil_r| |].
  - intros inst Hin. apply Hsame. unfold ids. apply list_elem_of_fmap.
    by exists inst.
  - intros inst Hin. apply Hsame. unfold ids. apply list_elem_of_fmap.
    by exists inst.
Qed.

End DiscoveryFailures.

Lemma X7_discovery_fails_only_without_region_list_witness :
  fst (DiscoverAllSpotInstances regionsDownEnv idleState) = Ok [] ∧
  fst (DiscoverAllSpotInstances outageEnv idleState)
  = Err "failed to describe regions: timeout".
Proof.
  destruct (X7_discovery_fails_only_without_region_list regionsDownEnv idleState)
    as [_ H].
  destruct (H ["cn-hangzhou"; "ap-southeast-1"; "us-west-1"] eq_refl)
    as (new & _ & _ & _ & Ho).
  destruct (X7_discovery_fails_only_without_region_list outageEnv idleState)
    as [He _].
  destruct (He "failed to describe regions: timeout" eq_refl) as [H1 _].
  split; [|exact H1]. apply Ho. intros tr r. by eexists.
Defined.

Lemma X8_DiscoverInstances_outcome_witness :
  fst (DiscoverInstances renamedEnv trackingAB) = None ∧
  fst (DiscoverInstances outageEnv trackingAB)
  = Some (wrapErr "failed to discover instances"
            "failed to describe regions: timeout") ∧
  instances (mon (snd (DiscoverInstances outageEnv trackingAB)))
  = [instA; instB].
Proof.
  assert (Hd : DiscoverAllSpotInstances renamedEnv trackingAB
               = (Ok renamedFleet,
                  snd (DiscoverAllSpotInstances renamedEnv trackingAB)))
    by (vm_compute; reflexivity).
  assert (He : DiscoverAllSpotInstances outageEnv trackingAB
               = (Err "failed to describe regions: timeout",
                  snd (DiscoverAllSpotInstances outageEnv trackingAB)))
    by (vm_compute; reflexivity).
  destruct (X8_DiscoverInstances_outcome renamedEnv trackingAB) as [_ H].
  destruct (H _ _ Hd) as (H1 & _).
  destruct (X8_DiscoverInstances_outcome outageEnv trackingAB) as [H' _].
  destruct (H' _ _ He) as (H2 & H3).
  split_and!; [exact H1 | by rewrite H2 | ].
  rewrite H2.
  change (instances (mon (snd (DiscoverAllSpotInstances outageEnv trackingAB)))
          = [instA; instB]).
  rewrite H3. reflexivity.
Defined.

Lemma X9_refresh_same_ids_logs_nothing_witness :
  instances (mon (snd (refreshInstances renamedEnv trackingAB))) = renamedFleet ∧
  trace (snd (refreshInstances renamedEnv trackingAB))
  = trace (snd (DiscoverAllSpotInstances renamedEnv trackingAB)).
Proof.
  assert (Hd : DiscoverAllSpotInstances renamedEnv trackingAB
               = (Ok renamedFleet,
                  snd (DiscoverAllSpotInstances renamedEnv trackingAB)))
    by (vm_compute; reflexivity).
  rewrite (X9_refresh_same_ids_logs_nothing renamedEnv trackingAB _ _ Hd).
  - split; reflexivity.
  - intros id.
    change (ids renamedFleet) with ["i-B"; "i-A"].
    change (ids (instances (mon trackingAB))) with ["i-A"; "i-B"].
    rewrite !elem_of_cons. rewrite !elem_of_nil. tauto.
Defined.

(** ** Callback payloads and command texts *)

Lemma free_cons sep c s :
  free sep (String c s) = true → Ascii.eqb c sep = false ∧ free sep s = true.
Proof.
  simpl. intros [H1 H2]%andb_prop. split; [|done].
  by destruct (Ascii.eqb c sep).
Qed.

Lemma Split_app_sep sep a rest :
  free sep a = true →
  GoStrings.Split (a +:+ String sep rest) sep = a :: GoStrings.Split rest sep.
Proof.
  induction a as [|c a IH]; intros Hf; simpl.
  - by rewrite Ascii.eqb_refl.
  - apply free_cons in Hf as [Hc Hf]. rewrite Hc, (IH Hf). done.
Qed.

Lemma Split_free sep a : free sep a = true → GoStrings.Split a sep = [a].
Proof.
  induction a as [|c a IH]; intros Hf; simpl; [done|].
  apply free_cons in Hf as [Hc Hf]. by rewrite Hc, (IH Hf).
Qed.

Lemma firstPiece_app sep a b :
  free sep a = true → firstPiece (a +:+ b) sep = a +:+ firstPiece b sep.
Proof.
  unfold firstPiece. induction a as [|c a IH]; intros Hf; simpl; [done|].
  apply free_cons in Hf as [Hc Hf]. rewrite Hc.
  specialize (IH Hf).
  destruct (GoStrings.Split (a +:+ b) sep) as [|p ps] eqn:Hs.
  - by destruct (GoStrings_Split_nonempty (a +:+ b) sep).
  - simpl in *. by rewrite IH.
Qed.

Lemma firstPiece_sep sep rest : firstPiece (String sep rest) sep = "".
Proof. unfold firstPiece. simpl. by rewrite Ascii.eqb_refl. Qed.

Lemma append_empty_r (s : string) : s +:+ "" = s.
Proof.
  induction s as [|c s IH]; [done|].
  change (String c (s +:+ "") = String c s). by rewrite IH.
Qed.

Lemma firstPiece_free sep s : free sep s = true → firstPiece s sep = s.
Proof. intros Hf. unfold firstPiece. by rewrite Split_free. Qed.

Lemma firstPiece_cut sep a rest :
  free sep a = true → firstPiece (a +:+ String sep rest) sep = a.
Proof.
  intros Hf. rewrite firstPiece_app by done.
  by rewrite firstPiece_sep, append_empty_r.
Qed.

(** The first piece of a split does not contain the separator. *)
Lemma firstPiece_is_free sep s : free sep (firstPiece s sep) = true.
Proof.
  unfold firstPiece. induction s as [|c s IH]; simpl; [done|].
  destruct (Ascii.eqb c sep) eqn:Hc; simpl; [done|].
  destruct (GoStrings.Split s sep) as [|p ps]; simpl in *.
  - by rewrite Hc.
  - by rewrite Hc, IH.
Qed.

(** ... and contains no byte that the whole string did not contain. *)
Lemma firstPiece_keeps_free x sep s :
  free x s = true → free x (firstPiece s sep) = true.
Proof.
  unfold firstPiece. induction s as [|c s IH]; simpl; [done|].
  intros [Hc Hf]%andb_prop.
  destruct (Ascii.eqb c sep); simpl; [done|].
  specialize (IH Hf).
  destruct (GoStrings.Split s sep) as [|p ps]; simpl in *.
  - by rewrite Hc.
  - by rewrite Hc, IH.
Qed.

Section PayloadFacts.

Variable handleCBWPSelectInstance : string → string → Z → M error.
Variable handleCBWPBind : string → string → string → Z → M error.
Variable handleCBWPUnbind : string → string → string → Z → M error.
Variable handleCBWPBackToList : Z → M error.
Variable AnswerCallbackQuery : string → string → bool → M error.

Local Abbreviation dispatch :=
  (handleCallbackQuery handleCBWPSelectInstance handleCBWPBind
     handleCBWPUnbind handleCBWPBackToList AnswerCallbackQuery).

Lemma dispatch_parts callbackID data messageID action rest :
  GoStrings.Split data ":" = "cbwp" :: action :: rest →
  dispatch callbackID data messageID
  = if String.eqb action "select" then
      match rest with
      | [] => ret None
      | a :: _ => handleCBWPSelectInstance callbackID a messageID
      end
    else if String.eqb action "bind" then
      match rest with
      | a :: b :: _ => handleCBWPBind callbackID a b messageID
      | _ => ret None
      end
    else if String.eqb action "unbind" then
      match rest with
      | a :: b :: _ => handleCBWPUnbind callbackID a b messageID
      | _ => ret None
      end
    else if String.eqb action "back" then
      AnswerCallbackQuery callbackID "" false ;;
      handleCBWPBackToList messageID
    else ret None.
Proof.
  intros Hs. unfold handleCallbackQuery, part. rewrite Hs. simpl.
  destruct (String.eqb action "select"); [by destruct rest|].
  destruct (String.eqb action "bind"); [by destruct rest as [|a [|b rest]]|].
  destruct (String.eqb action "unbind"); [by destruct rest as [|a [|b rest]]|].
  done.
Qed.

Lemma dispatch_select callbackID instanceID messageID :
  dispatch callbackID (selectData instanceID) messageID
  = handleCBWPSelectInstance callbackID (firstPiece instanceID ":") messageID.
Proof.
  assert (Hsel : GoStrings.Split (selectData instanceID) ":"
                 = "cbwp" :: "select" :: GoStrings.Split instanceID ":").
  { change (selectData instanceID)
      with ("cbwp" +:+ String ":" ("select" +:+ String ":" instanceID)).
    by rewrite !Split_app_sep. }
  rewrite (dispatch_parts _ _ _ _ _ Hsel). simpl. unfold firstPiece.
  destruct (GoStrings.Split instanceID ":") as [|p ps] eqn:Hs; [|done].
  by destruct (GoStrings_Split_nonempty instanceID ":").
Qed.

Lemma dispatch_back callbackID messageID :
  dispatch callbackID backData messageID
  = (AnswerCallbackQuery callbackID "" false ;;
     handleCBWPBackToList messageID).
Proof. by rewrite (dispatch_parts _ backData _ "back" []). Qed.

Lemma dispatch_bind callbackID instanceID bwpID messageID :
  free ":" instanceID = true → free ":" bwpID = true →
  dispatch callbackID (bindData instanceID bwpID) messageID
  = handleCBWPBind callbackID instanceID bwpID messageID.
Proof.
  intros Hi Hb.
  rewrite (dispatch_parts _ _ _ "bind" [instanceID; bwpID]); [done|].
  change (bindData instanceID bwpID)
    with ("cbwp" +:+ String ":" ("bind" +:+ String ":"
            (instanceID +:+ String ":" bwpID))).
  by rewrite !Split_app_sep, (Split_free _ _ Hb).
Qed.

Lemma dispatch_unbind callbackID instanceID bwpID messageID :
  free ":" instanceID = true → free ":" bwpID = true →
  dispatch callbackID (unbindData instanceID bwpID) messageID
  = handleCBWPUnbind callbackID instanceID bwpID messageID.
Proof.
  intros Hi Hb.
  rewrite (dispatch_parts _ _ _ "unbind" [instanceID; bwpID]); [done|].
  change (unbindData instanceID bwpID)
    with ("cbwp" +:+ String ":" ("unbind" +:+ String ":"
            (instanceID +:+ String ":" bwpID))).
  by rewrite !Split_app_sep, (Split_free _ _ Hb).
Qed.

(** X10. The payloads that the keyboards carry come back to the right
    handler with the right arguments.  The back payload acknowledges the
    callback and redraws the list.  A select payload reaches the select
    handler with the instance id, and a bind or unbind payload reaches its
    handler with the instance id and the package id, provided the ids
    contain no colon; an instance id with a colon reaches the select
    handler cut at its first colon. *)
Theorem X10_callback_payload_round_trip :
  ∀ (callbackID instanceID bwpID : string) (messageID : Z),
    dispatch callbackID (selectData instanceID) messageID
      = handleCBWPSelectInstance callbackID (firstPiece instanceID ":")
          messageID ∧
    dispatch callbackID backData messageID
      = (AnswerCallbackQuery callbackID "" false ;;
         handleCBWPBackToList messageID) ∧
    (free ":" instanceID = true →
     dispatch callbackID (selectData instanceID) messageID
       = handleCBWPSelectInstance callbackID instanceID messageID ∧
     (free ":" bwpID = true →
      dispatch callbackID (bindData instanceID bwpID) messageID
        = handleCBWPBind callbackID instanceID bwpID messageID ∧
      dispatch callbackID (unbindData instanceID bwpID) messageID
        = handleCBWPUnbind callbackID instanceID bwpID messageID)).
Proof.
  intros callbackID instanceID bwpID messageID. split_and!.
  - apply dispatch_select.
  - apply dispatch_back.
  - intros Hi. split.
    + by rewrite dispatch_select, (firstPiece_free _ _ Hi).
    + intros Hb. split; [by apply dispatch_bind | by apply dispatch_unbind].
Qed.

End PayloadFacts.

Lemma X10_callback_payload_round_trip_witness :
  handleCallbackQuery (fun _ _ _ => ret None)
    (fun _ i b _ => ret (Some (i +:+ "/" +:+ b)))
    (fun _ _ _ _ => ret None) (fun _ => ret None) (fun _ _ _ => ret None)
    "cb-1" (bindData "i-001" "cbwp-7") 42 idleState
  = (Some "i-001/cbwp-7", idleState).
Proof.
  destruct (X10_callback_payload_round_trip
              (fun _ _ _ => ret None)
              (fun _ i b _ => ret (Some (i +:+ "/" +:+ b)))
              (fun _ _ _ _ => ret None) (fun _ => ret None)
              (fun _ _ _ => ret None) "cb-1" "i-001" "cbwp-7" 42)
    as (_ & _ & H).
  destruct (H eq_refl) as [_ H2]. destruct (H2 eq_refl) as [H3 _].
  rewrite H3. reflexivity.
Defined.

Lemma parseCommand_slash x :
  Bot.parseCommand ("/" +:+ x) = Some (firstPiece (firstPiece x " ") "@").
Proof.
  change ("/" +:+ x) with (String "/" x).
  unfold Bot.parseCommand, Bot.TrimPrefix.
  assert (GoStrings.HasPrefix (String "/" x) "/" = true) as ->
    by (by destruct x).
  done.
Qed.

Lemma parseCommand_bare c :
  free " " c = true → free "@" c = true →
  Bot.parseCommand ("/" +:+ c) = Some c.
Proof.
  intros Hs Ha. rewrite parseCommand_slash.
  by rewrite (firstPiece_free " " c Hs), (firstPiece_free "@" c Ha).
Qed.

Lemma parseCommand_args c rest :
  free " " c = true → free "@" c = true →
  Bot.parseCommand ("/" +:+ c +:+ String " " rest) = Some c.
Proof.
  intros Hs Ha. rewrite parseCommand_slash.
  by rewrite (firstPiece_cut " " c rest Hs), (firstPiece_free "@" c Ha).
Qed.

Lemma parseCommand_addressed c rest :
  free " " c = true → free "@" c = true →
  Bot.parseCommand ("/" +:+ c +:+ String "@" rest) = Some c.
Proof.
  intros Hs Ha. rewrite parseCommand_slash.
  rewrite (firstPiece_app " " c (String "@" rest) Hs).
  change (String "@" rest) with ("@" +:+ rest).
  rewrite (firstPiece_app " " "@" rest eq_refl).
  change ("@" +:+ firstPiece rest " ")
    with (String "@" (firstPiece rest " ")).
  by rewrite (firstPiece_cut "@" c _ Ha).
Qed.

(** X11. The command of a message text.  A text that does not start with
    a slash is no command.  Otherwise the command is what follows the slash
    up to the first space, cut at the first at-sign: it never contains a
    space or an at-sign, and a command name free of both is recovered
    unchanged whether it stands alone, carries arguments or is addressed to
    a bot by name. *)
Theorem X11_parseCommand_extracts_name :
  ∀ (text : string),
    (GoStrings.HasPrefix text "/" = false → Bot.parseCommand text = None) ∧
    (∀ c, Bot.parseCommand text = Some c →
          free " " c = true ∧ free "@" c = true) ∧
    (∀ rest, free " " text = true → free "@" text = true →
             Bot.parseCommand ("/" +:+ text) = Some text ∧
             Bot.parseCommand ("/" +:+ text +:+ String " " rest) = Some text ∧
             Bot.parseCommand ("/" +:+ text +:+ String "@" rest) = Some text).
Proof.
  intros text. split_and!.
  - intros H. unfold Bot.parseCommand. by rewrite H.
  - intros c. unfold Bot.parseCommand.
    destruct (GoStrings.HasPrefix text "/"); [|done].
    intros [= <-]. split.
    + apply firstPiece_keeps_free, firstPiece_is_free.
    + apply firstPiece_is_free.
  - intros rest Hs Ha. split_and!.
    + by apply parseCommand_bare.
    + by apply parseCommand_args.
    + by apply parseCommand_addressed.
Qed.

Lemma X11_parseCommand_extracts_name_witness :
  Bot.parseCommand "/status@spot_bot now" = Some "status".
Proof.
  destruct (X11_parseCommand_extracts_name "status") as (_ & _ & H).
  destruct (H "spot_bot now" eq_refl eq_refl) as (_ & _ & H3).
  exact H3.
Defined.

(** ** The polling loop of the bot *)

Lemma onlyLogged_refl s : onlyLogged s s.
Proof. split; [done|]. exists []. by rewrite app_nil_r. Qed.

Lemma onlyLogged_trans s1 s2 s3 :
  onlyLogged s1 s2 → onlyLogged s2 s3 → onlyLogged s1 s3.
Proof.
  intros [M1 (n1 & T1 & L1)] [M2 (n2 & T2 & L2)]. split; [congruence|].
  exists (n1 ++ n2)%list. split.
  - by rewrite T2, T1, app_assoc.
  - by rewrite forallb_app, L1, L2.
Qed.

Lemma onlyLogged_log lvl format args s :
  onlyLogged s (snd (log lvl format args s)).
Proof. split; [done|]. by exists [ELog lvl format args]. Qed.

Lemma onlyLogged_polling last s : onlyLogged s (polling last s).
Proof. split; [done|]. by eexists [_]. Qed.

Section PollFacts.

Variable chatIDInt : Z.
Variable commandHandler : option (string → M error).
Variable callbackHandler : option (string → string → Z → M error).
Variable getUpdates : Z → Trace → Bot.Fetched.

Local Abbreviation processUpdate :=
  (Bot.processUpdate chatIDInt commandHandler callbackHandler).
Local Abbreviation rangeUpdates :=
  (Bot.rangeUpdates chatIDInt commandHandler callbackHandler).
Local Abbreviation PollUpdates :=
  (Bot.PollUpdates chatIDInt commandHandler callbackHandler getUpdates).

Lemma processUpdate_returns update s :
  Bot.chatless update = false → fst (processUpdate update s) = Bot.Returned tt.
Proof.
  unfold Bot.chatless, Bot.processUpdate.
  destruct (Bot.CallbackQuery update) as [cb|].
  - destruct (Bot.Message cb) as [msg|]; [|done].
    destruct (Bot.Chat msg) as [chat|]; [|done]. intros _.
    destruct (chat =? chatIDInt)%Z; [|done]. run_monad.
    destruct callbackHandler as [handler|]; [|done].
    destruct (handler _ _ _ _) as [[e|] s1]; done.
  - destruct (Bot.UpdateMessage update) as [msg|]; [|done].
    destruct (Bot.Chat msg) as [chat|]; [|done]. intros _.
    destruct (chat =? chatIDInt)%Z; simpl; [|done].
    destruct (Bot.parseCommand (Bot.Text msg)) as [command|]; [|done].
    run_monad. destruct commandHandler as [handler|]; [|done].
    destruct (handler _ _) as [[e|] s1]; done.
Qed.

Lemma processUpdate_panics update s :
  Bot.chatless update = true → processUpdate update s = (Bot.Panicked, s).
Proof.
  unfold Bot.chatless, Bot.processUpdate.
  destruct (Bot.CallbackQuery update) as [cb|].
  - destruct (Bot.Message cb) as [msg|]; [|done].
    by destruct (Bot.Chat msg) as [chat|].
  - destruct (Bot.UpdateMessage update) as [msg|]; [|done].
    by destruct (Bot.Chat msg) as [chat|].
Qed.

Lemma rangeUpdates_cons last u rest s :
  rangeUpdates last (u :: rest) s
  = let r := processUpdate u (snd (log LDebug
                "Processing update_id=%d, lastUpdateID was %d"
                [AInt (Bot.UpdateID u); AInt last] s)) in
    match fst r with
    | Bot.Returned _ => rangeUpdates (Bot.UpdateID u) rest (snd r)
    | Bot.Panicked => (Bot.Panicked, Bot.UpdateID u, snd r)
    end.
Proof.
  cbn [Bot.rangeUpdates]. unfold bind, log, emit. cbn [snd].
  destruct (processUpdate u _) as [[[]|] s1]; reflexivity.
Qed.

Lemma rangeUpdates_returns updates : ∀ last s,
  forallb (λ u, negb (Bot.chatless u)) updates = true →
  fst (rangeUpdates last updates s)
  = (Bot.Returned tt, List.last (map Bot.UpdateID updates) last).
Proof.
  induction updates as [|u rest IH]; intros last s Hall; [done|].
  simpl in Hall. apply andb_prop in Hall as [Hu Hrest].
  apply negb_true_iff in Hu.
  rewrite rangeUpdates_cons. cbv zeta.
  pose proof (processUpdate_returns u (snd (log LDebug
              "Processing update_id=%d, lastUpdateID was %d"
              [AInt (Bot.UpdateID u); AInt last] s)) Hu) as Hr.
  destruct (processUpdate u _) as [r s1]. simpl in Hr. subst r. cbn [fst snd].
  rewrite (IH _ _ Hrest). f_equal.
  destruct rest as [|u' rest']; [done|].
  change (map Bot.UpdateID (u :: u' :: rest'))
    with (Bot.UpdateID u :: map Bot.UpdateID (u' :: rest')).
  simpl. clear. revert u'. generalize (Bot.UpdateID u) as a, last as b.
  induction rest' as [|x r IH]; intros; [done|]. simpl in *. apply IH.
Qed.

Lemma rangeUpdates_panics before : ∀ u after last s,
  forallb (λ u, negb (Bot.chatless u)) before = true →
  Bot.chatless u = true →
  fst (rangeUpdates last (before ++ u :: after) s)
  = (Bot.Panicked, Bot.UpdateID u).
Proof.
  induction before as [|b rest IH]; intros u after last s Hall Hu.
  - simpl. run_monad. by rewrite (processUpdate_panics _ _ Hu).
  - simpl in Hall. apply andb_prop in Hall as [Hb Hrest].
    apply negb_true_iff in Hb.
    change ((b :: rest) ++ u :: after)%list with (b :: (rest ++ u :: after))%list.
    rewrite rangeUpdates_cons. cbv zeta.
    pose proof (processUpdate_returns b (snd (log LDebug
                "Processing update_id=%d, lastUpdateID was %d"
                [AInt (Bot.UpdateID b); AInt last] s)) Hb) as Hr.
    destruct (processUpdate b _) as [r s1]. simpl in Hr. subst r.
    cbn [fst snd]. by apply IH.
Qed.

Lemma PollUpdates_run last s :
  PollUpdates last s
  = match polled getUpdates last s with
    | Bot.GetFailed e =>
        (Bot.Returned (Some (wrapErr "failed to get updates" e)), last,
         polling last s)
    | Bot.DecodeFailed e =>
        (Bot.Returned (Some (wrapErr "failed to decode updates" e)), last,
         polling last s)
    | Bot.Decoded false _ =>
        (Bot.Returned (Some "telegram API returned not OK"), last,
         polling last s)
    | Bot.Decoded true updates =>
        let '(r, s1) :=
          rangeUpdates last updates
            (snd (log LDebug "Got %d updates from Telegram"
                    [AInt (Z.of_nat (length updates))] (polling last s))) in
        (match fst r with
         | Bot.Returned _ => Bot.Returned None
         | Bot.Panicked => Bot.Panicked
         end, snd r, s1)
    end.
Proof.
  unfold Bot.PollUpdates, polled. run_monad. fold (polling last s).
  destruct (getUpdates _ _) as [e|e|[|] updates]; try done.
  destruct (Bot.rangeUpdates _ _ _ _ _ _) as [[[[]|] l] s1]; done.
Qed.

(** X12. What a poll returns.  A request that fails, a body that does not
    decode and an answer that is not OK each give their error, and the
    offset and the state stay as they were but for the line logged before
    the request.  An OK answer gives nil whatever the handlers return, and
    the offset moves to the id of the last update of the answer, also past
    updates that were ignored.  An update whose message has no chat stops
    the loop in a nil dereference, with that update already counted. *)
Theorem X12_PollUpdates_outcome :
  ∀ (lastUpdateID : Z) (s : St),
    (∀ e, polled getUpdates lastUpdateID s = Bot.GetFailed e →
          PollUpdates lastUpdateID s
          = (Bot.Returned (Some (wrapErr "failed to get updates" e)),
             lastUpdateID, polling lastUpdateID s)) ∧
    (∀ e, polled getUpdates lastUpdateID s = Bot.DecodeFailed e →
          PollUpdates lastUpdateID s
          = (Bot.Returned (Some (wrapErr "failed to decode updates" e)),
             lastUpdateID, polling lastUpdateID s)) ∧
    (∀ updates, polled getUpdates lastUpdateID s = Bot.Decoded false updates →
          PollUpdates lastUpdateID s
          = (Bot.Returned (Some "telegram API returned not OK"),
             lastUpdateID, polling lastUpdateID s)) ∧
    (∀ updates, polled getUpdates lastUpdateID s = Bot.Decoded true updates →
          forallb (λ u, negb (Bot.chatless u)) updates = true →
          fst (PollUpdates lastUpdateID s)
          = (Bot.Returned None,
             List.last (map Bot.UpdateID updates) lastUpdateID)) ∧
    (∀ before u after,
          polled getUpdates lastUpdateID s
          = Bot.Decoded true (before ++ u :: after) →
          forallb (λ u, negb (Bot.chatless u)) before = true →
          Bot.chatless u = true →
          fst (PollUpdates lastUpdateID s) = (Bot.Panicked, Bot.UpdateID u)).
Proof.
  intros last s. rewrite PollUpdates_run. split_and!.
  - by intros e ->.
  - by intros e ->.
  - by intros updates ->.
  - intros updates -> Hall.
    pose proof (rangeUpdates_returns updates last
      (snd (log LDebug "Got %d updates from Telegram"
              [AInt (Z.of_nat (length updates))] (polling last s))) Hall) as H.
    destruct (rangeUpdates _ _ _) as [r s1]. simpl in H. by subst r.
  - intros before u after -> Hall Hu.
    pose proof (rangeUpdates_panics before u after last
      (snd (log LDebug "Got %d updates from Telegram"
              [AInt (Z.of_nat (length (before ++ u :: after)))]
              (polling last s))) Hall Hu) as H.
    destruct (rangeUpdates _ _ _) as [r s1]. simpl in H. by subst r.
Qed.

Lemma processUpdate_idle update s :
  actionable chatIDInt update = false →
  onlyLogged s (snd (processUpdate update s)).
Proof.
  unfold actionable, Bot.sender, Bot.processUpdate.
  destruct (Bot.CallbackQuery update) as [cb|].
  - destruct (Bot.Message cb) as [msg|]; simpl; [|intros; apply onlyLogged_refl].
    destruct (Bot.Chat msg) as [chat|]; simpl; [|intros; apply onlyLogged_refl].
    rewrite andb_true_r. intros ->. apply onlyLogged_refl.
  - destruct (Bot.UpdateMessage update) as [msg|]; simpl;
      [|intros; apply onlyLogged_refl].
    destruct (Bot.Chat msg) as [chat|]; simpl; [|intros; apply onlyLogged_refl].
    destruct (chat =? chatIDInt)%Z; simpl.
    + intros Hp. unfold Bot.parseCommand. rewrite Hp. apply onlyLogged_refl.
    + intros _. split; [done|]. by eexists [_].
Qed.

Lemma rangeUpdates_idle updates : ∀ last s,
  forallb (λ u, negb (actionable chatIDInt u)) updates = true →
  onlyLogged s (snd (rangeUpdates last updates s)).
Proof.
  induction updates as [|u rest IH]; intros last s Hall.
  - apply onlyLogged_refl.
  - simpl in Hall. apply andb_prop in Hall as [Hu Hrest].
    apply negb_true_iff in Hu.
    rewrite rangeUpdates_cons. cbv zeta.
    pose proof (processUpdate_idle u (snd (log LDebug
                "Processing update_id=%d, lastUpdateID was %d"
                [AInt (Bot.UpdateID u); AInt last] s)) Hu) as Hs.
    destruct (processUpdate u _) as [r s1]. cbn [fst snd] in *.
    eapply onlyLogged_trans; [apply onlyLogged_log|].
    eapply onlyLogged_trans; [exact Hs|].
    destruct r; [apply IH; exact Hrest | apply onlyLogged_refl].
Qed.

Lemma PollUpdates_onlyLogged_range last s updates :
  polled getUpdates last s = Bot.Decoded true updates →
  onlyLogged s (snd (rangeUpdates last updates
    (snd (log LDebug "Got %d updates from Telegram"
            [AInt (Z.of_nat (length updates))] (polling last s))))) →
  onlyLogged s (snd (PollUpdates last s)).
Proof.
  intros Hp H. rewrite PollUpdates_run, Hp.
  destruct (rangeUpdates _ _ _) as [r s1]. exact H.
Qed.

(** X13. Who the bot listens to.  When no update of an answer asks for
    anything, that is, none is a callback query or a slash command from the
    configured chat, a poll runs neither handler: whatever the handlers
    would do, the monitor is as before and the history grew by log lines
    only.  The same holds for every answer when no handler is set, and
    when the poll fails. *)
Theorem X13_PollUpdates_ignores_strangers :
  ∀ (lastUpdateID : Z) (s : St),
    (∀ updates,
        polled getUpdates lastUpdateID s = Bot.Decoded true updates →
        forallb (λ u, negb (actionable chatIDInt u)) updates = true →
        onlyLogged s (snd (PollUpdates lastUpdateID s))) ∧
    (commandHandler = None → callbackHandler = None →
        onlyLogged s (snd (PollUpdates lastUpdateID s))) ∧
    (∀ e, fst (fst (PollUpdates lastUpdateID s)) = Bot.Returned (Some e) →
        onlyLogged s (snd (PollUpdates lastUpdateID s))).
Proof.
  intros last s. split_and!.
  - intros updates Hp Hall.
    apply (PollUpdates_onlyLogged_range _ _ updates Hp).
    eapply onlyLogged_trans; [apply onlyLogged_polling|].
    eapply onlyLogged_trans; [apply onlyLogged_log|].
    by apply rangeUpdates_idle.
  - intros Hc Hk. rewrite PollUpdates_run.
    destruct (polled getUpdates last s) as [e|e|[|] updates];
      try apply onlyLogged_polling.
    assert (Hr : ∀ updates l s0, onlyLogged s0 (snd (rangeUpdates l updates s0))).
    { clear updates. induction updates as [|u rest IH]; intros l s0.
      - apply onlyLogged_refl.
      - rewrite rangeUpdates_cons. cbv zeta.
        assert (Hs : ∀ s2, onlyLogged s2 (snd (processUpdate u s2))).
        { intros s2. unfold Bot.processUpdate. rewrite Hc, Hk.
          destruct (Bot.CallbackQuery u) as [cb|].
          - destruct (Bot.Message cb) as [msg|]; [|apply onlyLogged_refl].
            destruct (Bot.Chat msg) as [chat|]; [|apply onlyLogged_refl].
            destruct (chat =? chatIDInt)%Z; [|apply onlyLogged_refl].
            split; [done|]. by eexists [_].
          - destruct (Bot.UpdateMessage u) as [msg|]; [|apply onlyLogged_refl].
            destruct (Bot.Chat msg) as [chat|]; [|apply onlyLogged_refl].
            destruct (chat =? chatIDInt)%Z; simpl.
            + destruct (Bot.parseCommand _); [|apply onlyLogged_refl].
              split; [done|]. by eexists [_].
            + split; [done|]. by eexists [_]. }
        specialize (Hs (snd (log LDebug
                    "Processing update_id=%d, lastUpdateID was %d"
                    [AInt (Bot.UpdateID u); AInt l] s0))).
        destruct (processUpdate u _) as [r s1]. cbn [fst snd] in *.
        eapply onlyLogged_trans; [apply onlyLogged_log|].
        eapply onlyLogged_trans; [exact Hs|].
        destruct r; [apply IH | apply onlyLogged_refl]. }
    specialize (Hr updates last (snd (log LDebug "Got %d updates from Telegram"
            [AInt (Z.of_nat (length updates))] (polling last s)))).
    destruct (rangeUpdates _ _ _) as [r s1]. simpl in *.
    eapply onlyLogged_trans; [apply onlyLogged_polling|].
    eapply onlyLogged_trans; [apply onlyLogged_log|]. exact Hr.
  - intros e. rewrite PollUpdates_run.
    destruct (polled getUpdates last s) as [e'|e'|[|] updates];
      try (intros _; apply onlyLogged_polling).
    destruct (rangeUpdates _ _ _) as [[[[]|] l] s1]; simpl; discriminate.
Qed.

Lemma PollUpdates_one_callback handler last s updateID messageID callbackID
    data :
  callbackHandler = Some handler →
  polled getUpdates last s
  = Bot.Decoded true
      [callbackUpdate updateID chatIDInt messageID callbackID data] →
  ∃ s1, onlyLogged s s1 ∧
        fst (PollUpdates last s) = (Bot.Returned None, updateID) ∧
        onlyLogged (snd (handler callbackID data messageID s1))
          (snd (PollUpdates last s)).
Proof.
  intros Hh Hp.
  set (s1 := snd (log LInfo "Received callback query: %s (update_id=%d)"
                    [AStr data; AInt updateID]
               (snd (log LDebug "Processing update_id=%d, lastUpdateID was %d"
                       [AInt updateID; AInt last]
                  (snd (log LDebug "Got %d updates from Telegram" [AInt 1]
                          (polling last s))))))).
  assert (E : PollUpdates last s
              = let r := handler callbackID data messageID s1 in
                (Bot.Returned None, updateID,
                 match fst r with
                 | Some e => snd (log LError
                                    "Failed to handle callback query: %v"
                                    [AErr (Some e)] (snd r))
                 | None => snd r
                 end)).
  { rewrite PollUpdates_run, Hp. rewrite rangeUpdates_cons. cbv zeta.
    unfold Bot.processUpdate, callbackUpdate. rewrite Hh.
    cbn [Bot.CallbackQuery Bot.Message Bot.Chat Bot.UpdateID Bot.ID Bot.Data
         Bot.MessageID length Z.of_nat Pos.of_succ_nat].
    rewrite Z.eqb_refl. unfold s1, polling, bind, log, emit, ret. simpl.
    destruct (handler _ _ _ _) as [[e|] s2]; reflexivity. }
  exists s1. split; [|split].
  - subst s1.
    eapply onlyLogged_trans; [apply onlyLogged_polling|].
    eapply onlyLogged_trans; [apply onlyLogged_log|].
    eapply onlyLogged_trans; [apply onlyLogged_log|].
    apply onlyLogged_log.
  - by rewrite E.
  - rewrite E. cbv zeta. cbn [snd].
    destruct (fst _); [apply onlyLogged_log | apply onlyLogged_refl].
Qed.

Lemma PollUpdates_one_command handler last s updateID messageID text c :
  commandHandler = Some handler →
  polled getUpdates last s
  = Bot.Decoded true [textUpdate updateID chatIDInt messageID text] →
  Bot.parseCommand text = Some c →
  ∃ s1, onlyLogged s s1 ∧
        fst (PollUpdates last s) = (Bot.Returned None, updateID) ∧
        onlyLogged (snd (handler c s1)) (snd (PollUpdates last s)).
Proof.
  intros Hh Hp Hc.
  set (s1 := snd (log LInfo
                    "Received command: /%s from chat %d (update_id=%d, msg_id=%d)"
                    [AStr c; AInt chatIDInt; AInt updateID; AInt messageID]
               (snd (log LDebug "Processing update_id=%d, lastUpdateID was %d"
                       [AInt updateID; AInt last]
                  (snd (log LDebug "Got %d updates from Telegram" [AInt 1]
                          (polling last s))))))).
  assert (E : PollUpdates last s
              = let r := handler c s1 in
                (Bot.Returned None, updateID,
                 match fst r with
                 | Some e => snd (log LError
                                    "Failed to handle command /%s: %v"
                                    [AStr c; AErr (Some e)] (snd r))
                 | None => snd r
                 end)).
  { rewrite PollUpdates_run, Hp. rewrite rangeUpdates_cons. cbv zeta.
    unfold Bot.processUpdate, textUpdate. rewrite Hh.
    cbn [Bot.CallbackQuery Bot.UpdateMessage Bot.Chat Bot.UpdateID Bot.Text
         Bot.MessageID length Z.of_nat Pos.of_succ_nat].
    rewrite Z.eqb_refl, Hc. unfold s1, polling, bind, log, emit, ret. simpl.
    destruct (handler c _) as [[e|] s2]; reflexivity. }
  exists s1. split; [|split].
  - subst s1.
    eapply onlyLogged_trans; [apply onlyLogged_polling|].
    eapply onlyLogged_trans; [apply onlyLogged_log|].
    eapply onlyLogged_trans; [apply onlyLogged_log|].
    apply onlyLogged_log.
  - by rewrite E.
  - rewrite E. cbv zeta. cbn [snd].
    destruct (fst _); [apply onlyLogged_log | apply onlyLogged_refl].
Qed.

End PollFacts.

Lemma X12_PollUpdates_outcome_witness :
  fst (Bot.PollUpdates 42 failingCommand failingCallback (inbox twoUpdates)
         0 idleState)
  = (Bot.Returned None, 8%Z).
Proof.
  destruct (X12_PollUpdates_outcome 42 failingCommand failingCallback
              (inbox twoUpdates) 0 idleState) as (_ & _ & _ & H & _).
  exact (H twoUpdates eq_refl eq_refl).
Defined.

Lemma X13_PollUpdates_ignores_strangers_witness :
  onlyLogged idleState
    (snd (Bot.PollUpdates 42 failingCommand failingCallback
            (inbox strangerUpdates) 0 idleState)).
Proof.
  destruct (X13_PollUpdates_ignores_strangers 42 failingCommand
              failingCallback (inbox strangerUpdates) 0 idleState)
    as (H & _ & _).
  exact (H strangerUpdates eq_refl eq_refl).
Defined.

Section Wiring.

Variable chatIDInt : Z.
Variable getUpdates : Z → Trace → Bot.Fetched.
Variable commandHandler : string → M error.
Variable handleCBWPSelectInstance : string → string → Z → M error.
Variable handleCBWPBind : string → string → string → Z → M error.
Variable handleCBWPUnbind : string → string → string → Z → M error.
Variable handleCBWPBackToList : Z → M error.
Variable AnswerCallbackQuery : string → string → bool → M error.

Local Abbreviation dispatch :=
  (handleCallbackQuery handleCBWPSelectInstance handleCBWPBind
     handleCBWPUnbind handleCBWPBackToList AnswerCallbackQuery).

Local Abbreviation bot :=
  (Bot.PollUpdates chatIDInt (Some commandHandler) (Some dispatch) getUpdates).

(** X15. A button pressed in the configured chat reaches its handler.
    When a poll brings one callback query from the configured chat whose
    payload is a select, bind or unbind payload with colon-free ids, the
    poll returns nil, moves the offset to that update, and runs exactly the
    matching bandwidth-package handler with the ids of the payload and the
    id of the message: before and after the handler only log lines are
    added. *)
Theorem X15_button_reaches_its_handler :
  ∀ (lastUpdateID : Z) (s : St) (updateID messageID : Z)
    (callbackID instanceID bwpID : string),
    free ":" instanceID = true → free ":" bwpID = true →
    let arrives data :=
      polled getUpdates lastUpdateID s
      = Bot.Decoded true
          [callbackUpdate updateID chatIDInt messageID callbackID data] in
    let runs (handler : M error) :=
      ∃ s1, onlyLogged s s1 ∧
            fst (bot lastUpdateID s) = (Bot.Returned None, updateID) ∧
            onlyLogged (snd (handler s1)) (snd (bot lastUpdateID s)) in
    (arrives (selectData instanceID) →
     runs (handleCBWPSelectInstance callbackID instanceID messageID)) ∧
    (arrives (bindData instanceID bwpID) →
     runs (handleCBWPBind callbackID instanceID bwpID messageID)) ∧
    (arrives (unbindData instanceID bwpID) →
     runs (handleCBWPUnbind callbackID instanceID bwpID messageID)).
Proof.
  intros last s updateID messageID callbackID instanceID bwpID Hi Hb.
  cbv zeta. split_and!; intros Hp;
    destruct (PollUpdates_one_callback chatIDInt (Some commandHandler)
                (Some dispatch) getUpdates dispatch last s updateID messageID
                callbackID _ eq_refl Hp)
      as (s1 & H1 & H2 & H3); exists s1; (split; [done|]); (split; [done|]).
  - by rewrite dispatch_select, (firstPiece_free _ _ Hi) in H3.
  - by rewrite dispatch_bind in H3.
  - by rewrite dispatch_unbind in H3.
Qed.

End Wiring.

Section CommandWiring.

Variable chatIDInt : Z.
Variable getUpdates : Z → Trace → Bot.Fetched.
Variable callbackHandler : string → string → Z → M error.
Variable SendBillingReport : M error.
Variable SendTrafficReport : M error.
Variable sendStatusReport : M error.
Variable sendCBWPInstanceList : M error.
Variable SendGCPCreditsReport : M error.
Variable sendHelpMessage : M error.

Local Abbreviation command :=
  (handleBotCommand SendBillingReport SendTrafficReport sendStatusReport
     sendCBWPInstanceList SendGCPCreditsReport sendHelpMessage).

Local Abbreviation bot :=
  (Bot.PollUpdates chatIDInt (Some command) (Some callbackHandler) getUpdates).

Lemma handleBotCommand_unknown c s :
  c ∉ knownCommands → onlyLogged s (snd (command c s)).
Proof.
  intros Hc. unfold handleBotCommand.
  assert (Hn : ∀ k, k ∈ knownCommands → String.eqb c k = false).
  { intros k Hk. apply String.eqb_neq. intros ->. by apply Hc. }
  unfold knownCommands in Hn.
  rewrite !Hn by (repeat first [apply list_elem_of_here
                               | apply list_elem_of_further]).
  simpl. apply onlyLogged_log.
Qed.

(** X14. A command typed in the configured chat reaches the dispatcher.
    When a poll brings one message from the configured chat that spells a
    command name without space or at-sign, alone, with arguments or
    addressed to a bot, the poll returns nil, moves the offset to that
    update and runs the command dispatcher exactly once on that name, with
    only log lines before and after.  If the name is none of the twelve
    known commands, the whole poll adds nothing but log lines. *)
Theorem X14_command_reaches_dispatcher :
  ∀ (lastUpdateID : Z) (s : St) (updateID messageID : Z)
    (c rest text : string),
    free " " c = true → free "@" c = true →
    text ∈ spellings c rest →
    polled getUpdates lastUpdateID s
    = Bot.Decoded true [textUpdate updateID chatIDInt messageID text] →
    fst (bot lastUpdateID s) = (Bot.Returned None, updateID) ∧
    (∃ s1, onlyLogged s s1 ∧
           onlyLogged (snd (command c s1)) (snd (bot lastUpdateID s))) ∧
    (c ∉ knownCommands → onlyLogged s (snd (bot lastUpdateID s))).
Proof.
  intros last s updateID messageID c rest text Hs Ha Ht Hp.
  assert (Hc : Bot.parseCommand text = Some c).
  { unfold spellings in Ht.
    apply elem_of_cons in Ht as [->|Ht]; [by apply parseCommand_bare|].
    apply elem_of_cons in Ht as [->|Ht]; [by apply parseCommand_args|].
    apply list_elem_of_singleton in Ht as ->.
    by apply parseCommand_addressed. }
  destruct (PollUpdates_one_command chatIDInt (Some command)
              (Some callbackHandler) getUpdates command last s updateID
              messageID text c eq_refl Hp Hc)
    as (s1 & H1 & H2 & H3).
  split_and!; [done | by exists s1 |].
  intros Hu. eapply onlyLogged_trans; [exact H1|].
  eapply onlyLogged_trans; [|exact H3].
  by apply handleBotCommand_unknown.
Qed.

End CommandWiring.

Lemma X14_command_reaches_dispatcher_witness :
  fst (Bot.PollUpdates 42 (Some echoCommand) (Some echoDispatch)
         (inbox feeTyped) 0 idleState)
  = (Bot.Returned None, 7%Z).
Proof.
  assert (Hin : "/fee@spot_bot" ∈ spellings "fee" "spot_bot").
  { unfold spellings. apply list_elem_of_further, list_elem_of_further,
      list_elem_of_here. }
  exact (proj1 (X14_command_reaches_dispatcher 42 (inbox feeTyped)
                  echoDispatch (namedReport "billing")
                  (namedReport "traffic") (namedReport "status")
                  (namedReport "cbwp") (namedReport "gcpcredits")
                  (namedReport "help") 0 idleState 7 100 "fee" "spot_bot"
                  "/fee@spot_bot" eq_refl eq_refl Hin eq_refl)).
Defined.

Lemma X15_button_reaches_its_handler_witness :
  ∃ s1, onlyLogged idleState s1 ∧
        fst (Bot.PollUpdates 42 (Some echoCommand) (Some echoDispatch)
               (inbox bindPressed) 0 idleState)
        = (Bot.Returned None, 8%Z) ∧
        onlyLogged (snd (echoBind "cb-1" "i-001" "cbwp-7" 101 s1))
          (snd (Bot.PollUpdates 42 (Some echoCommand) (Some echoDispatch)
                  (inbox bindPressed) 0 idleState)).
Proof.
  pose proof (X15_button_reaches_its_handler 42 (inbox bindPressed)
                echoCommand echoSelect echoBind echoUnbind echoBack
                echoAnswer 0 idleState 8 101 "cb-1" "i-001" "cbwp-7"
                eq_refl eq_refl) as H.
  cbv zeta in H. destruct H as (_ & H & _). exact (H eq_refl).
Defined.

(** ** Listing the spot instances of a region *)

Lemma wrap64_small z : (- 2 ^ 63 ≤ z < 2 ^ 63)%Z → wrap64 z = z.
Proof. intros H. unfold wrap64. rewrite Z.mod_small; lia. Qed.

Lemma spots_app regionID (a b : list SDK.Instance) :
  Listing.spots regionID (a ++ b)
  = (Listing.spots regionID a ++ Listing.spots regionID b)%list.
Proof. unfold Listing.spots. by rewrite filter_app, map_app. Qed.

Section ListingFacts.

Variable DescribeInstances : Z → result (list SDK.Instance).
Variable regionID : string.

Local Abbreviation describePages :=
  (Listing.describePages DescribeInstances regionID).
Local Abbreviation GetSpotInstances :=
  (Listing.GetSpotInstances DescribeInstances regionID).

Lemma describePages_full full : ∀ (n fuel : nat) acc,
  (Z.of_nat (S n + length full) < 2 ^ 63)%Z →
  (∀ (i : nat) page, full !! i = Some page →
     DescribeInstances (Z.of_nat (S (n + i))) = Ok page) →
  Listing.allFull full →
  (length full ≤ fuel)%nat →
  describePages fuel (Z.of_nat (S n)) acc
  = describePages (fuel - length full) (Z.of_nat (S (n + length full)))
      (acc ++ Listing.spots regionID (concat full)).
Proof.
  induction full as [|page full IH]; intros n fuel acc Hb Hs Hf Hl.
  - simpl. rewrite Nat.sub_0_r, Nat.add_0_r.
    unfold Listing.spots. simpl. by rewrite app_nil_r.
  - destruct fuel as [|fuel]; [simpl in Hl; lia|].
    apply Forall_cons in Hf as [Hp Hf].
    cbn [Listing.describePages].
    rewrite <- (Nat.add_0_r n) at 1. rewrite (Hs 0%nat page eq_refl).
    assert ((Z.of_nat (length page) <? Listing.pageSize)%Z = false) as ->
      by (apply Z.ltb_ge; exact Hp).
    rewrite wrap64_small by (simpl length in Hb; lia).
    replace (Z.of_nat (S n) + 1)%Z with (Z.of_nat (S (S n))) by lia.
    rewrite (IH (S n) fuel).
    + simpl length. simpl concat. rewrite spots_app, app_assoc.
      replace (S n + length full)%nat with (n + S (length full))%nat by lia.
      done.
    + simpl length in Hb. lia.
    + intros i p Hi. replace (S n + i)%nat with (n + S i)%nat by lia.
      by apply (Hs (S i)).
    + done.
    + simpl in Hl. lia.
Qed.

Lemma describePages_invariant (P : SpotInstance → Prop) :
  (∀ inst, Listing.isSpot inst = true →
           P (Listing.toSpotInstance regionID inst)) →
  ∀ fuel pageNumber acc l,
    Forall P acc →
    describePages fuel pageNumber acc = Some (Ok l) → Forall P l.
Proof.
  intros HP. induction fuel as [|fuel IH]; intros pageNumber acc l Hacc;
    [done|].
  cbn [Listing.describePages].
  destruct (DescribeInstances pageNumber) as [page|e]; [|done].
  assert (Hnew : Forall P (acc ++ Listing.spots regionID page)).
  { apply Forall_app. split; [done|]. unfold Listing.spots.
    apply Forall_map, Forall_forall. intros inst Hin.
    apply list_elem_of_filter in Hin as [Hin _]. by apply HP. }
  destruct (_ <? _)%Z.
  - intros [= <-]. exact Hnew.
  - intros H. exact (IH _ _ _ Hnew H).
Qed.

(** X16. How [GetSpotInstances] pages.  Listing starts at page 1 and goes
    on as long as a page holds at least 100 instances.  When the pages
    before the first short one are all full, the result is the spot
    instances of all those pages and of the short one, in page order, and
    no later page is asked for: the rest of the answers does not matter.
    When instead a request fails after full pages, the result is the
    wrapped error and the instances found on the earlier pages are dropped.
    As long as pages stay full the listing does not end. *)
Theorem X16_GetSpotInstances_pages :
  ∀ (full : list (list SDK.Instance)),
    (Z.of_nat (length full) < 2 ^ 62)%Z →
    Listing.serves DescribeInstances full →
    Listing.allFull full →
    let next := Z.of_nat (S (length full)) in
    (∀ fuel, (fuel ≤ length full)%nat → GetSpotInstances fuel None = None) ∧
    (∀ short fuel,
        DescribeInstances next = Ok short →
        (Z.of_nat (length short) < Listing.pageSize)%Z →
        (length full < fuel)%nat →
        GetSpotInstances fuel None
        = Some (Ok (Listing.spots regionID (concat full ++ short)))) ∧
    (∀ e fuel,
        DescribeInstances next = Err e →
        (length full < fuel)%nat →
        GetSpotInstances fuel None
        = Some (Err (wrapErr ("failed to describe instances in region "
                              +:+ regionID) e))).
Proof.
  intros full Hb Hs Hf. cbv zeta.
  assert (Hrun : ∀ fuel, (length full ≤ fuel)%nat →
            GetSpotInstances fuel None
            = describePages (fuel - length full)
                (Z.of_nat (S (length full)))
                (Listing.spots regionID (concat full))).
  { intros fuel Hl. unfold Listing.GetSpotInstances.
    change 1%Z with (Z.of_nat 1).
    rewrite (describePages_full full 0 fuel []); [done| lia | | done | done].
    intros i page Hi. by apply Hs. }
  split_and!.
  - intros fuel Hl.
    assert (Hstarved : ∀ pages n fuel acc,
              (Z.of_nat (S n + length pages) < 2 ^ 63)%Z →
              (∀ (i : nat) page, pages !! i = Some page →
                 DescribeInstances (Z.of_nat (S (n + i))) = Ok page) →
              Listing.allFull pages → (fuel ≤ length pages)%nat →
              describePages fuel (Z.of_nat (S n)) acc = None).
    { clear. induction pages as [|page pages IH]; intros n fuel acc Hb Hs Hf Hl.
      - simpl in Hl. by replace fuel with 0%nat by lia.
      - destruct fuel as [|fuel]; [done|].
        apply Forall_cons in Hf as [Hp Hf]. cbn [Listing.describePages].
        rewrite <- (Nat.add_0_r n) at 1. rewrite (Hs 0%nat page eq_refl).
        assert ((Z.of_nat (length page) <? Listing.pageSize)%Z = false) as ->
          by (apply Z.ltb_ge; exact Hp).
        rewrite wrap64_small by (simpl length in Hb; lia).
        replace (Z.of_nat (S n) + 1)%Z with (Z.of_nat (S (S n))) by lia.
        apply IH.
        + simpl length in Hb. lia.
        + intros i p Hi. replace (S n + i)%nat with (n + S i)%nat by lia.
          by apply (Hs (S i)).
        + done.
        + simpl in Hl. lia. }
    unfold Listing.GetSpotInstances. change 1%Z with (Z.of_nat 1).
    apply (Hstarved full 0%nat); [lia | | done | done].
    intros i page Hi. by apply Hs.
  - intros short fuel Hn Hshort Hl. rewrite Hrun by lia.
    destruct (fuel - length full)%nat as [|rest] eqn:Hrest; [lia|].
    cbn [Listing.describePages]. rewrite Hn.
    assert ((Z.of_nat (length short) <? Listing.pageSize)%Z = true) as ->
      by (apply Z.ltb_lt; exact Hshort).
    by rewrite spots_app.
  - intros e fuel Hn Hl. rewrite Hrun by lia.
    destruct (fuel - length full)%nat as [|rest] eqn:Hrest; [lia|].
    cbn [Listing.describePages]. by rewrite Hn.
Qed.

(** X17. What [GetSpotInstances] lists.  Whatever the API answers, every
    record of a successful listing is a spot instance, its strategy is
    neither empty nor NoSpot, and it carries the region that was asked
    for.  When no regional client can be made the listing fails with that
    error without any request. *)
Theorem X17_GetSpotInstances_lists_spot_only :
  ∀ (fuel : nat) (client : error),
    (∀ l, GetSpotInstances fuel client = Some (Ok l) →
          client = None ∧
          Forall (λ inst, RegionID inst = regionID ∧
                          SpotStrategy inst ≠ "NoSpot" ∧
                          SpotStrategy inst ≠ "") l) ∧
    (∀ e, client = Some e → GetSpotInstances fuel client = Some (Err e)).
Proof.
  intros fuel client. split.
  - intros l. destruct client as [e|]; [done|]. intros H. split; [done|].
    unfold Listing.GetSpotInstances in H.
    refine (describePages_invariant
              (λ inst, RegionID inst = regionID ∧ SpotStrategy inst ≠ "NoSpot"
                       ∧ SpotStrategy inst ≠ "")
              _ fuel 1%Z [] l (Forall_nil_2 _) H).
    intros inst Hspot. unfold Listing.isSpot in Hspot.
    apply andb_prop in Hspot as [H1 H2].
    apply negb_true_iff in H1, H2.
    apply String.eqb_neq in H1, H2. done.
  - by intros e ->.
Qed.

End ListingFacts.

Lemma X16_GetSpotInstances_pages_witness :
  Listing.GetSpotInstances twoPages "cn-hangzhou" 2 None
  = Some (Ok (Listing.spots "cn-hangzhou" (concat [fullPage] ++ shortPage))).
Proof.
  assert (Hs : Listing.serves twoPages [fullPage]).
  { intros [|i] page H; simpl in H.
    - injection H as <-. reflexivity.
    - destruct i; discriminate H. }
  assert (Hf : Listing.allFull [fullPage]).
  { apply Forall_cons. split; [|apply Forall_nil_2].
    vm_compute. discriminate. }
  destruct (X16_GetSpotInstances_pages twoPages "cn-hangzhou" [fullPage]
              eq_refl Hs Hf) as (_ & H & _).
  apply (H shortPage 2%nat eq_refl eq_refl). simpl. lia.
Defined.

Lemma X17_GetSpotInstances_lists_spot_only_witness :
  Forall (λ inst, RegionID inst = "cn-hangzhou" ∧
                  SpotStrategy inst ≠ "NoSpot" ∧ SpotStrategy inst ≠ "")
    (Listing.spots "cn-hangzhou" (fullPage ++ shortPage)).
Proof.
  destruct (X17_GetSpotInstances_lists_spot_only twoPages "cn-hangzhou" 2
              None) as [H _].
  apply (H (Listing.spots "cn-hangzhou" (fullPage ++ shortPage))).
  vm_compute. reflexivity.
Defined.

(** ** The bandwidth-package conversation *)

Ltac desk_run :=
  cbv beta iota zeta delta
    [dbind dret dcall dlog AnswerCallbackQuery EditMessageText
     SendMessageWithKeyboard Send DescribeEipAddresses
     DescribeCommonBandwidthPackages AddCommonBandwidthPackageIp
     RemoveCommonBandwidthPackageIp deskNow].

Ltac desk_done :=
  rewrite <- ?app_assoc; cbn [app fst snd];
  eexists; split; [reflexivity|]; cbn;
  solve [split_and!; first [done | eauto]].

Lemma string_app_assoc (a b c : string) : (a +:+ b) +:+ c = a +:+ (b +:+ c).
Proof.
  induction a as [|x a IH]; [done|].
  change (String x ((a +:+ b) +:+ c) = String x (a +:+ (b +:+ c))).
  by rewrite IH.
Qed.

Section DeskFacts.

Variable env : DeskEnv.
Variable instances : list SpotInstance.


Lemma shown_app (a b : DeskTrace) :
  shown (a ++ b)%list = (shown a ++ shown b)%list.
Proof.
  induction a as [|e a IH]; [done|].
  destruct e; cbn; rewrite ?IH, ?app_assoc; done.
Qed.

Lemma buttonsOf_asSlice rows : buttonsOf (asSlice rows) = concat rows.
Proof. by destruct rows. Qed.

Lemma Split_cut_length sep a rest :
  (2 ≤ length (GoStrings.Split (a +:+ String sep rest) sep))%nat.
Proof.
  induction a as [|c a IH].
  - change ("" +:+ String sep rest) with (String sep rest).
    cbn [GoStrings.Split]. rewrite Ascii.eqb_refl. cbn [length].
    destruct (GoStrings.Split rest sep) eqn:Hs; [|cbn; lia].
    by destruct (GoStrings_Split_nonempty rest sep).
  - change (String c a +:+ String sep rest)
      with (String c (a +:+ String sep rest)).
    cbn [GoStrings.Split]. destruct (Ascii.eqb c sep); [cbn; lia|].
    destruct (GoStrings.Split (a +:+ String sep rest) sep); cbn in *; lia.
Qed.

Lemma acted_on data action rest :
  GoStrings.Split data ":" = "cbwp" :: action :: rest →
  GoStrings.HasPrefix data "cbwp" = true →
  (action = "select" ∧ (1 ≤ length rest)%nat) ∨
  ((action = "bind" ∨ action = "unbind") ∧ (2 ≤ length rest)%nat) ∨
  action = "back" →
  ¬ malformed data.
Proof.
  intros Hs Hp Hc Hm. unfold malformed, part in Hm. rewrite Hs, Hp in Hm.
  cbn [nth length] in Hm.
  destruct Hm as [Hm|[Hm|[(H1 & H2 & H3 & H4)|[[Ha Hl]|[Ha Hl]]]]].
  - done.
  - lia.
  - destruct Hc as [[-> _]|[[[->| ->] _]| ->]]; done.
  - destruct Hc as [[_ Hr]|[[[->| ->] _]| ->]]; [lia|done..].
  - destruct Hc as [[-> _]|[[_ Hr]| ->]]; [|lia|].
    + by destruct Ha.
    + by destruct Ha.
Qed.

Lemma understood_select text instanceID :
  understood {| Telegram.Text := text;
                Telegram.CallbackData := selectData instanceID |}.
Proof.
  unfold understood. cbn.
  apply (acted_on _ "select" (GoStrings.Split instanceID ":")); [|done|].
  - change (selectData instanceID)
      with ("cbwp" +:+ String ":" ("select" +:+ String ":" instanceID)).
    by rewrite !Split_app_sep.
  - left. split; [done|].
    destruct (GoStrings.Split instanceID ":") eqn:Hs; [|cbn; lia].
    by destruct (GoStrings_Split_nonempty instanceID ":").
Qed.

Lemma understood_bind text instanceID bwpID :
  understood {| Telegram.Text := text;
                Telegram.CallbackData := bindData instanceID bwpID |}.
Proof.
  unfold understood. cbn.
  apply (acted_on _ "bind"
           (GoStrings.Split (instanceID +:+ String ":" bwpID) ":"));
    [|done|].
  - change (bindData instanceID bwpID)
      with ("cbwp" +:+ String ":" ("bind" +:+ String ":"
              (instanceID +:+ String ":" bwpID))).
    by rewrite (Split_app_sep ":" "cbwp"), (Split_app_sep ":" "bind").
  - right. left. split; [by left|]. apply Split_cut_length.
Qed.

Lemma understood_unbind text instanceID bwpID :
  understood {| Telegram.Text := text;
                Telegram.CallbackData := unbindData instanceID bwpID |}.
Proof.
  unfold understood. cbn.
  apply (acted_on _ "unbind"
           (GoStrings.Split (instanceID +:+ String ":" bwpID) ":"));
    [|done|].
  - change (unbindData instanceID bwpID)
      with ("cbwp" +:+ String ":" ("unbind" +:+ String ":"
              (instanceID +:+ String ":" bwpID))).
    by rewrite (Split_app_sep ":" "cbwp"), (Split_app_sep ":" "unbind").
  - right. left. split; [by right|]. apply Split_cut_length.
Qed.

Lemma understood_back text : Forall understood (backButton text).
Proof.
  apply Forall_cons. split; [|apply Forall_nil_2].
  unfold understood. cbn. apply (acted_on _ "back" []); [done|done|].
  by right; right.
Qed.

Lemma understood_instanceRows :
  Forall understood (concat (instanceRows instances)).
Proof.
  unfold instanceRows. induction instances as [|inst l IH]; cbn.
  - apply Forall_nil_2.
  - apply Forall_cons. split; [apply understood_select | exact IH].
Qed.

Lemma understood_selectionRows instanceID eips bwps :
  Forall understood (concat (selectionRows instanceID eips bwps)).
Proof.
  unfold selectionRows. rewrite concat_app. apply Forall_app. split.
  - induction eips as [|eip eips IH]; cbn; [apply Forall_nil_2|].
    rewrite concat_app. apply Forall_app. split; [|exact IH].
    unfold eipRows. destruct (negb _); cbn.
    + apply Forall_cons. split; [apply understood_unbind | apply Forall_nil_2].
    + clear. induction bwps as [|bwp bwps IH]; cbn; [apply Forall_nil_2|].
      apply Forall_cons. split; [apply understood_bind | exact IH].
  - cbn [concat]. rewrite app_nil_r. apply understood_back.
Qed.

Ltac shown_step :=
  rewrite ?shown_app; cbn [shown buttonsOf app concat];
  rewrite ?app_nil_r, ?buttonsOf_asSlice;
  repeat (apply Forall_app; split);
  first [ assumption | apply Forall_nil_2 | apply understood_back
        | apply understood_instanceRows | apply understood_selectionRows ].



(** X20. The screens only read.  Opening the instance list, going back to
    it and selecting an instance never attach or detach an address.  The
    selection acknowledges the press, queries the addresses of a tracked
    instance only, and ends with exactly one edit of the message, whose
    outcome it returns; going back is that one edit and nothing else; the
    list command sends at most one message, and none when the bot handler
    or the bandwidth-package client is missing. *)
Theorem X20_screens_only_read :
  ∀ (callbackID instanceID : string) (messageID : Z)
    (hasBotHandler hasCbwpClient : bool) (tr : DeskTrace),
    (let r := handleCBWPSelectInstance env instances callbackID instanceID
                messageID tr in
     ∃ new,
       snd r = (tr ++ new)%list ∧
       (∃ text keyboard,
          last new = Some (DEditMessageText messageID text keyboard (fst r))) ∧
       dcount isOutgoing new = 1%nat ∧
       adds new = [] ∧ removes new = [] ∧
       (findInstance instances instanceID = None → eipQueries new = [])) ∧
    (let r := handleCBWPBackToList env instances messageID tr in
     ∃ text keyboard,
       snd r = (tr ++ [DEditMessageText messageID text keyboard (fst r)])%list) ∧
    (let r := sendCBWPInstanceList env instances hasBotHandler hasCbwpClient
                tr in
     ∃ new,
       snd r = (tr ++ new)%list ∧
       adds new = [] ∧ removes new = [] ∧ eipQueries new = [] ∧
       (dcount isOutgoing new ≤ 1)%nat ∧
       (hasBotHandler && hasCbwpClient = false →
        new = [] ∧ ∃ e, fst r = Some e)).
Proof.
  intros callbackID instanceID messageID hasBotHandler hasCbwpClient tr.
  cbv zeta. split_and!.
  - unfold handleCBWPSelectInstance. desk_run.
    destruct (findInstance instances instanceID) as [inst|]; [|desk_done].
    destruct (cbwpDescribeEipAddresses env _ _ _) as [[|eip eips]|e];
      [desk_done| |desk_done].
    destruct (cbwpDescribeCommonBandwidthPackages env _ _) as [[|bwp bwps]|e];
      desk_done.
  - unfold handleCBWPBackToList. desk_run.
    destruct instances; cbn; eauto.
  - unfold sendCBWPInstanceList. desk_run.
    destruct hasBotHandler; cbn.
    2: { exists []. rewrite app_nil_r. split_and!; eauto. }
    destruct hasCbwpClient; cbn.
    2: { exists []. rewrite app_nil_r. split_and!; eauto. }
    destruct instances; cbn; eexists; (split; [reflexivity|]); cbn;
      split_and!; first [done | lia | eauto].
Qed.

Lemma statusBlocks_spec l : ∀ sb tr,
  ∃ new,
    snd (statusBlocks env l sb tr) = (tr ++ new)%list ∧
    length new = length l ∧
    asked (statusQueries new) = located l ∧
    fst (statusBlocks env l sb tr)
    = sb +:+ reportBody l (statuses (statusQueries new)).
Proof.
  induction l as [|inst l IH]; intros sb tr.
  - exists []. cbn. rewrite app_nil_r. split_and!; try done.
    by rewrite append_empty_r.
  - cbn [statusBlocks]. unfold dbind, dcall.
    destruct (IH (sb +:+ statusBlock inst (shownStatus
                (deskGetInstanceStatus env tr (RegionID inst)
                   (InstanceID inst))))
                (tr ++ [DGetInstanceStatus (RegionID inst) (InstanceID inst)
                          (deskGetInstanceStatus env tr (RegionID inst)
                             (InstanceID inst))])%list)
      as (new & T & L & A & F).
    eexists (_ :: new). rewrite T, F. rewrite <- app_assoc.
    split_and!; [done | by cbn; rewrite L | |].
    { unfold asked, located in *. cbn. by rewrite A. }
    cbn [statusQueries statuses map reportBody snd].
    apply string_app_assoc.
Qed.

(** X21. The status report.  Without a notifier [sendStatusReport] returns
    its error and does nothing.  Otherwise it asks for the status of every
    tracked instance exactly once, in registry order, and then sends exactly
    one message, whose outcome it returns: a fixed text when nothing is
    tracked, and otherwise the header followed by one block per instance in
    registry order, where an instance whose status query failed is shown as
    Unknown.  No query failure makes the report fail. *)
Theorem X21_status_report_asks_each_instance_once :
  ∀ (tr : DeskTrace),
    sendStatusReport env instances false tr
    = (Some "telegram notifier not initialized", tr) ∧
    (let r := sendStatusReport env instances true tr in
     ∃ queries text,
       snd r = (tr ++ queries ++ [DSend text (fst r)])%list ∧
       length queries = length instances ∧
       asked (statusQueries queries) = located instances ∧
       (instances ≠ [] →
        text = statusHeader
               +:+ reportBody instances (statuses (statusQueries queries)))).
Proof.
  intros tr. split; [done|]. cbv zeta. unfold sendStatusReport.
  destruct instances as [|inst l] eqn:Hi.
  - cbn. unfold Send, dcall. cbn. eexists [], _. cbn.
    split_and!; try done.
  - rewrite <- Hi. clear Hi. cbn [negb]. unfold dbind, Send, dcall.
    destruct (statusBlocks_spec instances statusHeader tr)
      as (new & T & L & A & F).
    destruct (statusBlocks env instances statusHeader tr) as [text tr1].
    cbn [fst snd] in *. subst tr1. exists new, text.
    rewrite <- app_assoc. split_and!; done.
Qed.

End DeskFacts.




(** ** The GCP credits *)

Section GCPFacts.

Variable Unmarshal : string → result (list (string * GCP.JSON)).
Variable billingAccountID : string.
Variable token : string → result string.
Variable newRequest : string → error.
Variable do : string → string → result (string * Z).

Local Abbreviation extractTotalCost := (GCP.extractTotalCost Unmarshal).
Local Abbreviation doRequest := (GCP.doRequest token newRequest do).
Local Abbreviation queryTotalCost :=
  (GCP.queryTotalCost Unmarshal billingAccountID token newRequest do).
Local Abbreviation QueryCostSummary :=
  (GCP.QueryCostSummary Unmarshal billingAccountID token newRequest do).

Lemma queryTotalCost_ok a :
  fst queryTotalCost = Ok a ↔
  ∃ body, doRequest (GCP.costURL billingAccountID) = Ok (body, GCP.StatusOK) ∧
          extractTotalCost body = a ∧ flt 0%float a = true.
Proof.
  unfold GCP.queryTotalCost. split.
  - destruct (doRequest (GCP.costURL billingAccountID)) as [[body status]|e];
      [|done].
    destruct (status =? GCP.StatusOK)%Z eqn:Hs; cbn [andb].
    + destruct (flt 0%float (extractTotalCost body)) eqn:Hp.
      * cbn. intros [= <-]. apply Z.eqb_eq in Hs as ->. by exists body.
      * destruct (doRequest (GCP.infoURL billingAccountID))
          as [[infoBody infoStatus]|e]; [|done].
        by destruct (negb _).
    + destruct (doRequest (GCP.infoURL billingAccountID))
        as [[infoBody infoStatus]|e]; [|done].
      by destruct (negb _).
  - intros (body & -> & <- & Hp). by rewrite Z.eqb_refl, Hp.
Qed.


End GCPFacts.


Section CreditsFacts.

Variable env : Env.
Variable hasGcpBilling : bool.
Variable GCPCreditsTotal : float.
Variable GCPCreditsAlertPercent : float.
Variable QueryCostSummary : float → M (result GCP.CreditsSummary).
Variable NotifyGCPCreditsLow : GCP.CreditsSummary → float → M error.

Hypothesis clientKeepsMonitor : ∀ total, keepsMonitor (QueryCostSummary total).
Hypothesis notifierKeepsMonitor :
  ∀ summary pct, keepsMonitor (NotifyGCPCreditsLow summary pct).

Local Abbreviation CheckGCPCredits :=
  (CheckGCPCredits env hasGcpBilling GCPCreditsTotal GCPCreditsAlertPercent
     QueryCostSummary NotifyGCPCreditsLow).

Lemma canNotify_keepsMonitor k : keepsMonitor (canNotify env k).
Proof.
  intros s. unfold canNotify, now. run_monad.
  by destruct (lastNotify (mon s) !! k).
Qed.

Lemma CheckGCPCredits_run s :
  CheckGCPCredits s
  = if negb hasGcpBilling then (None, s)
    else
      let q := QueryCostSummary GCPCreditsTotal s in
      match fst q with
      | Err e => (Some (wrapErr "failed to query GCP costs" e), snd q)
      | Ok summary =>
          let s2 := snd (log LDebug "GCP credits: $%.2f remaining (%.1f%%)"
                           [AFloat (GCP.RemainingAmount summary);
                            AFloat (GCP.RemainingPct summary)] (snd q)) in
          if fle (GCP.RemainingPct summary) GCPCreditsAlertPercent
             && hasNotifier (mon s2) then
            let c := canNotify env "gcp-credits" s2 in
            if fst c then
              let n := NotifyGCPCreditsLow summary GCPCreditsAlertPercent
                         (snd c) in
              match fst n with
              | Some e => (Some e, snd n)
              | None => (None, snd (updateNotifyTime env "gcp-credits" (snd n)))
              end
            else (None, snd c)
          else (None, s2)
      end.
Proof.
  unfold CheckGCPCredits. destruct hasGcpBilling; [|done]. cbn [negb].
  unfold bind at 1. destruct (QueryCostSummary GCPCreditsTotal s)
    as [[summary|e] s1]; [|done].
  cbv zeta. cbn [fst snd]. unfold bind at 1. unfold log at 1, emit.
  unfold bind at 1. unfold getMon at 1.
  cbn [mon fst snd].
  destruct (fle _ _ && hasNotifier _); [|done].
  unfold bind at 1. unfold log, emit. cbn [snd].
  destruct (canNotify env "gcp-credits" _) as [[|] s3]; [|done].
  cbn [fst snd]. unfold bind at 1.
  destruct (NotifyGCPCreditsLow summary GCPCreditsAlertPercent s3)
    as [[e|] s4]; [done|].
  cbn [fst snd]. unfold bind, ret.
  by destruct (updateNotifyTime env "gcp-credits" s4).
Qed.


End CreditsFacts.


(** ** Loading the configuration *)

Section LoadFacts.

Variable Getenv : string → string.
Variable ParseFloat : string → option float.

Local Abbreviation Load := (Conf.Load Getenv ParseFloat).
Local Abbreviation fromEnv := (Conf.fromEnv Getenv ParseFloat).

Lemma getEnvBool_true key :
  Conf.getEnvBool Getenv key true = negb (Conf.off (Getenv key)).
Proof.
  unfold Conf.getEnvBool, Conf.ParseBool, Conf.off.
  destruct (String.eqb_spec (Getenv key) "") as [->|_]; [done|].
  cbn [negb].
  destruct (String.eqb_spec (Getenv key) "1") as [->|_]; [done|].
  destruct (String.eqb_spec (Getenv key) "t") as [->|_]; [done|].
  destruct (String.eqb_spec (Getenv key) "T") as [->|_]; [done|].
  destruct (String.eqb_spec (Getenv key) "TRUE") as [->|_]; [done|].
  destruct (String.eqb_spec (Getenv key) "true") as [->|_]; [done|].
  destruct (String.eqb_spec (Getenv key) "True") as [->|_]; [done|].
  cbn [orb]. by destruct (_ || _).
Qed.

(** X25. What [Load] requires.  Loading succeeds exactly when both
    credentials are set and, unless Telegram is switched off, the bot token
    and the chat id are set too; Telegram is switched off only by one of
    the six spellings of false that [strconv.ParseBool] accepts, so an
    unset variable and values such as no or off leave it on.  The missing
    setting that is reported is the first one in the order key id, secret,
    bot token, chat id, and a loaded configuration is the one read from the
    environment. *)
Theorem X25_Load_requirements :
  let keyID := Getenv "ALIYUN_ACCESS_KEY_ID" in
  let secret := Getenv "ALIYUN_ACCESS_KEY_SECRET" in
  let botToken := Getenv "TELEGRAM_BOT_TOKEN" in
  let chatID := Getenv "TELEGRAM_CHAT_ID" in
  let telegramOff := Conf.off (Getenv "TELEGRAM_ENABLED") in
  ((∃ cfg, Load = Ok cfg) ↔
   keyID ≠ "" ∧ secret ≠ "" ∧
   (telegramOff = true ∨ (botToken ≠ "" ∧ chatID ≠ ""))) ∧
  (∀ cfg, Load = Ok cfg →
          cfg = fromEnv ∧ Conf.TelegramEnabled cfg = negb telegramOff) ∧
  (keyID = "" → Load = Err "ALIYUN_ACCESS_KEY_ID is required") ∧
  (keyID ≠ "" → secret = "" →
   Load = Err "ALIYUN_ACCESS_KEY_SECRET is required") ∧
  (keyID ≠ "" → secret ≠ "" → telegramOff = false → botToken = "" →
   Load = Err "TELEGRAM_BOT_TOKEN is required when Telegram is enabled") ∧
  (keyID ≠ "" → secret ≠ "" → telegramOff = false → botToken ≠ "" →
   chatID = "" →
   Load = Err "TELEGRAM_CHAT_ID is required when Telegram is enabled").
Proof.
  cbv zeta. unfold Conf.Load.
  cbn [Conf.AliyunAccessKeyID Conf.AliyunAccessKeySecret Conf.TelegramEnabled
       Conf.TelegramBotToken Conf.TelegramChatID Conf.fromEnv].
  rewrite getEnvBool_true.
  destruct (String.eqb_spec (Getenv "ALIYUN_ACCESS_KEY_ID") "") as [Hk|Hk].
  { split_and!; try done. split; [by intros [cfg H]|by intros [H _]]. }
  destruct (String.eqb_spec (Getenv "ALIYUN_ACCESS_KEY_SECRET") "") as [Hs|Hs].
  { split_and!; try done. split; [by intros [cfg H]|by intros (_ & H & _)]. }
  destruct (Conf.off (Getenv "TELEGRAM_ENABLED")) eqn:Hoff; cbn [negb].
  { split_and!; try done.
    - split; [intros _; split_and!; auto | intros _; eauto].
    - intros cfg [= <-]. split; [done|]. cbn. by rewrite getEnvBool_true, Hoff. }
  destruct (String.eqb_spec (Getenv "TELEGRAM_BOT_TOKEN") "") as [Ht|Ht].
  { split_and!; try done.
    split; [by intros [cfg H]|]. intros (_ & _ & [H|[H _]]); done. }
  destruct (String.eqb_spec (Getenv "TELEGRAM_CHAT_ID") "") as [Hc|Hc].
  { split_and!; try done.
    split; [by intros [cfg H]|]. intros (_ & _ & [H|[_ H]]); done. }
  split_and!; try done.
  - split; [intros _; split_and!; auto | intros _; eauto].
  - intros cfg [= <-]. split; [done|]. cbn. by rewrite getEnvBool_true, Hoff.
Qed.

(** X26. The defaults.  When none of the optional variables is set, a
    configuration that loads has Telegram, the health check and the traffic
    shutdown switched on and the GCP credits off, checks every 60 seconds
    on the schedule [@every 60s], and gives the monitor three start
    attempts 30 seconds apart, a notification cooldown of 300 seconds and
    traffic limits of 19 and 195 GB. *)
Theorem X26_Load_defaults :
  ∀ (cfg : Conf.Config),
    Load = Ok cfg →
    (∀ key, key ∈ Conf.optional → Getenv key = "") →
    monitorConfig cfg = defaultConfig ∧
    Conf.TelegramEnabled cfg = true ∧
    Conf.HealthCheckEnabled cfg = true ∧
    Conf.GCPCreditsEnabled cfg = false ∧
    Conf.CheckInterval cfg = 60%Z ∧
    Conf.CronSchedule cfg = "@every 60s" ∧
    Conf.TrafficCheckInterval cfg = 300%Z ∧
    Conf.GCPCreditsCheckInterval cfg = 3600%Z ∧
    Conf.LogLevel cfg = "info".
Proof.
  intros cfg HL Hunset.
  assert (Hcfg : cfg = fromEnv).
  { revert HL. unfold Conf.Load.
    repeat (destruct (_ =? _)%string; try done);
      destruct (Conf.TelegramEnabled _); try done;
      repeat (destruct (_ =? _)%string; try done); congruence. }
  subst cfg.
  assert (Hi : ∀ key d, key ∈ Conf.optional →
                        Conf.getEnvInt Getenv key d = d).
  { intros key d Hk. unfold Conf.getEnvInt. by rewrite (Hunset key Hk). }
  assert (Hb : ∀ key d, key ∈ Conf.optional →
                        Conf.getEnvBool Getenv key d = d).
  { intros key d Hk. unfold Conf.getEnvBool. by rewrite (Hunset key Hk). }
  assert (Hf : ∀ key d, key ∈ Conf.optional →
                        Conf.getEnvFloat64 Getenv ParseFloat key d = d).
  { intros key d Hk. unfold Conf.getEnvFloat64. by rewrite (Hunset key Hk). }
  assert (Hs : ∀ key d, key ∈ Conf.optional →
                        Conf.getEnvString Getenv key d = d).
  { intros key d Hk. unfold Conf.getEnvString. by rewrite (Hunset key Hk). }
  unfold monitorConfig, defaultConfig, Conf.fromEnv.
  cbn [Conf.RetryCount Conf.RetryInterval Conf.NotifyCooldown
       Conf.TrafficShutdownEnabled Conf.TrafficLimitChinaGB
       Conf.TrafficLimitNonChinaGB Conf.TelegramEnabled
       Conf.HealthCheckEnabled Conf.GCPCreditsEnabled Conf.CheckInterval
       Conf.CronSchedule Conf.TrafficCheckInterval
       Conf.GCPCreditsCheckInterval Conf.LogLevel].
  rewrite !Hi, !Hb, !Hf, !Hs
    by (unfold Conf.optional;
        repeat first [apply list_elem_of_here | apply list_elem_of_further]).
  split_and!; reflexivity.
Qed.

End LoadFacts.

Lemma X25_Load_requirements_witness :
  (∃ cfg, Conf.Load headlessEnv (fun _ => None) = Ok cfg).
Proof.
  pose proof (X25_Load_requirements headlessEnv (fun _ => None)) as H.
  cbv zeta in H. destruct H as (H & _). apply H.
  split_and!; [done | done | by left].
Defined.

Lemma X26_Load_defaults_witness :
  monitorConfig (Conf.fromEnv bareEnv (fun _ => None)) = defaultConfig.
Proof.
  assert (Hunset : ∀ key, key ∈ Conf.optional → bareEnv key = "").
  { intros key Hk. unfold Conf.optional in Hk.
    repeat (apply elem_of_cons in Hk as [->|Hk]; [reflexivity|]).
    by apply elem_of_nil in Hk. }
  exact (proj1 (X26_Load_defaults bareEnv (fun _ => None)
                  (Conf.fromEnv bareEnv (fun _ => None)) eq_refl Hunset)).
Defined.

(** ** The latches during a fleet check *)

Section LatchFacts.

Variable IsChinaMainlandRegion : string → bool.
Variable env : Env.

Lemma StartInstance_own r i :
  emitsAtMost (startsOutside r) 0 (StartInstance env r i).
Proof.
  unfold StartInstance. apply eam_call. intros a. cbn.
  by rewrite String.eqb_refl.
Qed.

Lemma pollRunning_own r' n r i :
  emitsAtMost (startsOutside r') 0 (pollRunning env n r i).
Proof.
  induction n as [|n IH]; simpl; unfold GetInstanceStatus; silent.
Qed.

Lemma attempt_own inst i :
  emitsAtMost (startsOutside (RegionID inst)) 0 (attempt env inst i).
Proof.
  unfold attempt, Sleep, waitForRunning.
  pose proof pollRunning_own. pose proof StartInstance_own. silent.
Qed.

Lemma reportStarted_own r inst t0 :
  emitsAtMost (startsOutside r) 0 (reportStarted env inst t0).
Proof. unfold reportStarted, GetInstance, now, notify. silent. Qed.

Lemma reportFailed_own r inst e :
  emitsAtMost (startsOutside r) 0 (reportFailed env inst e).
Proof. unfold reportFailed, notify. silent. Qed.

Lemma retryLoop_own n : ∀ i e inst t0,
  emitsAtMost (startsOutside (RegionID inst)) 0 (retryLoop env n i e inst t0).
Proof.
  pose proof attempt_own. pose proof reportStarted_own.
  pose proof reportFailed_own.
  induction n as [|n IH]; intros i e inst t0; simpl; silent.
Qed.

Lemma alertReclaimed_own r inst :
  emitsAtMost (startsOutside r) 0 (alertReclaimed env inst).
Proof.
  unfold alertReclaimed, canNotify, updateNotifyTime, now, notify. silent.
Qed.

Lemma checkInstance_own inst :
  emitsAtMost (startsOutside (RegionID inst)) 0
    (checkInstance IsChinaMainlandRegion env inst).
Proof.
  pose proof alertReclaimed_own. pose proof retryLoop_own.
  unfold checkInstance, startWithRetries, GetInstanceStatus, now. silent.
Qed.

Lemma latched_not_own m inst e :
  blocked IsChinaMainlandRegion m inst = false →
  startsLatched IsChinaMainlandRegion m e = true →
  startsOutside (RegionID inst) e = true.
Proof.
  destruct e; try done. cbn. intros Hb Hl.
  destruct (String.eqb_spec regionID (RegionID inst)) as [->|]; [|done].
  unfold blocked in Hb. unfold regionLatched in Hl. congruence.
Qed.

Lemma checkInstance_respects m inst s :
  chinaShutdown (mon s) = chinaShutdown m →
  nonChinaShutdown (mon s) = nonChinaShutdown m →
  ∃ new,
    trace (snd (checkInstance IsChinaMainlandRegion env inst s))
    = (trace s ++ new)%list ∧
    countEv (startsLatched IsChinaMainlandRegion m) new = 0%nat.
Proof.
  intros H1 H2.
  destruct (blocked IsChinaMainlandRegion (mon s) inst) eqn:Hb.
  - unfold checkInstance. run_monad. rewrite Hb. simpl. by eexists [_].
  - assert (Hm : blocked IsChinaMainlandRegion m inst = false).
    { unfold blocked in *. by rewrite <- H1, <- H2. }
    destruct (eam_mono (startsLatched IsChinaMainlandRegion m)
                (startsOutside (RegionID inst)) 0
                (checkInstance IsChinaMainlandRegion env inst)
                (λ e, latched_not_own m inst e Hm)
                (checkInstance_own inst) s) as (new & T & C).
    exists new. split; [done|lia].
Qed.

Lemma forEach_respects m l : ∀ s,
  chinaShutdown (mon s) = chinaShutdown m →
  nonChinaShutdown (mon s) = nonChinaShutdown m →
  ∃ new,
    trace (snd (forEach l (checkAndLog IsChinaMainlandRegion env) s))
    = (trace s ++ new)%list ∧
    countEv (startsLatched IsChinaMainlandRegion m) new = 0%nat.
Proof.
  induction l as [|inst l IH]; intros s H1 H2; simpl.
  - exists []. by rewrite app_nil_r.
  - unfold bind.
    pose proof (checkAndLog_same IsChinaMainlandRegion env inst s)
      as (_ & _ & _ & _ & L1 & L2).
    assert (Hc : ∃ new,
              trace (snd (checkAndLog IsChinaMainlandRegion env inst s))
              = (trace s ++ new)%list ∧
              countEv (startsLatched IsChinaMainlandRegion m) new = 0%nat).
    { unfold checkAndLog, bind.
      destruct (checkInstance_respects m inst s H1 H2) as (new & T & C).
      destruct (checkInstance IsChinaMainlandRegion env inst s)
        as [[e|] s1]; simpl in *.
      - eexists (new ++ [_])%list. rewrite T, <- app_assoc.
        split; [done|]. rewrite countEv_app, C. done.
      - by exists new. }
    destruct Hc as (new1 & T1 & C1).
    destruct (checkAndLog IsChinaMainlandRegion env inst s) as [[] s1].
    simpl in *.
    destruct (IH s1) as (new2 & T2 & C2); [congruence|congruence|].
    exists (new1 ++ new2)%list. rewrite T2, T1, <- app_assoc.
    split; [done|]. rewrite countEv_app. lia.
Qed.

Lemma cycleStart_respects m s :
  mon s = m →
  chinaShutdown (mon (cycleStart env s)) = chinaShutdown m ∧
  nonChinaShutdown (mon (cycleStart env s)) = nonChinaShutdown m ∧
  ∃ new, trace (cycleStart env s) = (trace s ++ new)%list ∧
         countEv (startsLatched IsChinaMainlandRegion m) new = 0%nat.
Proof.
  intros <-.
  assert (Hq : emitsAtMost (startsLatched IsChinaMainlandRegion (mon s)) 0
                 (e <- refreshInstances env ;;
                  match e with
                  | Some e =>
                      log LWarn
                        "Failed to refresh instances, using cached list: %v"
                        [AErr (Some e)]
                  | None => ret tt
                  end)).
  { assert (emitsAtMost (startsLatched IsChinaMainlandRegion (mon s)) 0
              (refreshInstances env)).
    { eapply eam_mono; [|apply refreshInstances_no_start_stop].
      intros e He. by destruct e. }
    silent. }
  destruct (Hq s) as (new & T & C). fold (cycleStart env s) in T.
  assert (Hm : chinaShutdown (mon (cycleStart env s)) = chinaShutdown (mon s) ∧
               nonChinaShutdown (mon (cycleStart env s))
               = nonChinaShutdown (mon s)).
  { unfold cycleStart, bind.
    destruct (DiscoverAllSpotInstances env s) as [[discovered|e] s1] eqn:Hd.
    - by rewrite (refreshInstances_ok env s discovered s1 Hd).
    - destruct (refreshInstances_err env s e s1 Hd) as [-> Hs1]. simpl.
      by rewrite Hs1. }
  destruct Hm as [Hm1 Hm2]. split_and!; [done|done|].
  exists new. split; [done|lia].
Qed.


End LatchFacts.

(** ** The regional clients *)

Section ClientFacts.

Variable Client : Type.
Variable NewClientWithAccessKey : string → result Client.

Local Abbreviation getClient :=
  (Clients.getClient Client NewClientWithAccessKey).
Local Abbreviation warm := (Clients.warm Client NewClientWithAccessKey).

Lemma getClient_keeps clients regionID r client :
  clients !! r = Some client →
  snd (getClient clients regionID) !! r = Some client.
Proof.
  intros Hr. unfold Clients.getClient.
  destruct (clients !! regionID) as [c|] eqn:Hc; [done|].
  destruct (NewClientWithAccessKey regionID) as [c|e]; [|done].
  cbn. rewrite lookup_insert_ne; [done|]. intros <-. congruence.
Qed.

Lemma warm_keeps regionIDs : ∀ clients r client,
  clients !! r = Some client → warm clients regionIDs !! r = Some client.
Proof.
  induction regionIDs as [|x rest IH]; intros clients r client Hr; [done|].
  cbn. apply IH. by apply getClient_keeps.
Qed.

(** X28. One client per region.  [getClient] hands out the client that the
    map holds for the region and otherwise makes one and stores it: a
    client it returned is in the map for that region, and stays there,
    unchanged, whatever regions are asked for afterwards, so that a later
    request for the region gets the same client without a new one being
    made.  A client that cannot be made gives the wrapped error and leaves
    the map as it was; the failure is not remembered. *)
Theorem X28_getClient_makes_one_client_per_region :
  ∀ (clients : gmap string Client) (regionID : string),
    let r := getClient clients regionID in
    (∀ client, fst r = Ok client →
       snd r !! regionID = Some client ∧
       ∀ others,
         getClient (warm (snd r) others) regionID
         = (Ok client, warm (snd r) others)) ∧
    (∀ e, fst r = Err e →
       clients !! regionID = None ∧ snd r = clients ∧
       ∃ e', NewClientWithAccessKey regionID = Err e' ∧
             e = wrapErr ("failed to create ECS client for region "
                          +:+ regionID) e') ∧
    (∀ other client, clients !! other = Some client →
       snd r !! other = Some client).
Proof.
  intros clients regionID. cbv zeta. split_and!.
  - intros client Hok.
    assert (Hin : snd (getClient clients regionID) !! regionID = Some client).
    { revert Hok. unfold Clients.getClient.
      destruct (clients !! regionID) as [c|] eqn:Hc.
      - cbn. by intros [= <-].
      - destruct (NewClientWithAccessKey regionID) as [c|e]; [|done].
        cbn. intros [= <-]. by rewrite lookup_insert_eq. }
    split; [done|]. intros others.
    pose proof (warm_keeps others _ _ _ Hin) as Hw.
    unfold Clients.getClient at 1. by rewrite Hw.
  - intros e. unfold Clients.getClient.
    destruct (clients !! regionID) as [c|] eqn:Hc; [done|].
    destruct (NewClientWithAccessKey regionID) as [c|e']; [done|].
    cbn. intros [= <-]. eauto.
  - intros other client. apply getClient_keeps.
Qed.

End ClientFacts.

Lemma X28_getClient_makes_one_client_per_region_witness :
  Clients.getClient string mainlandOnly
    (Clients.warm string mainlandOnly
       (snd (Clients.getClient string mainlandOnly ∅ "cn-hangzhou"))
       ["us-west-1"; "cn-beijing"])
    "cn-hangzhou"
  = (Ok "client-cn-hangzhou",
     Clients.warm string mainlandOnly
       (snd (Clients.getClient string mainlandOnly ∅ "cn-hangzhou"))
       ["us-west-1"; "cn-beijing"]).
Proof.
  pose proof (X28_getClient_makes_one_client_per_region string mainlandOnly
                ∅ "cn-hangzhou") as H.
  cbv zeta in H. destruct H as (H & _ & _).
  destruct (H "client-cn-hangzhou" eq_refl) as [_ Hw].
  exact (Hw ["us-west-1"; "cn-beijing"]).
Defined.

(** ** Integer settings *)

Lemma digits_acc u : ∀ acc,
  Conf.digits (DecimalString.NilEmpty.string_of_uint u) (Z.pos acc)
  = Some (Z.pos (Pos.of_uint_acc u acc)).
Proof.
  induction u as [|u IH|u IH|u IH|u IH|u IH|u IH|u IH|u IH|u IH|u IH];
    intros acc; [done|..];
    cbn [DecimalString.NilEmpty.string_of_uint Conf.digits Pos.of_uint_acc];
    (match goal with
     | |- context [Conf.isDigit ?c] =>
         change (Conf.isDigit c) with true; cbv iota
     end);
    (match goal with
     | |- context [Z.of_nat ?x] =>
         let y := eval vm_compute in (Z.of_nat x) in
         change (Z.of_nat x) with y
     end);
    (match goal with
     | |- Conf.digits _ ?z = Some (Z.pos (Pos.of_uint_acc _ ?p)) =>
         replace z with (Z.pos p) by lia
     end); apply IH.
Qed.

Lemma digits_zero u :
  Conf.digits (DecimalString.NilEmpty.string_of_uint u) 0
  = Some (Z.of_N (Pos.of_uint u)).
Proof.
  induction u as [|u IH|u IH|u IH|u IH|u IH|u IH|u IH|u IH|u IH|u IH];
    [done|exact IH|..];
    cbn [DecimalString.NilEmpty.string_of_uint Conf.digits Pos.of_uint];
    (match goal with
     | |- context [Conf.isDigit ?c] =>
         change (Conf.isDigit c) with true; cbv iota
     end);
    (match goal with
     | |- Conf.digits _ ?z = _ =>
         let y := eval vm_compute in z in change z with y
     end); cbn [Z.of_N]; apply digits_acc.
Qed.

Lemma Atoi_unsigned u :
  u ≠ Decimal.Nil →
  Conf.Atoi (DecimalString.NilEmpty.string_of_uint u)
  = let v := Z.of_N (Pos.of_uint u) in
    if (Conf.minInt <=? v)%Z && (v <=? Conf.maxInt)%Z then Some v else None.
Proof.
  intros Hu. pose proof (digits_zero u) as Hd. unfold Conf.Atoi.
  destruct u; [done|..]; cbn [DecimalString.NilEmpty.string_of_uint] in *;
    cbv beta iota; by rewrite Hd.
Qed.

Lemma Atoi_negative u :
  u ≠ Decimal.Nil →
  Conf.Atoi (String "-" (DecimalString.NilEmpty.string_of_uint u))
  = let v := (- Z.of_N (Pos.of_uint u))%Z in
    if (Conf.minInt <=? v)%Z && (v <=? Conf.maxInt)%Z then Some v else None.
Proof.
  intros Hu. pose proof (digits_zero u) as Hd. unfold Conf.Atoi.
  cbv beta iota.
  destruct u; [done|..]; cbn [DecimalString.NilEmpty.string_of_uint] in *;
    cbv beta iota; by rewrite Hd.
Qed.

Lemma to_uint_not_nil p : Pos.to_uint p ≠ Decimal.Nil.
Proof.
  intros H. pose proof (DecimalPos.Unsigned.of_to p) as Hp.
  rewrite H in Hp. done.
Qed.

Lemma string_of_uint_not_nil u :
  u ≠ Decimal.Nil →
  DecimalString.NilZero.string_of_uint u
  = DecimalString.NilEmpty.string_of_uint u.
Proof. by destruct u. Qed.

Lemma Atoi_Itoa n :
  (Conf.minInt ≤ n ≤ Conf.maxInt)%Z → Conf.Atoi (GCP.Itoa n) = Some n.
Proof.
  intros Hn. unfold GCP.Itoa. destruct n as [|p|p].
  - done.
  - cbn [Z.to_int DecimalString.NilZero.string_of_int].
    pose proof (to_uint_not_nil p) as Hp.
    rewrite (string_of_uint_not_nil _ Hp), (Atoi_unsigned _ Hp),
      DecimalPos.Unsigned.of_to.
    cbv zeta. cbn [Z.of_N].
    assert ((Conf.minInt <=? Z.pos p)%Z && (Z.pos p <=? Conf.maxInt)%Z
            = true) as ->; [|done].
    apply andb_true_intro. split; apply Z.leb_le; lia.
  - cbn [Z.to_int DecimalString.NilZero.string_of_int].
    pose proof (to_uint_not_nil p) as Hp.
    rewrite (string_of_uint_not_nil _ Hp), (Atoi_negative _ Hp),
      DecimalPos.Unsigned.of_to.
    cbv zeta. change (- Z.of_N (N.pos p))%Z with (Z.neg p).
    assert ((Conf.minInt <=? Z.neg p)%Z && (Z.neg p <=? Conf.maxInt)%Z
            = true) as ->; [|done].
    apply andb_true_intro. split; apply Z.leb_le; lia.
Qed.

Lemma Atoi_range s n :
  Conf.Atoi s = Some n → (Conf.minInt ≤ n ≤ Conf.maxInt)%Z ∧ s ≠ "".
Proof.
  unfold Conf.Atoi. intros H. split; [|by intros ->].
  destruct (match s with
            | String "-" rest => (true, rest)
            | String "+" rest => (false, rest)
            | _ => (false, s)
            end) as [negative body].
  destruct body; [done|].
  destruct (Conf.digits _ _) as [v|]; [|done].
  destruct (_ && _) eqn:Hr; [|done]. injection H as <-.
  apply andb_prop in Hr as [H1 H2]. apply Z.leb_le in H1, H2. lia.
Qed.

(** X29. Integer settings round-trip.  Every Go [int], written in decimal
    as [%d] writes it, is read back by [strconv.Atoi] as the same number,
    so an integer setting given that way is taken as it is, also when it is
    zero or negative; whatever [Atoi] accepts is a non-empty text for a
    number in the range of [int]; and a setting that is unset or that
    [Atoi] rejects gives the default. *)
Theorem X29_integer_settings_round_trip :
  ∀ (Getenv : string → string) (key : string) (defaultValue n : Z),
    ((Conf.minInt ≤ n ≤ Conf.maxInt)%Z →
     Conf.Atoi (GCP.Itoa n) = Some n ∧
     (Getenv key = GCP.Itoa n → Conf.getEnvInt Getenv key defaultValue = n)) ∧
    (Conf.Atoi (Getenv key) = Some n →
     (Conf.minInt ≤ n ≤ Conf.maxInt)%Z ∧
     Conf.getEnvInt Getenv key defaultValue = n) ∧
    (Conf.Atoi (Getenv key) = None →
     Conf.getEnvInt Getenv key defaultValue = defaultValue).
Proof.
  intros Getenv key defaultValue n. split_and!.
  - intros Hn. pose proof (Atoi_Itoa n Hn) as Ha. split; [done|].
    intros Hg. unfold Conf.getEnvInt. rewrite Hg, Ha.
    destruct (String.eqb_spec (GCP.Itoa n) "") as [He|]; [|done].
    rewrite He in Ha. done.
  - intros Ha. destruct (Atoi_range _ _ Ha) as [Hr Hne]. split; [done|].
    unfold Conf.getEnvInt. rewrite Ha.
    by destruct (String.eqb_spec (Getenv key) "").
  - intros Ha. unfold Conf.getEnvInt. rewrite Ha. by destruct (negb _).
Qed.

Lemma X29_integer_settings_round_trip_witness :
  Conf.getEnvInt (fun _ => "-15") "RETRY_COUNT" 3 = (-15)%Z.
Proof.
  destruct (X29_integer_settings_round_trip (fun _ => "-15") "RETRY_COUNT" 3
              (-15)) as (H & _ & _).
  assert (Hr : (Conf.minInt ≤ -15 ≤ Conf.maxInt)%Z)
    by (unfold Conf.minInt, Conf.maxInt; lia).
  destruct (H Hr) as [_ Hg]. apply Hg. reflexivity.
Defined.

(** ** What a press on the selection screen does *)

Lemma backButton_actsOn instanceID text :
  Forall (λ b, actsOn instanceID (Telegram.CallbackData b)) (backButton text).
Proof. apply Forall_cons. split; [by left | apply Forall_nil_2]. Qed.

Lemma selectionRows_actsOn instanceID eips bwps :
  Forall (λ eip, free ":" (CBWP.BandwidthPackageID eip) = true) eips →
  Forall (λ bwp, free ":" (Package.BandwidthPackageID bwp) = true) bwps →
  Forall (λ b, actsOn instanceID (Telegram.CallbackData b))
    (concat (selectionRows instanceID eips bwps)).
Proof.
  intros He Hb. unfold selectionRows. rewrite concat_app.
  apply Forall_app. split.
  - induction He as [|eip eips Hf He IH]; cbn; [apply Forall_nil_2|].
    rewrite concat_app. apply Forall_app. split; [|exact IH].
    unfold eipRows.
    destruct (String.eqb_spec (CBWP.BandwidthPackageID eip) "") as [Hq|Hq];
      cbn [negb].
    + clear -Hb. induction Hb as [|bwp bwps Hf Hb IH]; cbn;
        [apply Forall_nil_2|].
      apply Forall_cons. split; [|exact IH].
      right. left. by exists (Package.BandwidthPackageID bwp).
    + cbn. apply Forall_cons. split; [|apply Forall_nil_2].
      right. right. by exists (CBWP.BandwidthPackageID eip).
  - cbn [concat]. rewrite app_nil_r. apply backButton_actsOn.
Qed.

Section Presses.

Variable env : DeskEnv.
Variable instances : list SpotInstance.
Variable hSelect : string → string → Z → M error.
Variable hBind : string → string → string → Z → M error.
Variable hUnbind : string → string → string → Z → M error.
Variable hBack : Z → M error.
Variable hAnswer : string → string → bool → M error.

Local Abbreviation dispatch :=
  (handleCallbackQuery hSelect hBind hUnbind hBack hAnswer).

(** X30. A press on the selection screen acts on the selected instance.
    When the cloud reports package ids without a colon and the id of the
    selected instance has none, every button that [handleCBWPSelectInstance]
    puts on the screen is one of three kinds: the dispatcher of callbacks
    takes it back to the list, or runs the bind handler, or runs the
    unbind handler with a package that is not empty, and in both cases with
    the id of the instance that was selected. *)
Theorem X30_selection_buttons_act_on_the_selected_instance :
  ∀ (callbackID instanceID : string) (messageID : Z) (tr : DeskTrace),
    cleanIds env →
    free ":" instanceID = true →
    ∃ buttons,
      shown (snd (handleCBWPSelectInstance env instances callbackID instanceID
                    messageID tr))
      = (shown tr ++ buttons)%list ∧
      ∀ button, button ∈ buttons →
        ∀ (pressID : string) (pressedMessage : Z),
          dispatch pressID (Telegram.CallbackData button) pressedMessage
          = (hAnswer pressID "" false ;; hBack pressedMessage) ∨
          (∃ bwpID,
             dispatch pressID (Telegram.CallbackData button) pressedMessage
             = hBind pressID instanceID bwpID pressedMessage) ∨
          (∃ bwpID, bwpID ≠ "" ∧
             dispatch pressID (Telegram.CallbackData button) pressedMessage
             = hUnbind pressID instanceID bwpID pressedMessage).
Proof.
  intros callbackID instanceID messageID tr [Heips Hbwps] Hi.
  assert (Hacts : ∃ buttons,
            shown (snd (handleCBWPSelectInstance env instances callbackID
                          instanceID messageID tr))
            = (shown tr ++ buttons)%list ∧
            Forall (λ b, actsOn instanceID (Telegram.CallbackData b)) buttons).
  { unfold handleCBWPSelectInstance. desk_run.
    destruct (findInstance instances instanceID) as [inst|].
    2: { exists []. cbn [snd]. rewrite !shown_app. cbn. by rewrite !app_nil_r. }
    destruct (cbwpDescribeEipAddresses env _ _ _) as [[|eip eips]|e] eqn:He;
      cbn [snd].
    - exists (backButton "« 返回"). rewrite !shown_app.
      cbn [shown buttonsOf concat app]. rewrite !app_nil_r.
      split; [reflexivity|]. apply backButton_actsOn.
    - destruct (cbwpDescribeCommonBandwidthPackages env _ _)
        as [[|bwp bwps]|e] eqn:Hb; cbn [snd].
      + exists (backButton "« 返回"). rewrite !shown_app.
        cbn [shown buttonsOf concat app]. rewrite !app_nil_r.
        split; [reflexivity|]. apply backButton_actsOn.
      + exists (concat (selectionRows instanceID (eip :: eips) (bwp :: bwps))).
        rewrite !shown_app. cbn [shown buttonsOf app].
        rewrite !app_nil_r, buttonsOf_asSlice. split; [reflexivity|].
        apply selectionRows_actsOn; [exact (Heips _ _ _ _ He)|].
        exact (Hbwps _ _ _ Hb).
      + exists []. rewrite !shown_app. cbn. by rewrite !app_nil_r.
    - exists []. rewrite !shown_app. cbn. by rewrite !app_nil_r. }
  destruct Hacts as (buttons & Hs & Ha). exists buttons. split; [exact Hs|].
  intros button Hin pressID pressedMessage.
  rewrite Forall_forall in Ha. specialize (Ha button Hin).
  destruct Ha as [->|[(bwpID & Hb & ->)|(bwpID & Hb & Hne & ->)]].
  - left. apply dispatch_back.
  - right. left. exists bwpID. by apply dispatch_bind.
  - right. right. exists bwpID. split; [done|]. by apply dispatch_unbind.
Qed.

End Presses.

Lemma X30_selection_buttons_act_on_the_selected_instance_witness :
  ∃ buttons,
    shown (snd (handleCBWPSelectInstance calmDesk [i001] "cb-1" "i-001" 101
                  []))
    = buttons ∧ length buttons = 4%nat.
Proof.
  assert (Hclean : cleanIds calmDesk).
  { split.
    - intros tr regionID instanceID eips [= <-].
      repeat (apply Forall_cons; split; [reflexivity|]). apply Forall_nil_2.
    - intros tr regionID bwps [= <-].
      repeat (apply Forall_cons; split; [reflexivity|]). apply Forall_nil_2. }
  destruct (X30_selection_buttons_act_on_the_selected_instance calmDesk
              [i001] echoSelect echoBind echoUnbind echoBack echoAnswer
              "cb-1" "i-001" 101 [] Hclean eq_refl) as (buttons & Hs & _).
  exists buttons. cbn [shown app] in Hs. split; [exact Hs|].
  rewrite <- Hs. reflexivity.
Defined.
